(** * tvconvert: conversion planning and progress monitoring

    A shallow embedding of the TypeScript sources [movie.ts] and
    [ffprobe.ts] of tvconvert, and the properties of its planner
    (ffmpeg argument lists), its track selection and its progress monitor.

    Conventions of the embedding.
    - A JavaScript string is a [string]; every [ascii] stands for the UTF-16
      code unit with the same number, so the model covers the strings whose
      code units are below U+0100.
    - A JavaScript number that holds an integer by what makes it (a stream
      index of ffprobe, a file counter, an exit code) is a [Z]; [NaN] as the
      result of [Number.parseInt] is [None]. This is exact for the integers
      up to 2^53 in absolute value, which JavaScript numbers hold exactly.
      The year of a movie, which is whatever number the configuration has,
      and the numbers of the progress computation are binary64 floats
      ([float]), as in JavaScript.
    - What the sources take from Node.js and is not theirs is a variable of
      the section of the class: [join] of node:path, the conversion of a
      string to a number and [toFixed]. [Posix.join] is [join] as node:path
      defines it for POSIX.
    - [undefined] and [null] are [None].
    - A plain object used as a dictionary is an association list in the order
      of [Object.keys].
    - A [throw] is the [Throw] completion. *)

From Stdlib Require Import List String Ascii ZArith Lia Bool.
From Stdlib Require Import Decimal DecimalString DecimalZ.
From Stdlib Require Import Floats.
From Stdlib Require Import Permutation.
Import ListNotations.

Local Open Scope string_scope.
Local Open Scope list_scope.

Set Default Proof Using "Type".

(* ================================================================== *)
(** ** JavaScript built-ins used by the sources *)
(* ================================================================== *)

Module JS.

(** The completion of a call: a value, or a thrown error with its message. *)
Inductive Completion (A : Type) : Type :=
| Normal (a : A)
| Throw (message : string).
Arguments Normal {A} a.
Arguments Throw {A} message.

Definition bind {A B} (c : Completion A) (k : A -> Completion B) : Completion B :=
  match c with
  | Normal a => k a
  | Throw m => Throw m
  end.

(** [`${n}`] for an integer number [n]: its decimal representation. *)
Definition numberToString (n : Z) : string :=
  NilZero.string_of_int (Z.to_int n).

(** [`${x}`] for any number [x] is Number::toString(x) in radix 10. Its
    digits are the shortest ones that are read back as [x]. *)

(** The integer that the positive finite number [m * 2^e] is, when it is
    one below 2^53. *)
Definition integerOf (m : positive) (e : Z) : option Z :=
  if (0 <=? e)%Z then
    let n := (Z.pos m * 2 ^ e)%Z in
    if (n <? 2 ^ 53)%Z then Some n else None
  else if (Z.pos m mod 2 ^ (- e) =? 0)%Z then Some (Z.pos m / 2 ^ (- e))%Z
  else None.

(** The integer that a number is, when it is one of absolute value below
    2^53. *)
Definition integerValue (x : float) : option Z :=
  match Prim2SF x with
  | S754_zero _ => Some 0%Z
  | S754_finite negative m e =>
      match integerOf m e with
      | Some n => Some (if negative then (- n)%Z else n)
      | None => None
      end
  | _ => None
  end.

(** [a * 10^p ?= b * 2^q] *)
Definition compareScaled (a p b q : Z) : comparison :=
  (a * 10 ^ Z.max p 0 * 2 ^ Z.max (- q) 0
   ?= b * 2 ^ Z.max q 0 * 10 ^ Z.max (- p) 0)%Z.

Definition digitCount (n : Z) : Z :=
  Z.of_nat (String.length (numberToString n)).

(** The [n] with [10^(n-1) <= m * 2^e < 10^n]. *)
Definition decimalExponent (m : positive) (e : Z) : Z :=
  let whole := (Z.pos m * 2 ^ Z.max e 0 / 2 ^ Z.max (- e) 0)%Z in
  if (1 <=? whole)%Z then digitCount whole
  else (1 - digitCount ((2 ^ (- e) - 1) / Z.pos m))%Z.

(** Whether [s * 10^p] is read back as [m * 2^e]: it is between the middle
    of [m * 2^e] and the number below it and the middle of [m * 2^e] and the
    number above it, the two middles counting when [m] is even. *)
Definition readsBack (m : positive) (e : Z) (s p : Z) : bool :=
  let below :=
    if ((Z.pos m =? 2 ^ 52)%Z && (-1074 <? e)%Z)%bool then (4 * Z.pos m - 1)%Z
    else (4 * Z.pos m - 2)%Z in
  let above := (4 * Z.pos m + 2)%Z in
  let even := Z.even (Z.pos m) in
  match compareScaled s p below (e - 2), compareScaled s p above (e - 2) with
  | Lt, _ => false
  | _, Gt => false
  | Eq, _ => even
  | _, Eq => even
  | Gt, Lt => true
  end.

(** The digits of [k] places that are read back as [m * 2^e], if any, with
    the power of ten they are multiplied by: of two the nearer ones, and the
    even ones of two that are as near. *)
Definition candidate (m : positive) (e : Z) (n k : Z) : option (Z * Z) :=
  let p := (n - k)%Z in
  let a :=
    (Z.pos m * 2 ^ Z.max e 0 * 10 ^ Z.max (- p) 0
     / (2 ^ Z.max (- e) 0 * 10 ^ Z.max p 0))%Z in
  let lower := readsBack m e a p in
  let upper := readsBack m e (a + 1) p in
  let above :=
    if (a + 1 =? 10 ^ k)%Z then (10 ^ (k - 1), p + 1)%Z else (a + 1, p)%Z in
  if (lower && upper)%bool then
    match compareScaled (2 * a + 1) p (2 * Z.pos m) e with
    | Gt => Some (a, p)
    | Lt => Some above
    | Eq => if Z.even a then Some (a, p) else Some above
    end
  else if lower then Some (a, p)
  else if upper then Some above
  else None.

(** The fewest digits that are read back; 17 always are. *)
Fixpoint shortest (m : positive) (e : Z) (n : Z) (k : Z) (fuel : nat)
    : Z * Z :=
  match fuel with
  | O => (Z.pos m, e)
  | S fuel' =>
      match candidate m e n k with
      | Some sp => sp
      | None => shortest m e n (k + 1)%Z fuel'
      end
  end.

Definition zeros (n : Z) : string :=
  string_of_list_ascii (repeat "0"%char (Z.to_nat n)).

(** Number::toString of the positive finite number [m * 2^e]. An integer
    below 2^53 has its own decimal digits for shortest ones. *)
Definition positiveToString (m : positive) (e : Z) : string :=
  match integerOf m e with
  | Some n => numberToString n
  | None =>
      let (s, p) := shortest m e (decimalExponent m e) 1 17 in
      let digits := numberToString s in
      let k := Z.of_nat (String.length digits) in
      let n := (p + k)%Z in
      if ((k <=? n)%Z && (n <=? 21)%Z)%bool then (digits ++ zeros (n - k))%string
      else if ((0 <? n)%Z && (n <=? 21)%Z)%bool then
        (substring 0 (Z.to_nat n) digits ++ "."
         ++ substring (Z.to_nat n) (Z.to_nat (k - n)) digits)%string
      else if ((-6 <? n)%Z && (n <=? 0)%Z)%bool then
        ("0." ++ zeros (- n) ++ digits)%string
      else
        let exponent :=
          ((if (n - 1 <? 0)%Z then "-" else "+")
           ++ numberToString (Z.abs (n - 1)))%string in
        if (k =? 1)%Z then (digits ++ "e" ++ exponent)%string
        else
          (substring 0 1 digits ++ "."
           ++ substring 1 (Z.to_nat (k - 1)) digits ++ "e" ++ exponent)%string
  end.

Definition toString (x : float) : string :=
  match Prim2SF x with
  | S754_nan => "NaN"
  | S754_zero _ => "0"
  | S754_infinity false => "Infinity"
  | S754_infinity true => "-Infinity"
  | S754_finite negative m e =>
      ((if negative then "-" else "") ++ positiveToString m e)%string
  end.

(** [array.join(sep)] *)
Definition arrayJoin (sep : string) (l : list string) : string :=
  String.concat sep l.

(** [array.push(...items)] *)
Definition push {A} (array items : list A) : list A := array ++ items.

(** [for (const x of array) body] and [array.forEach((x, i) => body)], the
    body acting on an accumulated state. *)
Definition forOf {A S} (array : list A) (body : S -> A -> S) (s : S) : S :=
  fold_left body array s.

Definition entries {A} (array : list A) : list (Z * A) :=
  combine (map Z.of_nat (seq 0 (List.length array))) array.

Definition forEach {A S} (array : list A) (body : S -> A -> Z -> S) (s : S) : S :=
  fold_left (fun acc ix => body acc (snd ix) (fst ix)) (entries array) s.

(** [a === b] between a number and the result of [parseInt]: [NaN] equals
    nothing. *)
Definition strictEquals (a : Z) (b : option Z) : bool :=
  match b with
  | Some b => Z.eqb a b
  | None => false
  end.

(** [a ?? b] *)
Definition nullish {A} (a : option A) (b : A) : A :=
  match a with
  | Some x => x
  | None => b
  end.

(** Objects as dictionaries: [Object.keys(o)] and [o[k]]. *)
Definition Dict (V : Type) : Type := list (string * V).

Definition keys {V} (o : Dict V) : list string := map fst o.

Fixpoint get {V} (o : Dict V) (k : string) : option V :=
  match o with
  | [] => None
  | (k', v) :: o' => if String.eqb k' k then Some v else get o' k
  end.

(** [array.find(p)]: the first element that satisfies [p]. *)
Definition find {A} (p : A -> bool) (l : list A) : option A := List.find p l.

(** Code units. *)
Definition isDigit (c : ascii) : bool :=
  (Ascii.leb "0" c && Ascii.leb c "9")%char.

(** [StrWhiteSpaceChar] below U+0100: TAB, LF, VT, FF, CR, SP, NBSP. *)
Definition isWhiteSpace (c : ascii) : bool :=
  let n := nat_of_ascii c in
  (Nat.eqb n 9 || Nat.eqb n 10 || Nat.eqb n 11 || Nat.eqb n 12
   || Nat.eqb n 13 || Nat.eqb n 32 || Nat.eqb n 160)%bool.

(** [LineTerminator] below U+0100: LF and CR. *)
Definition isLineTerminator (c : ascii) : bool :=
  let n := nat_of_ascii c in (Nat.eqb n 10 || Nat.eqb n 13)%bool.

Fixpoint trimStart (s : string) : string :=
  match s with
  | String c s' => if isWhiteSpace c then trimStart s' else s
  | EmptyString => EmptyString
  end.

(** The longest prefix of decimal digits. *)
Fixpoint digitPrefix (s : string) : string :=
  match s with
  | String c s' => if isDigit c then String c (digitPrefix s') else EmptyString
  | EmptyString => EmptyString
  end.

(** [Number.parseInt(s, 10)]: leading white space is skipped, one sign is
    read, then the longest run of digits; no digit gives [NaN] ([None]).
    Whatever follows the digits is ignored. *)
Definition parseInt (s : string) : option Z :=
  let S := trimStart s in
  let (sign, S) :=
    match S with
    | String "-" S' => (-1, S')
    | String "+" S' => (1, S')
    | _ => (1, S)
    end%Z in
  match NilZero.uint_of_string (digitPrefix S) with
  | Some d => Some (sign * Z.of_uint d)%Z
  | None => None
  end.

End JS.

(* ================================================================== *)
(** ** ffprobe.ts *)
(* ================================================================== *)

Module Ffprobe.

Definition FfprobeDispositionMap : Type := JS.Dict Z.

Record FfprobeFormat : Type := { duration : float }.

Record FfprobeStream : Type := {
  index : Z;
  codec_name : string;
  disposition : FfprobeDispositionMap;
  tags : option (JS.Dict string)
}.

(** A stream of the output of ffprobe, by its [codec_type]: ["audio"],
    ["subtitle"], or any other one. The declared type of [streams] has the
    first two only; ffprobe lists every stream of the container, so the
    video, data and attachment streams are there as well. *)
Inductive FfprobeAnyStream : Type :=
| FfprobeAudioStream (s : FfprobeStream) (channel_layout : string)
| FfprobeSubtitleStream (s : FfprobeStream)
| FfprobeOtherStream (s : FfprobeStream).

Record FfProbeOutput : Type := {
  format : FfprobeFormat;
  streams : list FfprobeAnyStream
}.

Definition convertFfprobeDispositionMapToDispositionListWithoutDefault
    (ffprobeDispositionMap : FfprobeDispositionMap) : list string :=
  filter
    (fun disposition =>
       negb (String.eqb disposition "default")
       && match JS.get ffprobeDispositionMap disposition with
          | Some v => Z.eqb v 1
          | None => false
          end)
    (JS.keys ffprobeDispositionMap).

End Ffprobe.

(* ================================================================== *)
(** ** movie.ts: data *)
(* ================================================================== *)

Module Stream.
Record t : Type := {
  index : Z;
  codecName : string;
  language : option string;
  title : option string;
  dispositionsWithoutDefault : list string
}.
End Stream.

Module AudioStream.
Record t : Type := {
  stream : Stream.t;
  channelLayout : string
}.
End AudioStream.

(** [AudioStream extends Stream] *)
Coercion AudioStream.stream : AudioStream.t >-> Stream.t.

Module SubtitleStream.
Definition t : Type := Stream.t.
End SubtitleStream.

Module ContainerInfo.
Record t : Type := {
  containerDurationSeconds : float;
  audioStreams : list AudioStream.t;
  subtitleStreams : list SubtitleStream.t
}.
End ContainerInfo.

Module ConversionInfo.
Record t : Type := {
  containerDurationSeconds : float;
  audioStreams : list AudioStream.t;
  selectedAudioStream : AudioStream.t;
  subtitleStreams : list SubtitleStream.t;
  selectedSubtitleStream : option SubtitleStream.t
}.
End ConversionInfo.

Module ConversionResult.
Record t : Type := {
  successful : bool;
  stderr : string
}.
End ConversionResult.

Module IMovie.
Record t : Type := {
  title : string;
  year : float;
  inputFilePath : string
}.
End IMovie.

(** An instance of the class [Movie]: its three read-only properties and its
    two private fields, both [undefined] after construction. *)
Record Movie : Type := {
  title : string;
  year : float;
  inputFilePath : string;
  conversionInfo : option ConversionInfo.t;
  conversionResult : option ConversionResult.t
}.

Definition fromIMovie (movie : IMovie.t) : Movie :=
  {| title := IMovie.title movie;
     year := IMovie.year movie;
     inputFilePath := IMovie.inputFilePath movie;
     conversionInfo := None;
     conversionResult := None |}.

(** What the child process does, as the parent sees it: chunks on its two
    channels, in the order of their delivery, and its termination. *)
Inductive ProcessEvent : Type :=
| StdoutData (data : string)
| StderrData (data : string)
| Close (exitCode : option Z).

(** The variables of one run of [convert] that its listeners share, and the
    lines written to the console. *)
Record Running : Type := {
  roundedProgressPercentage : string;
  stderr : string;
  console : list string
}.

(** The child process as [spawn] starts it, and the folder [mkdirSync] made
    before. *)
Record Spawned : Type := {
  madeFolder : string;
  binary : string;
  arguments : list string
}.

(* ================================================================== *)
(** ** movie.ts: the class Movie *)
(* ================================================================== *)

Section MovieClass.

(** [join] of node:path, which puts the segments together into one path. *)
Variable join : list string -> string.

(** The conversion of a string to a number that [/] applies to its left
    operand, and [Number.prototype.toFixed]. *)
Variable stringToNumber : string -> float.
Variable toFixed : float -> Z -> string.

(** The class of the regular expression [[^a-zA-Z0-9-_ ]] is the complement
    of this one. *)
Definition isFileNameSafe (c : ascii) : bool :=
  ((Ascii.leb "a" c && Ascii.leb c "z")
   || (Ascii.leb "A" c && Ascii.leb c "Z")
   || (Ascii.leb "0" c && Ascii.leb c "9")
   || Ascii.eqb c "-" || Ascii.eqb c "_" || Ascii.eqb c " ")%char.

(** [s.replace(/[^a-zA-Z0-9-_ ]/g, "")] *)
Fixpoint removeUnsafe (s : string) : string :=
  match s with
  | EmptyString => EmptyString
  | String c s' =>
      if isFileNameSafe c then String c (removeUnsafe s') else removeUnsafe s'
  end.

Definition getFullyQualifiedName (this : Movie) (fileNameSafe : bool) : string :=
  let title := title this in
  let title := if fileNameSafe then removeUnsafe title else title in
  let fullyQualifiedName :=
    (title ++ " (" ++ JS.toString (year this) ++ ")")%string in
  fullyQualifiedName.

Definition getOutputSubfolderPath (this : Movie) (outputFolderPath : string)
    (selectedSubtitleStream : option SubtitleStream.t) : string :=
  let outputSubfolderName :=
    match selectedSubtitleStream with
    | None => "external_subtitle_needed"
    | Some _ => "ready"
    end in
  join [outputFolderPath; outputSubfolderName; getFullyQualifiedName this true].

(** [s.tags?.[name]] *)
Definition tag (tags : option (JS.Dict string)) (name : string) : option string :=
  match tags with
  | Some tags => JS.get tags name
  | None => None
  end.

Definition streamOfFfprobe (s : Ffprobe.FfprobeStream) : Stream.t :=
  {| Stream.index := Ffprobe.index s;
     Stream.codecName := Ffprobe.codec_name s;
     Stream.language := tag (Ffprobe.tags s) "language";
     Stream.title := tag (Ffprobe.tags s) "title";
     Stream.dispositionsWithoutDefault :=
       Ffprobe.convertFfprobeDispositionMapToDispositionListWithoutDefault
         (Ffprobe.disposition s) |}.

(** [getInputFileMediaInfo], from the output of ffprobe as [JSON.parse]
    returns it. [filter] on [codec_type] and the [map] that follows it are
    one pass over the streams here. *)
Definition getInputFileMediaInfo (ffprobeOutput : Ffprobe.FfProbeOutput)
    : ContainerInfo.t :=
  let audioStreams :=
    flat_map
      (fun s =>
         match s with
         | Ffprobe.FfprobeAudioStream s channel_layout =>
             [ {| AudioStream.stream := streamOfFfprobe s;
                  AudioStream.channelLayout := channel_layout |} ]
         | Ffprobe.FfprobeSubtitleStream _ => []
         | Ffprobe.FfprobeOtherStream _ => []
         end)
      (Ffprobe.streams ffprobeOutput) in
  let subtitleStreams :=
    flat_map
      (fun s =>
         match s with
         | Ffprobe.FfprobeSubtitleStream s => [ streamOfFfprobe s ]
         | Ffprobe.FfprobeAudioStream _ _ => []
         | Ffprobe.FfprobeOtherStream _ => []
         end)
      (Ffprobe.streams ffprobeOutput) in
  {| ContainerInfo.containerDurationSeconds :=
       Ffprobe.duration (Ffprobe.format ffprobeOutput);
     ContainerInfo.audioStreams := audioStreams;
     ContainerInfo.subtitleStreams := subtitleStreams |}.

(** One turn of the loop of [selectAudioStream] on the operator's answer:
    the stream returned, or [None] to ask again. *)
Definition selectAudioStreamRound (audioStreams : list AudioStream.t)
    (audioStreamSelectionAnswer : string) : option AudioStream.t :=
  let audioStreamIndexCandidate := JS.parseInt audioStreamSelectionAnswer in
  JS.find
    (fun audioStream : AudioStream.t =>
       JS.strictEquals (Stream.index audioStream) audioStreamIndexCandidate)
    audioStreams.

(** The loop over the answers the operator gives one after the other; [None]
    when all of them were refused and the loop still asks. The answers not
    read are returned as well. *)
Fixpoint selectAudioStream (audioStreams : list AudioStream.t)
    (answers : list string) : option (AudioStream.t * list string) :=
  match answers with
  | [] => None
  | answer :: answers' =>
      match selectAudioStreamRound audioStreams answer with
      | Some selectedAudioStream => Some (selectedAudioStream, answers')
      | None => selectAudioStream audioStreams answers'
      end
  end.

(** One turn of the loop of [selectSubtitleStream]: [Some None] returns
    [null], [Some (Some s)] returns [s], [None] asks again. *)
Definition selectSubtitleStreamRound (subtitleStreams : list SubtitleStream.t)
    (subtitleStreamSelectionAnswer : string) : option (option SubtitleStream.t) :=
  if String.eqb subtitleStreamSelectionAnswer "" then Some None
  else
    let subtitleStreamIndexCandidate := JS.parseInt subtitleStreamSelectionAnswer in
    match JS.find
            (fun subtitleStream : SubtitleStream.t =>
               JS.strictEquals (Stream.index subtitleStream)
                 subtitleStreamIndexCandidate)
            subtitleStreams with
    | Some selectedSubtitleStream => Some (Some selectedSubtitleStream)
    | None => None
    end.

Fixpoint selectSubtitleStream (subtitleStreams : list SubtitleStream.t)
    (answers : list string) : option (option SubtitleStream.t * list string) :=
  match answers with
  | [] => None
  | answer :: answers' =>
      match selectSubtitleStreamRound subtitleStreams answer with
      | Some selected => Some (selected, answers')
      | None => selectSubtitleStream subtitleStreams answers'
      end
  end.

(** [collectConversionInfo]: the instance with [conversionInfo] set, once
    both selections have returned. *)
Definition collectConversionInfo (this : Movie)
    (ffprobeOutput : Ffprobe.FfProbeOutput) (answers : list string)
    : option (Movie * list string) :=
  let info := getInputFileMediaInfo ffprobeOutput in
  match selectAudioStream (ContainerInfo.audioStreams info) answers with
  | None => None
  | Some (selectedAudioStream, answers) =>
      match selectSubtitleStream (ContainerInfo.subtitleStreams info) answers with
      | None => None
      | Some (selectedSubtitleStream, answers) =>
          Some
            ({| title := title this;
                year := year this;
                inputFilePath := inputFilePath this;
                conversionInfo :=
                  Some
                    {| ConversionInfo.containerDurationSeconds :=
                         ContainerInfo.containerDurationSeconds info;
                       ConversionInfo.audioStreams :=
                         ContainerInfo.audioStreams info;
                       ConversionInfo.selectedAudioStream := selectedAudioStream;
                       ConversionInfo.subtitleStreams :=
                         ContainerInfo.subtitleStreams info;
                       ConversionInfo.selectedSubtitleStream :=
                         selectedSubtitleStream |};
                conversionResult := conversionResult this |},
             answers)
      end
  end.

Definition getDisposition (dispositionsWithoutDefault : list string)
    (isDefault : bool) : string :=
  let ret := dispositionsWithoutDefault in
  let ret := if isDefault then "default" :: ret else ret in
  JS.arrayJoin "+" ret.

Definition getStreamDispositionArguments (streamSpecifier : string)
    (dispositionsWithoutDefault : list string) (isDefault : bool) : list string :=
  let disposition := getDisposition dispositionsWithoutDefault isDefault in
  if String.eqb disposition "" then []
  else [("-disposition:" ++ streamSpecifier)%string; disposition].

Definition getStreamTitle (language : option string) (codecName : string)
    (originalTitle : option string) (channelLayout : option string) : string :=
  let lang := JS.nullish language "???" in
  let ret := (lang ++ " " ++ codecName)%string in
  let ret :=
    match channelLayout with
    | Some channelLayout => (ret ++ " " ++ channelLayout)%string
    | None => ret
    end in
  let ret :=
    match originalTitle with
    | Some originalTitle => (ret ++ " [" ++ originalTitle ++ "]")%string
    | None => ret
    end in
  ret.

Definition getStreamMetadataArguments (streamSpecifier : string)
    (language : option string) (codecName : string)
    (originalTitle : option string) (channelLayout : option string)
    : list string :=
  let ret :=
    [ ("-metadata:s:" ++ streamSpecifier)%string;
      ("title=" ++ getStreamTitle language codecName originalTitle channelLayout)%string ] in
  let ret :=
    match language with
    | Some language =>
        JS.push ret
          [ ("-metadata:s:" ++ streamSpecifier)%string;
            ("language=" ++ language)%string ]
    | None => ret
    end in
  ret.

Definition getMkvOutputFilePath (this : Movie) (outputFolderPath : string)
    (selectedSubtitleStream : option SubtitleStream.t) : string :=
  let outputSubfolderPath :=
    getOutputSubfolderPath this outputFolderPath selectedSubtitleStream in
  let outputFileName := (getFullyQualifiedName this true ++ ".mkv")%string in
  join [outputSubfolderPath; outputFileName].

Definition getSrtOutputFilePath (this : Movie) (outputFolderPath : string)
    (selectedSubtitleStream : SubtitleStream.t) : string :=
  let outputSubfolderPath :=
    getOutputSubfolderPath this outputFolderPath (Some selectedSubtitleStream) in
  let outputFileName :=
    JS.arrayJoin "."
      [ getFullyQualifiedName this true;
        JS.nullish (Stream.language selectedSubtitleStream) "???";
        "srt" ] in
  join [outputSubfolderPath; outputFileName].

Definition getMkvOutputArguments (this : Movie) (outputFolderPath : string)
    (conversionInfo : ConversionInfo.t) : list string :=
  let mkvOutputArguments :=
    [ "-codec"; "copy";
      "-map_metadata"; "-1";
      "-map_chapters"; "-1";
      "-map"; "0:V";
      "-map";
      ("0:" ++ JS.numberToString
                 (Stream.index (ConversionInfo.selectedAudioStream conversionInfo)))%string ] in
  let mkvOutputArguments :=
    JS.forOf (ConversionInfo.audioStreams conversionInfo)
      (fun mkvOutputArguments (audioStream : AudioStream.t) =>
         JS.push mkvOutputArguments
           [ "-map"; ("0:" ++ JS.numberToString (Stream.index audioStream))%string ])
      mkvOutputArguments in
  let mkvOutputArguments :=
    JS.forOf (ConversionInfo.subtitleStreams conversionInfo)
      (fun mkvOutputArguments (subtitleStream : SubtitleStream.t) =>
         JS.push mkvOutputArguments
           [ "-map"; ("0:" ++ JS.numberToString (Stream.index subtitleStream))%string ])
      mkvOutputArguments in
  let mkvOutputArguments :=
    JS.push mkvOutputArguments
      ([ "-codec:a:0"; "aac";
         "-b:a:0"; "128k";
         "-ac:a:0"; "2" ]
       ++ getStreamMetadataArguments "a:0"
            (Stream.language (ConversionInfo.selectedAudioStream conversionInfo))
            "aac" None (Some "stereo")
       ++ getStreamDispositionArguments "a:0"
            (Stream.dispositionsWithoutDefault
               (ConversionInfo.selectedAudioStream conversionInfo))
            true) in
  let mkvOutputArguments :=
    JS.forEach (ConversionInfo.audioStreams conversionInfo)
      (fun mkvOutputArguments (audioStream : AudioStream.t) i =>
         JS.push mkvOutputArguments
           (getStreamMetadataArguments
              ("a:" ++ JS.numberToString (i + 1))%string
              (Stream.language audioStream)
              (Stream.codecName audioStream)
              (Stream.title audioStream)
              (Some (AudioStream.channelLayout audioStream))
            ++ getStreamDispositionArguments
                 ("a:" ++ JS.numberToString (i + 1))%string
                 (Stream.dispositionsWithoutDefault audioStream)
                 false))
      mkvOutputArguments in
  let mkvOutputArguments :=
    JS.forEach (ConversionInfo.subtitleStreams conversionInfo)
      (fun mkvOutputArguments (subtitleStream : SubtitleStream.t) i =>
         JS.push mkvOutputArguments
           (getStreamMetadataArguments
              ("s:" ++ JS.numberToString i)%string
              (Stream.language subtitleStream)
              (Stream.codecName subtitleStream)
              (Stream.title subtitleStream)
              None
            ++ getStreamDispositionArguments
                 ("s:" ++ JS.numberToString i)%string
                 (Stream.dispositionsWithoutDefault subtitleStream)
                 false))
      mkvOutputArguments in
  let mkvOutputArguments :=
    JS.push mkvOutputArguments
      [ getMkvOutputFilePath this outputFolderPath
          (ConversionInfo.selectedSubtitleStream conversionInfo) ] in
  mkvOutputArguments.

Definition getSrtOutputArguments (this : Movie) (outputFolderPath : string)
    (conversionInfo : ConversionInfo.t) : list string :=
  match ConversionInfo.selectedSubtitleStream conversionInfo with
  | None => []
  | Some selectedSubtitleStream =>
      [ "-map";
        ("0:" ++ JS.numberToString (Stream.index selectedSubtitleStream))%string;
        getSrtOutputFilePath this outputFolderPath selectedSubtitleStream ]
  end.

Definition logProgress (this : Movie) (currentFileIndex allFilesCount : Z)
    (progressPercentageRounded : string) (speed : string) : string :=
  ("[" ++ JS.numberToString currentFileIndex ++ " / "
   ++ JS.numberToString allFilesCount ++ "] "
   ++ getFullyQualifiedName this false
   ++ " [" ++ progressPercentageRounded ++ "% at " ++ speed ++ "]")%string.

Definition getRoundedProgressPercentage (normalizedProgress : float) : string :=
  toFixed (normalizedProgress * 100)%float 2.

(** The two regular expressions of the progress listener,
    [/out_time_us=(.+)\n/] and [/speed=(.+)\n/], are [regexMatch] of their
    literal parts; a match gives its first group. *)
Fixpoint stripPrefix (literal s : string) : option string :=
  match literal, s with
  | EmptyString, _ => Some s
  | String a literal', String b s' =>
      if Ascii.eqb a b then stripPrefix literal' s' else None
  | String _ _, EmptyString => None
  end.

(** The longest run that [.] matches at the start of [s], and what is left. *)
Fixpoint dotRun (s : string) : string * string :=
  match s with
  | EmptyString => (EmptyString, EmptyString)
  | String c s' =>
      if JS.isLineTerminator c then (EmptyString, s)
      else let (v, rest) := dotRun s' in (String c v, rest)
  end.

(** The match of [literal(.+)\n] at the start of [s]: [(.+)] takes the whole
    run, giving back does not help as [\n] is not in the run. *)
Definition matchAt (literal s : string) : option string :=
  match stripPrefix literal s with
  | None => None
  | Some s' =>
      match dotRun s' with
      | (String c v, String nl _) =>
          if Ascii.eqb nl "010" then Some (String c v) else None
      | _ => None
      end
  end.

(** The leftmost match. *)
Fixpoint regexMatch (literal s : string) : option string :=
  match matchAt literal s with
  | Some v => Some v
  | None =>
      match s with
      | EmptyString => None
      | String _ s' => regexMatch literal s'
      end
  end.

Definition nullMatchError : string :=
  "TypeError: Cannot read properties of null (reading '1')".

(** The listener of [ffmpeg.stdout.on("data", ...)]. *)
Definition onStdoutData (this : Movie) (currentFileIndex allFilesCount : Z)
    (containerDurationSeconds : float) (run : Running) (data : string)
    : JS.Completion Running :=
  match regexMatch "out_time_us=" data with
  | None => JS.Throw nullMatchError
  | Some outTimeMicroseconds =>
      match regexMatch "speed=" data with
      | None => JS.Throw nullMatchError
      | Some speed =>
          if (String.eqb outTimeMicroseconds "N/A" || String.eqb speed "N/A")%bool
          then JS.Normal run
          else
            let outTimeSeconds := (stringToNumber outTimeMicroseconds / 1e6)%float in
            let progress := (outTimeSeconds / containerDurationSeconds)%float in
            let newRoundedProgressPercentage :=
              getRoundedProgressPercentage progress in
            if negb (String.eqb newRoundedProgressPercentage
                       (roundedProgressPercentage run))
            then
              JS.Normal
                {| roundedProgressPercentage := newRoundedProgressPercentage;
                   stderr := stderr run;
                   console :=
                     console run
                     ++ [ logProgress this currentFileIndex allFilesCount
                            newRoundedProgressPercentage speed ] |}
            else JS.Normal run
      end
  end.

(** The listener of [ffmpeg.stderr.on("data", ...)]. *)
Definition onStderrData (run : Running) (data : string) : Running :=
  {| roundedProgressPercentage := roundedProgressPercentage run;
     stderr := (stderr run ++ data)%string;
     console := console run |}.

(** The listener of [ffmpeg.on("close", ...)]. *)
Definition onClose (this : Movie) (run : Running) (exitCode : option Z) : Movie :=
  {| title := title this;
     year := year this;
     inputFilePath := inputFilePath this;
     conversionInfo := conversionInfo this;
     conversionResult :=
       Some {| ConversionResult.successful :=
                 match exitCode with
                 | Some code => Z.eqb code 0
                 | None => false
                 end;
               ConversionResult.stderr := stderr run |} |}.

(** The listeners called on the events of the child process, one after the
    other, up to its termination. An error thrown by a listener is not
    caught. With no [Close] among the events the process still runs and the
    promise of [convert] is pending. *)
Fixpoint listen (this : Movie) (currentFileIndex allFilesCount : Z)
    (containerDurationSeconds : float) (run : Running)
    (events : list ProcessEvent) : JS.Completion (Movie * Running) :=
  match events with
  | [] => JS.Normal (this, run)
  | StdoutData data :: events' =>
      JS.bind
        (onStdoutData this currentFileIndex allFilesCount
           containerDurationSeconds run data)
        (fun run' =>
           listen this currentFileIndex allFilesCount containerDurationSeconds
             run' events')
  | StderrData data :: events' =>
      listen this currentFileIndex allFilesCount containerDurationSeconds
        (onStderrData run data) events'
  | Close exitCode :: _ => JS.Normal (onClose this run exitCode, run)
  end.

Definition convert (this : Movie) (outputFolderPath ffmpegBinaryPath : string)
    (currentFileIndex allFilesCount : Z) (events : list ProcessEvent)
    : JS.Completion (Spawned * Movie * Running) :=
  match conversionInfo this with
  | None =>
      JS.Throw "AssertError: must call collectConversionInfo() before convert()"
  | Some conversionInfo =>
      let globalArguments :=
        [ "-hide_banner"; "-loglevel"; "warning"; "-nostats";
          "-progress"; "pipe:1"; "-y" ] in
      let inputFileArguments := [ "-i"; inputFilePath this ] in
      let outputsArguments :=
        [ getMkvOutputArguments this outputFolderPath conversionInfo;
          getSrtOutputArguments this outputFolderPath conversionInfo ] in
      let ffmpegArguments :=
        globalArguments ++ inputFileArguments ++ List.concat outputsArguments in
      let madeFolder :=
        getOutputSubfolderPath this outputFolderPath
          (ConversionInfo.selectedSubtitleStream conversionInfo) in
      let containerDurationSeconds :=
        ConversionInfo.containerDurationSeconds conversionInfo in
      let ffmpeg :=
        {| madeFolder := madeFolder;
           binary := ffmpegBinaryPath;
           arguments := ffmpegArguments |} in
      let run :=
        {| roundedProgressPercentage := getRoundedProgressPercentage 0;
           stderr := "";
           console := [] |} in
      JS.bind
        (listen this currentFileIndex allFilesCount containerDurationSeconds
           run events)
        (fun '(this', run') => JS.Normal (ffmpeg, this', run'))
  end.

Definition getConversionResult (this : Movie) : JS.Completion ConversionResult.t :=
  match conversionResult this with
  | None => JS.Throw "AssertError: conversion did not finish yet"
  | Some conversionResult => JS.Normal conversionResult
  end.

End MovieClass.

Arguments getFullyQualifiedName this fileNameSafe : simpl never.

(* ================================================================== *)
(** ** Reading an argument list as ffmpeg does *)
(* ================================================================== *)

(** The properties of the planner are stated on what ffmpeg is given: the
    options of an output with their values, and among them those of each
    output stream. *)

(** The options of one output, each with its value; the output file, which
    ends the list, has no value and is left out. *)
Fixpoint optionPairs (args : list string) : list (string * string) :=
  match args with
  | option :: value :: args' => (option, value) :: optionPairs args'
  | _ => []
  end.

(** The values given to the option [name], in their order. *)
Definition optionsNamed (name : string) (options : list (string * string))
    : list string :=
  map snd (filter (fun kv => String.eqb (fst kv) name) options).

Definition optionValues (name : string) (args : list string) : list string :=
  optionsNamed name (optionPairs args).

(** The input streams mapped to the output, in the order of their output. *)
Definition mappedStreams (args : list string) : list string :=
  optionValues "-map" args.

(** The flags of a disposition value. *)
Fixpoint splitOn (sep : ascii) (s : string) : list string :=
  match s with
  | EmptyString => [EmptyString]
  | String c s' =>
      if Ascii.eqb c sep then EmptyString :: splitOn sep s'
      else
        match splitOn sep s' with
        | [] => [String c EmptyString]
        | first :: others => String c first :: others
        end
  end.

Definition dispositionFlags (disposition : string) : list string :=
  splitOn "+" disposition.

(** An argument list made of options with their values. *)
Definition unpair (options : list (string * string)) : list string :=
  flat_map (fun kv => [fst kv; snd kv]) options.

(** The options that [getStreamMetadataArguments] and
    [getStreamDispositionArguments] give to one output stream. *)
Definition metadataOptions (streamSpecifier : string) (language : option string)
    (codecName : string) (originalTitle channelLayout : option string)
    : list (string * string) :=
  (("-metadata:s:" ++ streamSpecifier)%string,
   ("title=" ++ getStreamTitle language codecName originalTitle channelLayout)%string)
  :: match language with
     | Some language =>
         [ (("-metadata:s:" ++ streamSpecifier)%string,
            ("language=" ++ language)%string) ]
     | None => []
     end.

Definition dispositionOptions (streamSpecifier : string)
    (dispositionsWithoutDefault : list string) (isDefault : bool)
    : list (string * string) :=
  if String.eqb (getDisposition dispositionsWithoutDefault isDefault) "" then []
  else [ (("-disposition:" ++ streamSpecifier)%string,
          getDisposition dispositionsWithoutDefault isDefault) ].

(** The output streams of the primary output after the video: audio stream
    0, made of the selected stream, then a copy of every cataloged audio
    stream, then of every cataloged subtitle stream. *)
Inductive OutputStream : Type :=
| FirstAudio
| CopiedAudio (i : Z) (audioStream : AudioStream.t)
| CopiedSubtitle (i : Z) (subtitleStream : SubtitleStream.t).

Definition outputStreams (conversionInfo : ConversionInfo.t) : list OutputStream :=
  FirstAudio
  :: map (fun ix => CopiedAudio (fst ix) (snd ix))
       (JS.entries (ConversionInfo.audioStreams conversionInfo))
  ++ map (fun ix => CopiedSubtitle (fst ix) (snd ix))
       (JS.entries (ConversionInfo.subtitleStreams conversionInfo)).

Definition streamSpecifier (o : OutputStream) : string :=
  match o with
  | FirstAudio => "a:0"
  | CopiedAudio i _ => ("a:" ++ JS.numberToString (i + 1))%string
  | CopiedSubtitle i _ => ("s:" ++ JS.numberToString i)%string
  end.

(** The list of flags that the disposition of an output stream is joined
    from. *)
Definition dispositionList (conversionInfo : ConversionInfo.t) (o : OutputStream)
    : list string :=
  match o with
  | FirstAudio =>
      "default"
      :: Stream.dispositionsWithoutDefault
           (ConversionInfo.selectedAudioStream conversionInfo)
  | CopiedAudio _ audioStream => Stream.dispositionsWithoutDefault audioStream
  | CopiedSubtitle _ subtitleStream =>
      Stream.dispositionsWithoutDefault subtitleStream
  end.

(** The options of the primary output that are given to one output stream. *)
Definition streamOptions (conversionInfo : ConversionInfo.t) (o : OutputStream)
    : list (string * string) :=
  match o with
  | FirstAudio =>
      [ ("-codec:a:0", "aac"); ("-b:a:0", "128k"); ("-ac:a:0", "2") ]
      ++ metadataOptions "a:0"
           (Stream.language (ConversionInfo.selectedAudioStream conversionInfo))
           "aac" None (Some "stereo")
      ++ dispositionOptions "a:0"
           (Stream.dispositionsWithoutDefault
              (ConversionInfo.selectedAudioStream conversionInfo))
           true
  | CopiedAudio i audioStream =>
      metadataOptions (streamSpecifier o)
        (Stream.language audioStream) (Stream.codecName audioStream)
        (Stream.title audioStream) (Some (AudioStream.channelLayout audioStream))
      ++ dispositionOptions (streamSpecifier o)
           (Stream.dispositionsWithoutDefault audioStream) false
  | CopiedSubtitle i subtitleStream =>
      metadataOptions (streamSpecifier o)
        (Stream.language subtitleStream) (Stream.codecName subtitleStream)
        (Stream.title subtitleStream) None
      ++ dispositionOptions (streamSpecifier o)
           (Stream.dispositionsWithoutDefault subtitleStream) false
  end.

Definition mapOption (s : Stream.t) : string * string :=
  ("-map", ("0:" ++ JS.numberToString (Stream.index s))%string).

(** The value of a [-map] option for the input stream of an index. *)
Definition mapValue (index : Z) : string := ("0:" ++ JS.numberToString index)%string.

(** All the options of the primary output, in their order. *)
Definition mkvOptions (conversionInfo : ConversionInfo.t) : list (string * string) :=
  [ ("-codec", "copy"); ("-map_metadata", "-1"); ("-map_chapters", "-1");
    ("-map", "0:V");
    mapOption (ConversionInfo.selectedAudioStream conversionInfo) ]
  ++ map (fun a : AudioStream.t => mapOption a)
       (ConversionInfo.audioStreams conversionInfo)
  ++ map mapOption (ConversionInfo.subtitleStreams conversionInfo)
  ++ flat_map (streamOptions conversionInfo) (outputStreams conversionInfo).

(** The two options that every output stream may be given, before its
    specifier. *)
Definition isStreamOption (prefix : string) : Prop :=
  prefix = "-metadata:s:" \/ prefix = "-disposition:".

Definition chars (s : string) : list ascii := list_ascii_of_string s.

Definition startsWithDigit (s : string) : bool :=
  match s with
  | String c _ => JS.isDigit c
  | EmptyString => false
  end.

(* ================================================================== *)
(** ** [join] of node:path for POSIX *)
(* ================================================================== *)

(** [path.join] as Node.js defines it for POSIX: the arguments that are not
    empty are put together with ["/"] between them, and the result is
    normalised. The class [Movie] takes [join] as a variable; the
    properties that speak of a file being in a folder are stated for this
    one. *)
Module Posix.

Definition isAbsolute (path : string) : bool :=
  match path with
  | String c _ => Ascii.eqb c "/"
  | EmptyString => false
  end.

Fixpoint endsWithSeparator (path : string) : bool :=
  match path with
  | EmptyString => false
  | String c EmptyString => Ascii.eqb c "/"
  | String _ path' => endsWithSeparator path'
  end.

(** What [normalizeString] does on one segment of the path, [res] being the
    segments kept so far, the last one first: an empty segment and ["."]
    are left out, [".."] takes the last segment away when there is one that
    is not [".."] itself, and is kept otherwise when the path is relative. *)
Definition step (allowAboveRoot : bool) (res : list string) (segment : string)
    : list string :=
  if (String.eqb segment "" || String.eqb segment ".")%bool then res
  else if String.eqb segment ".." then
    match res with
    | last :: rest =>
        if String.eqb last ".."
        then if allowAboveRoot then ".." :: res else res
        else rest
    | [] => if allowAboveRoot then [ ".." ] else []
    end
  else segment :: res.

Definition normalizeString (path : string) (allowAboveRoot : bool) : string :=
  JS.arrayJoin "/"
    (List.rev (fold_left (step allowAboveRoot) (splitOn "/" path) [])).

Definition normalize (path : string) : string :=
  if String.eqb path "" then "."
  else
    let isAbsolute := isAbsolute path in
    let trailingSeparator := endsWithSeparator path in
    let path := normalizeString path (negb isAbsolute) in
    if String.eqb path "" then
      if isAbsolute then "/" else if trailingSeparator then "./" else "."
    else
      let path := if trailingSeparator then (path ++ "/")%string else path in
      if isAbsolute then ("/" ++ path)%string else path.

Definition join (args : list string) : string :=
  match filter (fun arg => Nat.ltb 0 (String.length arg)) args with
  | [] => "."
  | joined => normalize (JS.arrayJoin "/" joined)
  end.

End Posix.

(** A name of a file or of a folder: one segment of a path that stands for
    itself. *)
Definition isName (f : string) : Prop :=
  f <> "" /\ f <> "." /\ f <> ".." /\ ~ In "/"%char (chars f).

(** The segments that [normalizeString] keeps, the last one first: names,
    above [".."] only, and those in a relative path only. *)
Fixpoint resolved (allowAboveRoot : bool) (res : list string) : Prop :=
  match res with
  | [] => True
  | segment :: rest =>
      (segment <> "" /\ segment <> "." /\ ~ In "/"%char (chars segment))
      /\ (segment = ".." -> allowAboveRoot = true /\ Forall (eq "..") rest)
      /\ resolved allowAboveRoot rest
  end.

(** What [join] keeps of its arguments: whether the path is absolute, and
    its segments, the last one first. *)
Definition kept (args : list string) : bool * list string :=
  match filter (fun arg => Nat.ltb 0 (String.length arg)) args with
  | [] => (false, [])
  | joined =>
      let path := JS.arrayJoin "/" joined in
      (Posix.isAbsolute path,
       fold_left (Posix.step (negb (Posix.isAbsolute path)))
         (splitOn "/" path) [])
  end.

(** The path of segments, the last one first. *)
Definition render (isAbsolute : bool) (res : list string) : string :=
  ((if isAbsolute then "/" else "") ++ JS.arrayJoin "/" (List.rev res))%string.

(** The folder that [join] makes of its arguments, written so that the name
    of an entry can follow. *)
Definition folderOf (args : list string) : string :=
  match kept args with
  | (isAbsolute, []) => if isAbsolute then "/" else ""
  | (isAbsolute, res) => (render isAbsolute res ++ "/")%string
  end.

(** [convert] up to the promise it returns: the assertion, the arguments,
    the folder made and the child process started. The listeners are called
    after that. *)
Definition start (join : list string -> string) (this : Movie)
    (outputFolderPath ffmpegBinaryPath : string) : JS.Completion Spawned :=
  match conversionInfo this with
  | None =>
      JS.Throw "AssertError: must call collectConversionInfo() before convert()"
  | Some conversionInfo =>
      let globalArguments :=
        [ "-hide_banner"; "-loglevel"; "warning"; "-nostats";
          "-progress"; "pipe:1"; "-y" ] in
      let inputFileArguments := [ "-i"; inputFilePath this ] in
      let outputsArguments :=
        [ getMkvOutputArguments join this outputFolderPath conversionInfo;
          getSrtOutputArguments join this outputFolderPath conversionInfo ] in
      let ffmpegArguments :=
        globalArguments ++ inputFileArguments ++ List.concat outputsArguments in
      JS.Normal
        {| madeFolder :=
             getOutputSubfolderPath join this outputFolderPath
               (ConversionInfo.selectedSubtitleStream conversionInfo);
           binary := ffmpegBinaryPath;
           arguments := ffmpegArguments |}
  end.

(* ================================================================== *)
(** ** The progress monitor as the specification words it *)
(* ================================================================== *)

(** The specification speaks of the chunks that carry their two values, of
    the percentage of a chunk and of the percentage logged before it. The
    definitions below say that in terms of the history of a run, with no
    variable that is updated; the listeners of [convert] are compared with
    them. *)

(** A chunk of the progress channel has a line of [literal]: the literal, a
    value that is not empty and has no line terminator, and a line feed. *)
Definition HasLine (literal data : string) : Prop :=
  exists before value after,
    data = (before ++ literal ++ value ++ String "010" after)%string
    /\ value <> ""
    /\ (forall c, In c (chars value) -> JS.isLineTerminator c = false).

(** What the monitor reads in a chunk. *)
Record Progress : Type := {
  out_time_us : string;
  speed : string
}.

Section MonitorModel.

Variable stringToNumber : string -> float.
Variable toFixed : float -> Z -> string.

(** The events of a child process that has not thrown off the monitor, and
    what the monitor reads in the chunks of its progress channel, up to its
    termination. *)
Inductive Reads : list ProcessEvent -> list Progress -> Prop :=
| Reads_nil : Reads [] []
| Reads_stdout (data : string) (p : Progress) events chunks :
    regexMatch "out_time_us=" data = Some (out_time_us p) ->
    regexMatch "speed=" data = Some (speed p) ->
    Reads events chunks ->
    Reads (StdoutData data :: events) (p :: chunks)
| Reads_stderr (data : string) events chunks :
    Reads events chunks ->
    Reads (StderrData data :: events) chunks
| Reads_close (exitCode : option Z) events :
    Reads (Close exitCode :: events) [].

(** A chunk with no meaningful value. *)
Definition notMeaningful (p : Progress) : bool :=
  (String.eqb (out_time_us p) "N/A" || String.eqb (speed p) "N/A")%bool.

(** The percentage of a chunk, rounded to 2 decimal places. *)
Definition percentage (containerDurationSeconds : float) (p : Progress) : string :=
  toFixed
    (((stringToNumber (out_time_us p) / 1e6) / containerDurationSeconds) * 100)%float
    2.

(** The history of a run says for every chunk so far which percentage was
    logged for it, if any. The percentage logged last is taken from it. *)
Definition previouslyLogged (history : list (option string)) : string :=
  last (flat_map (fun l => match l with Some p => [p] | None => [] end) history)
    "0.00".

(** A chunk is logged exactly when it is meaningful and its percentage is
    not the one logged last. *)
Definition loggedFor (containerDurationSeconds : float)
    (history : list (option string)) (p : Progress) : option string :=
  if notMeaningful p then None
  else if String.eqb (percentage containerDurationSeconds p)
            (previouslyLogged history)
       then None
       else Some (percentage containerDurationSeconds p).

Fixpoint decisions (containerDurationSeconds : float)
    (history : list (option string)) (chunks : list Progress)
    : list (option string) :=
  match chunks with
  | [] => []
  | p :: chunks' =>
      let d := loggedFor containerDurationSeconds history p in
      d :: decisions containerDurationSeconds (history ++ [d]) chunks'
  end.

(** The lines of the console for the chunks and what was decided for each. *)
Fixpoint logLines (this : Movie) (currentFileIndex allFilesCount : Z)
    (chunks : list Progress) (logged : list (option string)) : list string :=
  match chunks, logged with
  | p :: chunks', Some rounded :: logged' =>
      logProgress this currentFileIndex allFilesCount rounded (speed p)
      :: logLines this currentFileIndex allFilesCount chunks' logged'
  | _ :: chunks', None :: logged' =>
      logLines this currentFileIndex allFilesCount chunks' logged'
  | _, _ => []
  end.

End MonitorModel.

(** Some of the elements of a list, in their order. *)
Inductive Subsequence {A : Type} : list A -> list A -> Prop :=
| Subsequence_nil : Subsequence [] []
| Subsequence_skip (x : A) (some all : list A) :
    Subsequence some all -> Subsequence some (x :: all)
| Subsequence_keep (x : A) (some all : list A) :
    Subsequence some all -> Subsequence (x :: some) (x :: all).

(** A list of percentages of which each differs from the one before it, the
    first from [before]. *)
Inductive Changing : string -> list string -> Prop :=
| Changing_nil (before : string) : Changing before []
| Changing_cons (before rounded : string) (later : list string) :
    rounded <> before ->
    Changing rounded later ->
    Changing before (rounded :: later).

(* ================================================================== *)
(** ** What is outside the program *)
(* ================================================================== *)

(** What [JSON.parse] gives for a configuration file: a path that is not a
    string, or is missing, is [None], and so is a [movies] that is not an
    array. The entries of [movies] are taken at their declared type. *)
Module RawConfig.
Record t : Type := {
  ffmpegBinaryPath : option string;
  ffprobeBinaryPath : option string;
  outputFolderPath : option string;
  movies : option (list IMovie.t)
}.
End RawConfig.

(** The class [Config] of config.ts. *)
Module Config.
Record t : Type := {
  ffmpegBinaryPath : string;
  ffprobeBinaryPath : string;
  outputFolderPath : string;
  movies : list IMovie.t
}.
End Config.

(** All that the program takes from Node.js, from the file system, from the
    two binaries and from the operator. [ffprobe] gives the output of the
    prober for its binary and an input file, as [JSON.parse] returns it or
    throws on it; [spawn] gives what the child process started with a binary
    and its arguments does; [answers] are the lines the operator types, one
    for every question. [currentYear] is the constant of currentYear.ts. *)
Module World.
Record t : Type := {
  join : list string -> string;
  stringToNumber : string -> float;
  toFixed : float -> Z -> string;
  currentYear : float;
  existsSync : string -> bool;
  readFileSync : string -> JS.Completion string;
  jsonParse : string -> JS.Completion RawConfig.t;
  jsonStringify : Config.t -> string;
  ffprobe : string -> string -> JS.Completion Ffprobe.FfProbeOutput;
  spawn : string -> list string -> list ProcessEvent;
  answers : list string
}.
End World.

Definition newline : string := String "010" EmptyString.

(* ================================================================== *)
(** ** movie.ts: the validity of a movie *)
(* ================================================================== *)

(** The tests of [typeof] in the three methods hold by the types of the
    properties. *)
Definition hasValidInputFilePath (w : World.t) (this : Movie) : bool :=
  World.existsSync w (inputFilePath this).

Definition hasValidTitle (this : Movie) : bool :=
  Nat.ltb 0 (String.length (title this)).

Definition hasValidYear (w : World.t) (this : Movie) : bool :=
  ((1888 <=? year this)%float && (year this <=? World.currentYear w)%float)%bool.

(** The record of a stream of the prober, and its [codec_type]. *)
Definition probedStream (s : Ffprobe.FfprobeAnyStream) : Ffprobe.FfprobeStream :=
  match s with
  | Ffprobe.FfprobeAudioStream s _ => s
  | Ffprobe.FfprobeSubtitleStream s => s
  | Ffprobe.FfprobeOtherStream s => s
  end.

Definition isAudio (s : Ffprobe.FfprobeAnyStream) : bool :=
  match s with
  | Ffprobe.FfprobeAudioStream _ _ => true
  | _ => false
  end.

Definition isSubtitle (s : Ffprobe.FfprobeAnyStream) : bool :=
  match s with
  | Ffprobe.FfprobeSubtitleStream _ => true
  | _ => false
  end.

Definition probedIndex (s : Ffprobe.FfprobeAnyStream) : Z :=
  Ffprobe.index (probedStream s).

(** The subtitle streams that [selectSubtitleStream] shows in its table. *)
Definition shownSubtitleStreams (subtitleStreams : list SubtitleStream.t)
    : list SubtitleStream.t :=
  filter (fun s => String.eqb (Stream.codecName s) "subrip") subtitleStreams.

(** The arguments that [convert] starts ffmpeg with, and the child process as
    it starts it. *)
Definition ffmpegArguments (w : World.t) (this : Movie)
    (outputFolderPath : string) (conversionInfo : ConversionInfo.t)
    : list string :=
  [ "-hide_banner"; "-loglevel"; "warning"; "-nostats";
    "-progress"; "pipe:1"; "-y" ]
  ++ [ "-i"; inputFilePath this ]
  ++ getMkvOutputArguments (World.join w) this outputFolderPath conversionInfo
  ++ getSrtOutputArguments (World.join w) this outputFolderPath conversionInfo.

(** The child process has terminated among these events. *)
Definition closes (events : list ProcessEvent) : bool :=
  existsb (fun e => match e with Close _ => true | _ => false end) events.

(** What the child process wrote on its diagnostic channel, and its exit
    code, up to its termination. *)
Fixpoint diagnostics (events : list ProcessEvent) : string :=
  match events with
  | [] => EmptyString
  | StderrData data :: events' => (data ++ diagnostics events')%string
  | StdoutData _ :: events' => diagnostics events'
  | Close _ :: _ => EmptyString
  end.

Fixpoint exitCodeOf (events : list ProcessEvent) : option Z :=
  match events with
  | [] => None
  | Close exitCode :: _ => exitCode
  | _ :: events' => exitCodeOf events'
  end.

(** For a movie with its plan: what the child process of its conversion
    does, the child process as [convert] starts it, whether it ends well, and
    the movie once it has terminated. *)
Definition processOf (w : World.t) (outputFolderPath ffmpegBinaryPath : string)
    (movie : Movie) : list ProcessEvent :=
  match conversionInfo movie with
  | Some conversionInfo =>
      World.spawn w ffmpegBinaryPath
        (ffmpegArguments w movie outputFolderPath conversionInfo)
  | None => []
  end.

Definition spawnedFor (w : World.t) (outputFolderPath ffmpegBinaryPath : string)
    (movie : Movie) : Spawned :=
  {| madeFolder :=
       getOutputSubfolderPath (World.join w) movie outputFolderPath
         match conversionInfo movie with
         | Some conversionInfo =>
             ConversionInfo.selectedSubtitleStream conversionInfo
         | None => None
         end;
     binary := ffmpegBinaryPath;
     arguments :=
       match conversionInfo movie with
       | Some conversionInfo =>
           ffmpegArguments w movie outputFolderPath conversionInfo
       | None => []
       end |}.

Definition succeeds (events : list ProcessEvent) : bool :=
  match exitCodeOf events with
  | Some code => Z.eqb code 0
  | None => false
  end.

Definition resultOf (w : World.t) (outputFolderPath ffmpegBinaryPath : string)
    (movie : Movie) : ConversionResult.t :=
  {| ConversionResult.successful :=
       succeeds (processOf w outputFolderPath ffmpegBinaryPath movie);
     ConversionResult.stderr :=
       diagnostics (processOf w outputFolderPath ffmpegBinaryPath movie) |}.

Definition finished (w : World.t) (outputFolderPath ffmpegBinaryPath : string)
    (movie : Movie) : Movie :=
  {| title := title movie;
     year := year movie;
     inputFilePath := inputFilePath movie;
     conversionInfo := conversionInfo movie;
     conversionResult :=
       Some (resultOf w outputFolderPath ffmpegBinaryPath movie) |}.

(** The movies whose conversion is started: each one after the child
    process of the one before it has terminated. *)
Fixpoint started (w : World.t) (outputFolderPath ffmpegBinaryPath : string)
    (movies : list Movie) : list Movie :=
  match movies with
  | [] => []
  | movie :: movies' =>
      movie
      :: (if closes (processOf w outputFolderPath ffmpegBinaryPath movie)
          then started w outputFolderPath ffmpegBinaryPath movies'
          else [])
  end.

(** The movie of the batch planned from the probe of its own input file. *)
Definition PlannedFrom (w : World.t) (ffprobeBinaryPath : string) (movie movie' : Movie)
    : Prop :=
  title movie' = title movie
  /\ year movie' = year movie
  /\ inputFilePath movie' = inputFilePath movie
  /\ conversionResult movie' = conversionResult movie
  /\ exists ffprobeOutput plan,
       World.ffprobe w ffprobeBinaryPath (inputFilePath movie)
       = JS.Normal ffprobeOutput
       /\ conversionInfo movie' = Some plan
       /\ ConversionInfo.audioStreams plan
          = ContainerInfo.audioStreams (getInputFileMediaInfo ffprobeOutput)
       /\ ConversionInfo.subtitleStreams plan
          = ContainerInfo.subtitleStreams (getInputFileMediaInfo ffprobeOutput)
       /\ In (ConversionInfo.selectedAudioStream plan)
            (ConversionInfo.audioStreams plan)
       /\ (forall s, ConversionInfo.selectedSubtitleStream plan = Some s ->
             In s (ConversionInfo.subtitleStreams plan)).

(** The movie has its plan and its child process writes chunks that can be
    read. *)
Definition Convertible (w : World.t) (outputFolderPath ffmpegBinaryPath : string)
    (movie : Movie) : Prop :=
  (exists plan, conversionInfo movie = Some plan)
  /\ exists chunks,
       Reads (processOf w outputFolderPath ffmpegBinaryPath movie) chunks.

(* ================================================================== *)
(** ** exampleConfig.ts and config.ts *)
(* ================================================================== *)

Definition EXAMPLE_CONFIG : Config.t :=
  {| Config.ffmpegBinaryPath := "/usr/local/bin/ffmpeg";
     Config.ffprobeBinaryPath := "/usr/local/bin/ffprobe";
     Config.outputFolderPath := "./converted";
     Config.movies :=
       [ {| IMovie.title := "The Matrix";
            IMovie.year := 1999%float;
            IMovie.inputFilePath :=
              "./downloaded/The Matrix (1999)/The Matrix (1999).mkv" |} ] |}.

(** [typeof path !== "string" || !existsSync(path)] is [None] here. *)
Definition existingPath (w : World.t) (path : option string) : option string :=
  match path with
  | Some path => if World.existsSync w path then Some path else None
  | None => None
  end.

(** [Config.parse] *)
Definition parse (w : World.t) (configString : string) : JS.Completion Config.t :=
  JS.bind (World.jsonParse w configString) (fun config =>
    match existingPath w (RawConfig.ffmpegBinaryPath config) with
    | None => JS.Throw "config.ffmpegBinaryPath does not exist"
    | Some ffmpegBinaryPath =>
    match existingPath w (RawConfig.ffprobeBinaryPath config) with
    | None => JS.Throw "config.ffprobeBinaryPath does not exist"
    | Some ffprobeBinaryPath =>
    match existingPath w (RawConfig.outputFolderPath config) with
    | None => JS.Throw "config.outputFolderPath does not exist"
    | Some outputFolderPath =>
    match RawConfig.movies config with
    | None => JS.Throw "config.movies is not an array"
    | Some configMovies =>
        let movies := map fromIMovie configMovies in
        let moviesWithInvalidInputFilePaths :=
          filter (fun movie => negb (hasValidInputFilePath w movie)) movies in
        if Nat.ltb 0 (List.length moviesWithInvalidInputFilePaths) then
          JS.Throw
            ("The following input files do not exist:" ++ newline
             ++ JS.arrayJoin newline
                  (map inputFilePath moviesWithInvalidInputFilePaths))%string
        else
        let moviesWithInvalidTitles :=
          filter (fun movie => negb (hasValidTitle movie)) movies in
        if Nat.ltb 0 (List.length moviesWithInvalidTitles) then
          JS.Throw
            ("The following movie titles are invalid:" ++ newline
             ++ JS.arrayJoin newline (map title moviesWithInvalidTitles))%string
        else
        let moviesWithInvalidYears :=
          filter (fun movie => negb (hasValidYear w movie)) movies in
        if Nat.ltb 0 (List.length moviesWithInvalidYears) then
          JS.Throw
            ("The following movies' years are invalid:" ++ newline
             ++ JS.arrayJoin newline (map title moviesWithInvalidYears))%string
        else
          JS.Normal
            {| Config.ffmpegBinaryPath := ffmpegBinaryPath;
               Config.ffprobeBinaryPath := ffprobeBinaryPath;
               Config.outputFolderPath := outputFolderPath;
               Config.movies := configMovies |}
    end end end end).

(** [Config.parseFromFile] *)
Definition parseFromFile (w : World.t) (configFilePath : string)
    : JS.Completion Config.t :=
  JS.bind (World.readFileSync w configFilePath) (fun configFileContents =>
    parse w configFileContents).

(* ================================================================== *)
(** ** tvconvert.ts *)
(* ================================================================== *)

(** How a run of the program ends. It exits with a code, having printed
    lines with [console.log] ([printed] has those of [main] itself and of
    the progress monitor, in their order, and not the notices, tables and
    questions of [collectConversionInfo]), having printed lines with
    [console.error], written files and started child processes; or an
    error was thrown that nothing catches; or it waits without end, for the
    operator or for a child process. *)
Inductive Session : Type :=
| Exited (code : Z) (printed errors : list string)
    (written : list (string * string)) (spawned : list Spawned)
| Crashed (message : string)
| Waiting (spawned : list Spawned).

Definition printHelp : list string :=
  [ "Read config from {configfile}.json:";
    "  tvconvert.sh -c {configfile}.json";
    "  tvconvert.sh --config {configfile}.json";
    "Print config skeleton into {configfile}.json:";
    "  tvconvert.sh -p {configfile}.json";
    "  tvconvert.sh --print-config {configfile}.json" ].

(** The first loop of [main]: [collectConversionInfo] on every movie, the
    answers of the operator being read one after the other. *)
Inductive Planning : Type :=
| Planned (movies : list Movie) (answers : list string)
| PlanningThrew (message : string)
| PlanningWaits.

Fixpoint collectAll (w : World.t) (ffprobeBinaryPath : string)
    (movies : list Movie) (answers : list string) : Planning :=
  match movies with
  | [] => Planned [] answers
  | movie :: movies' =>
      match World.ffprobe w ffprobeBinaryPath (inputFilePath movie) with
      | JS.Throw message => PlanningThrew message
      | JS.Normal ffprobeOutput =>
          match collectConversionInfo movie ffprobeOutput answers with
          | None => PlanningWaits
          | Some (movie, answers) =>
              match collectAll w ffprobeBinaryPath movies' answers with
              | Planned movies answers => Planned (movie :: movies) answers
              | other => other
              end
          end
      end
  end.

(** The second loop of [main]: [convert] on every movie, each awaited before
    the next; with what the monitor printed and the child processes
    started. *)
Inductive Encoding : Type :=
| Encoded (movies : list Movie) (printed : list string) (spawned : list Spawned)
| EncodingThrew (message : string)
| EncodingWaits (spawned : list Spawned).

Fixpoint convertAll (w : World.t) (outputFolderPath ffmpegBinaryPath : string)
    (allFilesCount currentFileIndex : Z) (movies : list Movie) : Encoding :=
  match movies with
  | [] => Encoded [] [] []
  | movie :: movies' =>
      let currentFileIndex := (currentFileIndex + 1)%Z in
      let events := processOf w outputFolderPath ffmpegBinaryPath movie in
      match convert (World.join w) (World.stringToNumber w) (World.toFixed w)
              movie outputFolderPath ffmpegBinaryPath currentFileIndex
              allFilesCount events with
      | JS.Throw message => EncodingThrew message
      | JS.Normal (ffmpeg, movie, run) =>
          if closes events then
            match convertAll w outputFolderPath ffmpegBinaryPath allFilesCount
                    currentFileIndex movies' with
            | Encoded movies printed spawned =>
                Encoded (movie :: movies) (console run ++ printed)
                  (ffmpeg :: spawned)
            | EncodingThrew message => EncodingThrew message
            | EncodingWaits spawned => EncodingWaits (ffmpeg :: spawned)
            end
          else EncodingWaits [ ffmpeg ]
      end
  end.

(** [movie.getConversionResult()] on every movie. *)
Fixpoint conversionResults (movies : list Movie)
    : JS.Completion (list (Movie * ConversionResult.t)) :=
  match movies with
  | [] => JS.Normal []
  | movie :: movies' =>
      JS.bind (getConversionResult movie) (fun result =>
        JS.bind (conversionResults movies') (fun results =>
          JS.Normal ((movie, result) :: results)))
  end.

(** The end of [main], after the last conversion. *)
Definition report (movies : list Movie) (printed : list string)
    (spawned : list Spawned) : Session :=
  match conversionResults movies with
  | JS.Throw message => Crashed message
  | JS.Normal results =>
      let moviesWithConversionError :=
        filter (fun mr => negb (ConversionResult.successful (snd mr))) results in
      if Nat.ltb 0 (List.length moviesWithConversionError) then
        Exited 1
          (printed
           ++ map (fun mr =>
                     (newline ++ getFullyQualifiedName (fst mr) false ++ newline
                      ++ ConversionResult.stderr (snd mr))%string)
                moviesWithConversionError
           ++ [ (newline ++ "FINISHED WITH "
                 ++ JS.numberToString
                      (Z.of_nat (List.length moviesWithConversionError))
                 ++ " ERRORS")%string ])
          [] [] spawned
      else Exited 0 (printed ++ [ (newline ++ "SUCCESS")%string ]) [] [] spawned
  end.

Definition main (w : World.t) (argv : list string) : Session :=
  let args := skipn 2 argv in
  match args with
  | [ mode; configFilePath ] =>
      if negb (existsb (fun m => String.eqb m mode)
                 [ "-c"; "--config"; "-p"; "--print-config" ])
      then Exited 1 printHelp [] [] []
      else if existsb (fun m => String.eqb m mode) [ "-p"; "--print-config" ]
      then
        Exited 0 [] []
          [ (configFilePath,
             (World.jsonStringify w EXAMPLE_CONFIG ++ newline)%string) ]
          []
      else
        match parseFromFile w configFilePath with
        | JS.Throw message => Exited 1 [] [ message ] [] []
        | JS.Normal config =>
            let movies := map fromIMovie (Config.movies config) in
            match collectAll w (Config.ffprobeBinaryPath config) movies
                    (World.answers w) with
            | PlanningThrew message => Crashed message
            | PlanningWaits => Waiting []
            | Planned movies _ =>
                match convertAll w (Config.outputFolderPath config)
                        (Config.ffmpegBinaryPath config)
                        (Z.of_nat (List.length movies)) 0 movies with
                | EncodingThrew message => Crashed message
                | EncodingWaits spawned => Waiting spawned
                | Encoded movies printed spawned =>
                    report movies printed spawned
                end
            end
        end
  | _ => Exited 1 printHelp [] [] []
  end.

(* ================================================================== *)
(** ** A sample environment, to run the class on examples *)
(* ================================================================== *)

Module Sample.

(** [join] of node:path on POSIX. *)
Definition join (segments : list string) : string := Posix.join segments.

(** A stand-in for the conversion of a string to a number: right on the
    strings of decimal digits that denote an integer below 2^53, which is
    what ffmpeg writes for [out_time_us]; [NaN] on every other string. *)
Definition stringToNumber (s : string) : float :=
  match NilZero.uint_of_string s with
  | Some d => PrimFloat.of_uint63 (Uint63.of_Z (Z.of_uint d))
  | None => PrimFloat.nan
  end.

Definition padStart (width : nat) (s : string) : string :=
  (string_of_list_ascii (repeat "0"%char (width - String.length s)) ++ s)%string.

(** A stand-in for [x.toFixed(digits)], right on the finite [x] below 1e21
    in absolute value: the integer nearest to [x * 10^digits], the larger of
    two that are as near, with a point before its last [digits] digits. *)
Definition toFixed (x : float) (digits : Z) : string :=
  match Prim2SF x with
  | S754_nan => "NaN"
  | S754_infinity false => "Infinity"
  | S754_infinity true => "-Infinity"
  | S754_zero _ => ("0." ++ padStart (Z.to_nat digits) "")%string
  | S754_finite negative m e =>
      let numerator := (Z.pos m * 10 ^ digits)%Z in
      let n :=
        if (0 <=? e)%Z then (numerator * 2 ^ e)%Z
        else ((2 * numerator + 2 ^ (- e)) / (2 * 2 ^ (- e)))%Z in
      let all := padStart (S (Z.to_nat digits)) (JS.numberToString n) in
      let k := (String.length all - Z.to_nat digits)%nat in
      ((if negative then "-" else "")
       ++ substring 0 k all ++ "." ++ substring k (Z.to_nat digits) all)%string
  end.

Definition LF : string := String "010" EmptyString.

Definition chunk (out_time_us speed : string) : string :=
  ("frame=1" ++ LF ++ "out_time_us=" ++ out_time_us ++ LF
   ++ "speed=" ++ speed ++ LF ++ "progress=continue" ++ LF)%string.

Definition theMatrix : Movie :=
  fromIMovie
    {| IMovie.title := "The Matrix";
       IMovie.year := 1999%float;
       IMovie.inputFilePath := "./downloaded/The Matrix (1999)/The Matrix (1999).mkv" |}.

Definition probed : Ffprobe.FfProbeOutput :=
  {| Ffprobe.format := {| Ffprobe.duration := 100%float |};
     Ffprobe.streams :=
       [ Ffprobe.FfprobeOtherStream
           {| Ffprobe.index := 0; Ffprobe.codec_name := "h264";
              Ffprobe.disposition := [("default", 1%Z); ("forced", 0%Z)];
              Ffprobe.tags := None |};
         Ffprobe.FfprobeAudioStream
           {| Ffprobe.index := 1; Ffprobe.codec_name := "aac";
              Ffprobe.disposition := [("default", 1%Z); ("forced", 0%Z)];
              Ffprobe.tags := Some [("language", "eng")] |}
           "5.1";
         Ffprobe.FfprobeSubtitleStream
           {| Ffprobe.index := 2; Ffprobe.codec_name := "subrip";
              Ffprobe.disposition := [("default", 0%Z); ("forced", 1%Z)];
              Ffprobe.tags := Some [("language", "eng")] |} ] |}.

(** The catalog of [probed], and the plan with both of its streams
    selected. *)
Definition english : AudioStream.t :=
  {| AudioStream.stream :=
       {| Stream.index := 1; Stream.codecName := "aac";
          Stream.language := Some "eng"; Stream.title := None;
          Stream.dispositionsWithoutDefault := [] |};
     AudioStream.channelLayout := "5.1" |}.

Definition englishSubtitle : SubtitleStream.t :=
  {| Stream.index := 2; Stream.codecName := "subrip";
     Stream.language := Some "eng"; Stream.title := None;
     Stream.dispositionsWithoutDefault := [ "forced" ] |}.

Definition plan : ConversionInfo.t :=
  {| ConversionInfo.containerDurationSeconds := 100%float;
     ConversionInfo.audioStreams := [ english ];
     ConversionInfo.selectedAudioStream := english;
     ConversionInfo.subtitleStreams := [ englishSubtitle ];
     ConversionInfo.selectedSubtitleStream := Some englishSubtitle |}.

Definition planned : Movie :=
  {| title := "The Matrix";
     year := 1999%float;
     inputFilePath := "./downloaded/The Matrix (1999)/The Matrix (1999).mkv";
     conversionInfo := Some plan;
     conversionResult := None |}.

(** A child process: two chunks that round to one percentage, with a
    warning between them, a chunk with no value yet before them, a later
    chunk after them, and a clean exit. *)
Definition events : list ProcessEvent :=
  [ StdoutData (chunk "N/A" "N/A");
    StdoutData (chunk "5000000" "1.5x");
    StderrData "warning";
    StdoutData (chunk "5000001" "1.5x");
    StdoutData (chunk "50000000" "2x");
    Close (Some 0%Z) ].

Definition chunks : list Progress :=
  [ {| out_time_us := "N/A"; speed := "N/A" |};
    {| out_time_us := "5000000"; speed := "1.5x" |};
    {| out_time_us := "5000001"; speed := "1.5x" |};
    {| out_time_us := "50000000"; speed := "2x" |} ].





(** The entry of the sample movie in a configuration, a configuration with
    it alone, and a world in which every path exists, the prober reports the
    sample catalog, the child process is the sample one and the operator
    selects both streams. *)
Definition theMatrixEntry : IMovie.t :=
  {| IMovie.title := "The Matrix";
     IMovie.year := 1999%float;
     IMovie.inputFilePath := "./downloaded/The Matrix (1999)/The Matrix (1999).mkv" |}.

Definition rawConfig : RawConfig.t :=
  {| RawConfig.ffmpegBinaryPath := Some "/usr/local/bin/ffmpeg";
     RawConfig.ffprobeBinaryPath := Some "/usr/local/bin/ffprobe";
     RawConfig.outputFolderPath := Some "out";
     RawConfig.movies := Some [ theMatrixEntry ] |}.

Definition config : Config.t :=
  {| Config.ffmpegBinaryPath := "/usr/local/bin/ffmpeg";
     Config.ffprobeBinaryPath := "/usr/local/bin/ffprobe";
     Config.outputFolderPath := "out";
     Config.movies := [ theMatrixEntry ] |}.

Definition world : World.t :=
  {| World.join := join;
     World.stringToNumber := stringToNumber;
     World.toFixed := toFixed;
     World.currentYear := 2026%float;
     World.existsSync := fun _ => true;
     World.readFileSync := fun _ => JS.Normal "{}";
     World.jsonParse := fun _ => JS.Normal rawConfig;
     World.jsonStringify := fun _ => "{}";
     World.ffprobe := fun _ _ => JS.Normal probed;
     World.spawn := fun _ _ => events;
     World.answers := [ "1"; "2" ] |}.

(** The same world with no file at all. *)
Definition emptyWorld : World.t :=
  {| World.join := join;
     World.stringToNumber := stringToNumber;
     World.toFixed := toFixed;
     World.currentYear := 2026%float;
     World.existsSync := fun _ => false;
     World.readFileSync := fun _ => JS.Normal "{}";
     World.jsonParse := fun _ => JS.Normal rawConfig;
     World.jsonStringify := fun _ => "{}";
     World.ffprobe := fun _ _ => JS.Normal probed;
     World.spawn := fun _ _ => events;
     World.answers := [ "1"; "2" ] |}.

(** The same world with a child process that writes nothing and does not
    terminate. *)
Definition stalledWorld : World.t :=
  {| World.join := join;
     World.stringToNumber := stringToNumber;
     World.toFixed := toFixed;
     World.currentYear := 2026%float;
     World.existsSync := fun _ => true;
     World.readFileSync := fun _ => JS.Normal "{}";
     World.jsonParse := fun _ => JS.Normal rawConfig;
     World.jsonStringify := fun _ => "{}";
     World.ffprobe := fun _ _ => JS.Normal probed;
     World.spawn := fun _ _ => [];
     World.answers := [ "1"; "2" ] |}.

End Sample.

Example sample_toFixed :
  Sample.toFixed 12.5 2 = "12.50" /\ Sample.toFixed 0 2 = "0.00"
  /\ Sample.toFixed 0.125 2 = "0.13" /\ Sample.toFixed (-1.5) 2 = "-1.50"
  /\ Sample.toFixed 100 2 = "100.00" /\ Sample.toFixed 0.00390625 2 = "0.00".
Proof. vm_compute. repeat split. Qed.

Example sample_plan :
  option_map
    (fun r => option_map
       (getMkvOutputArguments Sample.join (fst r) "out") (conversionInfo (fst r)))
    (collectConversionInfo Sample.theMatrix Sample.probed ["x"; "1"; "7"; "2"])
  = Some (Some
      [ "-codec"; "copy"; "-map_metadata"; "-1"; "-map_chapters"; "-1";
        "-map"; "0:V"; "-map"; "0:1"; "-map"; "0:1"; "-map"; "0:2";
        "-codec:a:0"; "aac"; "-b:a:0"; "128k"; "-ac:a:0"; "2";
        "-metadata:s:a:0"; "title=eng aac stereo";
        "-metadata:s:a:0"; "language=eng";
        "-disposition:a:0"; "default";
        "-metadata:s:a:1"; "title=eng aac 5.1";
        "-metadata:s:a:1"; "language=eng";
        "-metadata:s:s:0"; "title=eng subrip";
        "-metadata:s:s:0"; "language=eng";
        "-disposition:s:0"; "forced";
        "out/ready/The Matrix (1999)/The Matrix (1999).mkv" ]).
Proof. vm_compute. reflexivity. Qed.

(* ================================================================== *)
(** ** Facts on the built-ins *)
(* ================================================================== *)

Section NumberFacts.

Lemma digit_not_space_nor_sign (c : ascii) :
  JS.isDigit c = true ->
  JS.isWhiteSpace c = false /\ c <> "-"%char /\ c <> "+"%char.
Proof.
  destruct c as [[] [] [] [] [] [] [] []]; cbv; intros H;
    solve [ discriminate H | repeat split; discriminate ].
Qed.

Lemma uint_chars_are_digits (d : uint) (c : ascii) :
  In c (chars (NilEmpty.string_of_uint d)) -> JS.isDigit c = true.
Proof.
  induction d; simpl; intros H; try contradiction;
    (destruct H as [<- | H]; [ reflexivity | exact (IHd H) ]).
Qed.

Lemma digitPrefix_app (s t : string) :
  (forall c, In c (chars s) -> JS.isDigit c = true) ->
  startsWithDigit t = false ->
  JS.digitPrefix (s ++ t) = s.
Proof.
  induction s as [| a s IH]; simpl; intros Hs Ht.
  - destruct t as [| b t]; simpl in *; [ reflexivity | now rewrite Ht ].
  - rewrite (Hs a (or_introl eq_refl)).
    f_equal. apply IH; auto.
Qed.

Lemma uint_first_digit (d : uint) :
  d <> Nil ->
  exists c s, NilEmpty.string_of_uint d = String c s /\ JS.isDigit c = true.
Proof.
  intros Hnil.
  pose proof (uint_chars_are_digits d) as Hd.
  destruct d; try congruence;
    simpl in *; eexists; eexists; split; try reflexivity;
    apply Hd; left; reflexivity.
Qed.

Lemma numberToString_cases (n : Z) :
  JS.numberToString n =
  match n with
  | Z0 => "0"
  | Zpos p => NilEmpty.string_of_uint (Pos.to_uint p)
  | Zneg p => String "-" (NilEmpty.string_of_uint (Pos.to_uint p))
  end.
Proof.
  destruct n as [| p | p]; unfold JS.numberToString;
    cbn [Z.to_int NilZero.string_of_int]; try reflexivity;
    pose proof (DecimalPos.Unsigned.to_uint_nonnil p) as Hnil;
    unfold NilZero.string_of_uint;
    destruct (Pos.to_uint p); reflexivity || congruence.
Qed.

Lemma parse_digits (d : uint) (t : string) :
  d <> Nil ->
  startsWithDigit t = false ->
  NilZero.uint_of_string (JS.digitPrefix (NilEmpty.string_of_uint d ++ t))
  = Some d.
Proof.
  intros Hnil Ht.
  rewrite digitPrefix_app;
    [ | intros c; apply uint_chars_are_digits | exact Ht ].
  destruct (uint_first_digit d Hnil) as (c & s & E & _).
  unfold NilZero.uint_of_string. rewrite E, <- E. apply NilEmpty.usu.
Qed.

Lemma parseInt_unsigned (d : uint) (t : string) :
  d <> Nil ->
  startsWithDigit t = false ->
  JS.parseInt (NilEmpty.string_of_uint d ++ t) = Some (Z.of_uint d).
Proof.
  intros Hnil Ht.
  destruct (uint_first_digit d Hnil) as (c & s & E & Hc).
  destruct (digit_not_space_nor_sign c Hc) as (Hw & Hm & Hp).
  pose proof (parse_digits d t Hnil Ht) as Hparse.
  unfold JS.parseInt. rewrite E in *. simpl JS.trimStart.
  rewrite Hw.
  change (String c s ++ t)%string with (String c (s ++ t)) in Hparse.
  clear E Hc Hw.
  destruct c as [[] [] [] [] [] [] [] []]; try congruence;
    cbv beta iota; rewrite Hparse; f_equal; lia.
Qed.

Lemma of_uint_to_uint (p : positive) : Z.of_uint (Pos.to_uint p) = Zpos p.
Proof.
  unfold Z.of_uint. now rewrite DecimalPos.Unsigned.of_to.
Qed.

(** [parseInt] reads back the digits that [numberToString] wrote, whatever
    follows them, as long as no digit follows them at once. *)
Lemma parseInt_numberToString (n : Z) (t : string) :
  startsWithDigit t = false ->
  JS.parseInt (JS.numberToString n ++ t) = Some n.
Proof.
  intros Ht. rewrite numberToString_cases. destruct n as [| p | p].
  - apply (parseInt_unsigned (D0 Nil) t); [ discriminate | exact Ht ].
  - rewrite parseInt_unsigned, of_uint_to_uint;
      auto using DecimalPos.Unsigned.to_uint_nonnil.
  - pose proof (parse_digits (Pos.to_uint p) t
                  (DecimalPos.Unsigned.to_uint_nonnil p) Ht) as Hparse.
    unfold JS.parseInt. simpl. rewrite Hparse, of_uint_to_uint. f_equal.
Qed.

Lemma numberToString_inj (n m : Z) :
  JS.numberToString n = JS.numberToString m -> n = m.
Proof.
  intros E.
  pose proof (parseInt_numberToString n "" eq_refl) as Hn.
  pose proof (parseInt_numberToString m "" eq_refl) as Hm.
  rewrite E in Hn. congruence.
Qed.

Lemma numberToString_nonempty (n : Z) : JS.numberToString n <> "".
Proof.
  intros E. pose proof (parseInt_numberToString n "" eq_refl) as H.
  rewrite E in H. discriminate H.
Qed.

Lemma numberToString_zero (n : Z) : JS.numberToString n = "0" -> n = 0%Z.
Proof. intros H. now apply numberToString_inj. Qed.

Lemma numberToString_chars (n : Z) (c : ascii) :
  In c (chars (JS.numberToString n)) -> JS.isDigit c = true \/ c = "-"%char.
Proof.
  rewrite numberToString_cases. destruct n as [| p | p]; simpl.
  - intros [<- | []]. now left.
  - intros H. left. eapply uint_chars_are_digits; eauto.
  - intros [<- | H]; [ now right | left; eapply uint_chars_are_digits; eauto ].
Qed.

End NumberFacts.

Section StringFacts.

Lemma chars_app (s t : string) : chars (s ++ t) = chars s ++ chars t.
Proof.
  induction s as [| c s IH]; simpl; [ reflexivity | now rewrite <- IH ].
Qed.

Lemma append_assoc (s t u : string) : ((s ++ t) ++ u = s ++ t ++ u)%string.
Proof.
  induction s as [| c s IH]; simpl; [ reflexivity | now rewrite IH ].
Qed.

Lemma chars_removeUnsafe (s : string) :
  chars (removeUnsafe s) = filter isFileNameSafe (chars s).
Proof.
  induction s as [| c s IH]; simpl; [ reflexivity | ].
  destruct (isFileNameSafe c); simpl; now rewrite IH.
Qed.

Lemma digit_isFileNameSafe (c : ascii) :
  JS.isDigit c = true -> isFileNameSafe c = true.
Proof.
  unfold JS.isDigit, isFileNameSafe. intros ->.
  now rewrite !orb_true_r.
Qed.

Lemma get_In_keys {V} (o : JS.Dict V) (k : string) (v : V) :
  JS.get o k = Some v -> In k (JS.keys o).
Proof.
  induction o as [| [k' v'] o IH]; simpl; [ discriminate | ].
  destruct (String.eqb_spec k' k) as [-> | Hne]; auto.
Qed.

End StringFacts.

Section NumberToString.

Lemma chars_substring (n m : nat) (s : string) (c : ascii) :
  In c (chars (substring n m s)) -> In c (chars s).
Proof.
  revert n m. induction s as [| a s IH]; intros n m.
  - destruct n, m; simpl; auto.
  - destruct n as [| n]; [ destruct m as [| m] | ]; simpl.
    + contradiction.
    + intros [H | H]; [ now left | right; eapply IH; eauto ].
    + intros H. right. eapply IH; eauto.
Qed.

Lemma chars_zeros (n : Z) (c : ascii) :
  In c (chars (JS.zeros n)) -> c = "0"%char.
Proof.
  unfold JS.zeros, chars. rewrite list_ascii_of_string_of_list_ascii.
  apply repeat_spec.
Qed.

Lemma integerOf_positive (m : positive) (e n : Z) :
  JS.integerOf m e = Some n -> (0 < n)%Z.
Proof.
  unfold JS.integerOf. destruct (Z.leb_spec 0 e) as [He | He].
  - assert (Hp : (0 < Z.pos m * 2 ^ e)%Z).
    { apply Z.mul_pos_pos; [ lia | apply Z.pow_pos_nonneg; lia ]. }
    destruct (Z.ltb _ _); [ | discriminate ]. now intros [= <-].
  - destruct (Z.eqb_spec (Z.pos m mod 2 ^ (- e)) 0) as [Hd | Hd];
      [ | discriminate ].
    intros [= <-].
    assert (Hp : (0 < 2 ^ (- e))%Z) by (apply Z.pow_pos_nonneg; lia).
    pose proof (Z.div_mod (Z.pos m) (2 ^ (- e))) as Hdm.
    rewrite Hd in Hdm. nia.
Qed.

(** A number that is an integer below 2^53 in absolute value is printed as
    that integer. *)
Lemma toString_integer (x : float) (n : Z) :
  JS.integerValue x = Some n -> JS.toString x = JS.numberToString n.
Proof.
  unfold JS.integerValue, JS.toString.
  destruct (Prim2SF x) as [sign | sign | | negative m e]; try discriminate.
  - now intros [= <-].
  - unfold JS.positiveToString.
    destruct (JS.integerOf m e) as [n0 |] eqn:E; [ | discriminate ].
    intros [= <-]. apply integerOf_positive in E.
    destruct negative; [ | reflexivity ].
    destruct n0 as [| q | q]; try lia.
    now rewrite !numberToString_cases.
Qed.

(** The characters of a number that is printed: those of the class of the
    names that are safe for a file, a point, or a plus sign. *)
Lemma toString_chars (x : float) (c : ascii) :
  In c (chars (JS.toString x)) ->
  isFileNameSafe c = true \/ c = "."%char \/ c = "+"%char.
Proof.
  assert (Hnumber : forall n c, In c (chars (JS.numberToString n)) ->
                                isFileNameSafe c = true).
  { intros n a H. apply numberToString_chars in H.
    destruct H as [H | ->]; [ now apply digit_isFileNameSafe | reflexivity ]. }
  assert (Hsub : forall a b n c,
            In c (chars (substring a b (JS.numberToString n))) ->
            isFileNameSafe c = true).
  { intros a b n a0 H. apply chars_substring in H. eauto. }
  assert (Hzeros : forall n c, In c (chars (JS.zeros n)) ->
                               isFileNameSafe c = true).
  { intros n a H. apply chars_zeros in H. now subst. }
  unfold JS.toString.
  destruct (Prim2SF x) as [sign | [] | | negative m e]; simpl.
  - intros [<- | []]. now left.
  - intros H. left.
    repeat (destruct H as [<- | H]; [ reflexivity | ]). contradiction.
  - intros H. left.
    repeat (destruct H as [<- | H]; [ reflexivity | ]). contradiction.
  - intros H. left.
    repeat (destruct H as [<- | H]; [ reflexivity | ]). contradiction.
  - rewrite chars_app, in_app_iff. intros [H | H].
    { destruct negative; simpl in H; [ | contradiction ].
      destruct H as [<- | []]. now left. }
    revert H. unfold JS.positiveToString.
    destruct (JS.integerOf m e) as [n |]; [ eauto | ].
    destruct (JS.shortest m e (JS.decimalExponent m e) 1 17) as (digits, p).
    cbv zeta.
    repeat match goal with
           | |- context [ if ?b then _ else _ ] => destruct b
           end;
      rewrite ?chars_app, ?in_app_iff; simpl;
      rewrite ?chars_app, ?in_app_iff; simpl;
      intuition (subst; eauto).
Qed.

End NumberToString.

(* ================================================================== *)
(** ** The list of dispositions of a cataloged stream *)
(* ================================================================== *)

Lemma disposition_list_In (m : Ffprobe.FfprobeDispositionMap) (k : string) :
  In k (Ffprobe.convertFfprobeDispositionMapToDispositionListWithoutDefault m)
  <-> (k <> "default" /\ JS.get m k = Some 1%Z).
Proof.
  unfold Ffprobe.convertFfprobeDispositionMapToDispositionListWithoutDefault.
  rewrite filter_In, andb_true_iff, negb_true_iff, String.eqb_neq.
  split.
  - intros (_ & Hk & Hv). split; [ exact Hk | ].
    destruct (JS.get m k) as [v |]; [ | discriminate ].
    apply Z.eqb_eq in Hv. now subst.
  - intros (Hk & Hv). split; [ eapply get_In_keys; eauto | ].
    split; [ exact Hk | now rewrite Hv ].
Qed.

(** C5. For every disposition map of ffprobe, the derived list holds exactly
    the keys whose value is 1 other than ["default"]; ["default"] is never in
    it, whatever its value; and a key is listed once when the map has it
    once. *)
Theorem disposition_list_without_default (m : Ffprobe.FfprobeDispositionMap) :
  (forall k,
     In k (Ffprobe.convertFfprobeDispositionMapToDispositionListWithoutDefault m)
     <-> (k <> "default" /\ JS.get m k = Some 1%Z))
  /\ ~ In "default"
         (Ffprobe.convertFfprobeDispositionMapToDispositionListWithoutDefault m)
  /\ (NoDup (JS.keys m) ->
      NoDup (Ffprobe.convertFfprobeDispositionMapToDispositionListWithoutDefault m)).
Proof.
  split; [ apply disposition_list_In | split ].
  - intros H. apply disposition_list_In in H. now destruct H.
  - intros Hnd. now apply NoDup_filter.
Qed.

(* ================================================================== *)
(** ** The fully qualified name *)
(* ================================================================== *)

(** C4, as the claim has it, fails: the name that is safe for a file name
    has the two parentheses around the year, which are outside the class. *)
Lemma safe_name_keeps_parentheses :
  getFullyQualifiedName Sample.theMatrix true = "The Matrix (1999)"
  /\ In "("%char (chars (getFullyQualifiedName Sample.theMatrix true))
  /\ isFileNameSafe "(" = false.
Proof.
  vm_compute. repeat split.
  repeat first [ left; reflexivity | right ].
Qed.

(** A year that is not an integer is printed with a point. *)
Example fractional_year_is_printed_with_a_point :
  JS.toString 1999.5 = "1999.5" /\ JS.toString 1e21 = "1e+21".
Proof. vm_compute. split; reflexivity. Qed.

(** C4, amended. With [fileNameSafe] the title is replaced by its characters
    of the class [a-zA-Z0-9-_ ], in their order; without it the title is
    kept as it is. Either way [" (" + year + ")"] follows, the year as
    JavaScript prints a number. Every character of the safe name is of the
    class, or one of the two parentheses put around the year, or a point or
    a plus sign of the year; the last two do not occur for a year that is
    an integer below 2^53 in absolute value, which is printed with its
    decimal digits. *)
Theorem fully_qualified_name (this : Movie) :
  getFullyQualifiedName this true
  = (removeUnsafe (title this) ++ " (" ++ JS.toString (year this) ++ ")")%string
  /\ chars (removeUnsafe (title this)) = filter isFileNameSafe (chars (title this))
  /\ (forall c, In c (chars (removeUnsafe (title this))) -> isFileNameSafe c = true)
  /\ (forall c, In c (chars (getFullyQualifiedName this true)) ->
        isFileNameSafe c = true \/ c = "("%char \/ c = ")"%char
        \/ c = "."%char \/ c = "+"%char)
  /\ (forall n,
        JS.integerValue (year this) = Some n ->
        JS.toString (year this) = JS.numberToString n
        /\ forall c, In c (chars (getFullyQualifiedName this true)) ->
             isFileNameSafe c = true \/ c = "("%char \/ c = ")"%char)
  /\ getFullyQualifiedName this false
     = (title this ++ " (" ++ JS.toString (year this) ++ ")")%string.
Proof.
  assert (Hsafe : forall c, In c (chars (removeUnsafe (title this))) ->
                            isFileNameSafe c = true).
  { intros c. rewrite chars_removeUnsafe, filter_In. tauto. }
  split; [ reflexivity | ].
  split; [ apply chars_removeUnsafe | ].
  split; [ exact Hsafe | ].
  split; [ | split; [ | reflexivity ] ].
  - intros c. unfold getFullyQualifiedName.
    rewrite !chars_app, !in_app_iff. simpl.
    intros [H | [[<- | [<- | []]] | [H | [<- | []]]]]; auto.
    apply toString_chars in H. tauto.
  - intros n Hn. pose proof (toString_integer _ _ Hn) as Hprinted.
    split; [ exact Hprinted | ].
    intros c. unfold getFullyQualifiedName. rewrite Hprinted.
    rewrite !chars_app, !in_app_iff. simpl.
    intros [H | [[<- | [<- | []]] | [H | [<- | []]]]]; auto.
    apply numberToString_chars in H.
    destruct H as [H | ->]; [ left; now apply digit_isFileNameSafe | now left ].
Qed.

(* ================================================================== *)
(** ** Track selection *)
(* ================================================================== *)

(** C10. A turn of a selection loop returns a stream exactly when
    [Number.parseInt(answer, 10)] is the index of a cataloged stream, and the
    stream returned is one of that index; for subtitles the empty answer
    returns [null] first, and no other answer does. So the decimal digits of
    a cataloged index, followed by anything that does not start with a
    digit, are accepted as that index, and the loop returns on them. *)
Theorem selection_round_accepts_parseInt
    (audioStreams : list AudioStream.t) (subtitleStreams : list SubtitleStream.t)
    (answer : string) :
  ((exists a, selectAudioStreamRound audioStreams answer = Some a)
   <-> (exists a, In a audioStreams
                  /\ JS.parseInt answer = Some (Stream.index a)))
  /\ (forall a, selectAudioStreamRound audioStreams answer = Some a ->
        In a audioStreams /\ JS.parseInt answer = Some (Stream.index a))
  /\ (selectSubtitleStreamRound subtitleStreams answer = Some None
      <-> answer = "")
  /\ ((exists s, selectSubtitleStreamRound subtitleStreams answer = Some (Some s))
      <-> (answer <> ""
           /\ exists s, In s subtitleStreams
                        /\ JS.parseInt answer = Some (Stream.index s)))
  /\ (forall s, selectSubtitleStreamRound subtitleStreams answer = Some (Some s) ->
        In s subtitleStreams /\ JS.parseInt answer = Some (Stream.index s))
  /\ (forall (a : AudioStream.t) (trailing : string) (answers : list string),
        In a audioStreams ->
        startsWithDigit trailing = false ->
        exists a',
          In a' audioStreams /\ Stream.index a' = Stream.index a
          /\ selectAudioStream audioStreams
               ((JS.numberToString (Stream.index a) ++ trailing)%string :: answers)
             = Some (a', answers))
  /\ (forall (s : SubtitleStream.t) (trailing : string) (answers : list string),
        In s subtitleStreams ->
        startsWithDigit trailing = false ->
        exists s',
          In s' subtitleStreams /\ Stream.index s' = Stream.index s
          /\ selectSubtitleStream subtitleStreams
               ((JS.numberToString (Stream.index s) ++ trailing)%string :: answers)
             = Some (Some s', answers)).
Proof.
  assert (Haudio : forall answer a,
            selectAudioStreamRound audioStreams answer = Some a ->
            In a audioStreams /\ JS.parseInt answer = Some (Stream.index a)).
  { intros ans a H. unfold selectAudioStreamRound, JS.find in H.
    apply find_some in H. destruct H as (Hin & Heq). split; [ exact Hin | ].
    destruct (JS.parseInt ans) as [z |]; simpl in Heq; [ | discriminate ].
    apply Z.eqb_eq in Heq. now subst. }
  assert (Haudio' : forall answer a,
            In a audioStreams -> JS.parseInt answer = Some (Stream.index a) ->
            exists a', selectAudioStreamRound audioStreams answer = Some a').
  { intros ans a Hin Hp. unfold selectAudioStreamRound, JS.find.
    destruct (find _ audioStreams) as [a' |] eqn:E; [ now exists a' | ].
    pose proof (find_none _ _ E a Hin) as H. cbv beta in H.
    rewrite Hp in H. simpl in H. now rewrite Z.eqb_refl in H. }
  assert (Hsub : forall answer s,
            selectSubtitleStreamRound subtitleStreams answer = Some (Some s) ->
            answer <> "" /\ In s subtitleStreams
            /\ JS.parseInt answer = Some (Stream.index s)).
  { intros ans s H. unfold selectSubtitleStreamRound, JS.find in H.
    destruct (String.eqb_spec ans "") as [-> | Hne]; [ discriminate | ].
    split; [ exact Hne | ].
    destruct (find _ subtitleStreams) as [s' |] eqn:E; [ | discriminate ].
    injection H as <-. apply find_some in E. destruct E as (Hin & Heq).
    split; [ exact Hin | ].
    destruct (JS.parseInt ans) as [z |]; simpl in Heq; [ | discriminate ].
    apply Z.eqb_eq in Heq. now subst. }
  assert (Hsub' : forall answer s,
            answer <> "" -> In s subtitleStreams ->
            JS.parseInt answer = Some (Stream.index s) ->
            exists s', selectSubtitleStreamRound subtitleStreams answer
                       = Some (Some s')).
  { intros ans s Hne Hin Hp. unfold selectSubtitleStreamRound, JS.find.
    destruct (String.eqb_spec ans "") as [-> | _]; [ congruence | ].
    destruct (find _ subtitleStreams) as [s' |] eqn:E; [ now exists s' | ].
    pose proof (find_none _ _ E s Hin) as H. cbv beta in H.
    rewrite Hp in H. simpl in H. now rewrite Z.eqb_refl in H. }
  repeat split.
  - intros (a & H). exists a. eauto.
  - intros (a & Hin & Hp). eauto.
  - eapply Haudio; eauto.
  - eapply Haudio; eauto.
  - unfold selectSubtitleStreamRound.
    destruct (String.eqb_spec answer "") as [-> | Hne]; [ reflexivity | ].
    destruct (JS.find _ subtitleStreams); discriminate.
  - intros ->. reflexivity.
  - destruct H as (s & H). now apply Hsub in H.
  - destruct H as (s & H). apply Hsub in H. exists s. tauto.
  - intros (Hne & s & Hin & Hp). eauto.
  - eapply Hsub; eauto.
  - eapply Hsub; eauto.
  - intros a trailing answers Hin Ht.
    pose proof (parseInt_numberToString (Stream.index a) trailing Ht) as Hp.
    destruct (Haudio' _ a Hin Hp) as (a' & Ha').
    destruct (Haudio _ _ Ha') as (Hin' & Hp').
    exists a'. repeat split; [ exact Hin' | congruence | ].
    simpl. now rewrite Ha'.
  - intros s trailing answers Hin Ht.
    pose proof (parseInt_numberToString (Stream.index s) trailing Ht) as Hp.
    assert (Hne : (JS.numberToString (Stream.index s) ++ trailing)%string <> "").
    { pose proof (numberToString_nonempty (Stream.index s)) as Hn.
      destruct (JS.numberToString (Stream.index s)); [ congruence | discriminate ]. }
    destruct (Hsub' _ s Hne Hin Hp) as (s' & Hs').
    destruct (Hsub _ _ Hs') as (_ & Hin' & Hp').
    exists s'. repeat split; [ exact Hin' | congruence | ].
    simpl. now rewrite Hs'.
Qed.

Example answer_2x_is_accepted :
  selectAudioStream
    [ {| AudioStream.stream :=
           {| Stream.index := 2; Stream.codecName := "ac3";
              Stream.language := None; Stream.title := None;
              Stream.dispositionsWithoutDefault := [] |};
         AudioStream.channelLayout := "5.1" |} ]
    [ "7"; "two"; "2x"; "2" ]
  = Some
      ({| AudioStream.stream :=
            {| Stream.index := 2; Stream.codecName := "ac3";
               Stream.language := None; Stream.title := None;
               Stream.dispositionsWithoutDefault := [] |};
          AudioStream.channelLayout := "5.1" |},
       [ "2" ]).
Proof. reflexivity. Qed.

(* ================================================================== *)
(** ** The arguments of the primary output *)
(* ================================================================== *)

Section MkvArguments.

Variable join : list string -> string.

Lemma forOf_push {A B} (f : A -> list B) (l : list A) (init : list B) :
  JS.forOf l (fun acc x => JS.push acc (f x)) init = init ++ flat_map f l.
Proof.
  unfold JS.forOf, JS.push. revert init.
  induction l as [| x l IH]; intros init; simpl.
  - now rewrite app_nil_r.
  - now rewrite IH, app_assoc.
Qed.

Lemma forEach_push {A B} (f : A -> Z -> list B) (l : list A) (init : list B) :
  JS.forEach l (fun acc x i => JS.push acc (f x i)) init
  = init ++ flat_map (fun ix => f (snd ix) (fst ix)) (JS.entries l).
Proof.
  unfold JS.forEach, JS.push. generalize (JS.entries l) as e. intros e.
  revert init. induction e as [| x e IH]; intros init; simpl.
  - now rewrite app_nil_r.
  - now rewrite IH, app_assoc.
Qed.

Lemma unpair_app (k l : list (string * string)) :
  unpair (k ++ l) = unpair k ++ unpair l.
Proof. apply flat_map_app. Qed.

Lemma optionPairs_unpair (l : list (string * string)) (rest : list string) :
  optionPairs (unpair l ++ rest) = l ++ optionPairs rest.
Proof.
  induction l as [| [k v] l IH]; simpl; [ reflexivity | now rewrite IH ].
Qed.

Lemma unpair_metadataOptions spec language codecName originalTitle channelLayout :
  unpair (metadataOptions spec language codecName originalTitle channelLayout)
  = getStreamMetadataArguments spec language codecName originalTitle channelLayout.
Proof.
  unfold metadataOptions, getStreamMetadataArguments.
  destruct language; reflexivity.
Qed.

Lemma unpair_dispositionOptions spec dispositions isDefault :
  unpair (dispositionOptions spec dispositions isDefault)
  = getStreamDispositionArguments spec dispositions isDefault.
Proof.
  unfold dispositionOptions, getStreamDispositionArguments.
  destruct (String.eqb _ ""); reflexivity.
Qed.

Lemma unpair_mapOption {A} (f : A -> Stream.t) (l : list A) :
  unpair (map (fun x => mapOption (f x)) l)
  = flat_map
      (fun x => [ "-map"; ("0:" ++ JS.numberToString (Stream.index (f x)))%string ])
      l.
Proof.
  unfold unpair.
  induction l as [| x l IH]; simpl; [ reflexivity | now rewrite IH ].
Qed.

Lemma unpair_copiedAudio (conversionInfo : ConversionInfo.t)
    (e : list (Z * AudioStream.t)) :
  unpair (flat_map (streamOptions conversionInfo)
            (map (fun ix => CopiedAudio (fst ix) (snd ix)) e))
  = flat_map
      (fun ix : Z * AudioStream.t =>
         getStreamMetadataArguments ("a:" ++ JS.numberToString (fst ix + 1))
           (Stream.language (snd ix)) (Stream.codecName (snd ix))
           (Stream.title (snd ix)) (Some (AudioStream.channelLayout (snd ix)))
         ++ getStreamDispositionArguments
              ("a:" ++ JS.numberToString (fst ix + 1))
              (Stream.dispositionsWithoutDefault (snd ix)) false)
      e.
Proof.
  induction e as [| x e IH]; [ reflexivity | ].
  cbn [map flat_map streamOptions streamSpecifier].
  now rewrite !unpair_app, IH, unpair_metadataOptions, unpair_dispositionOptions.
Qed.

Lemma unpair_copiedSubtitle (conversionInfo : ConversionInfo.t)
    (e : list (Z * SubtitleStream.t)) :
  unpair (flat_map (streamOptions conversionInfo)
            (map (fun ix => CopiedSubtitle (fst ix) (snd ix)) e))
  = flat_map
      (fun ix : Z * SubtitleStream.t =>
         getStreamMetadataArguments ("s:" ++ JS.numberToString (fst ix))
           (Stream.language (snd ix)) (Stream.codecName (snd ix))
           (Stream.title (snd ix)) None
         ++ getStreamDispositionArguments
              ("s:" ++ JS.numberToString (fst ix))
              (Stream.dispositionsWithoutDefault (snd ix)) false)
      e.
Proof.
  induction e as [| x e IH]; [ reflexivity | ].
  cbn [map flat_map streamOptions streamSpecifier].
  now rewrite !unpair_app, IH, unpair_metadataOptions, unpair_dispositionOptions.
Qed.

(** The primary output is its options, then its file. *)
Lemma getMkvOutputArguments_options (this : Movie) (outputFolderPath : string)
    (conversionInfo : ConversionInfo.t) :
  getMkvOutputArguments join this outputFolderPath conversionInfo
  = unpair (mkvOptions conversionInfo)
    ++ [ getMkvOutputFilePath join this outputFolderPath
           (ConversionInfo.selectedSubtitleStream conversionInfo) ].
Proof.
  unfold getMkvOutputArguments, mkvOptions, outputStreams.
  rewrite !forOf_push, !forEach_push.
  unfold JS.push. f_equal.
  cbn [flat_map]. rewrite flat_map_app, !unpair_app.
  rewrite unpair_copiedAudio, unpair_copiedSubtitle.
  rewrite (unpair_mapOption AudioStream.stream).
  rewrite (unpair_mapOption (fun s : SubtitleStream.t => s)).
  cbn [streamOptions].
  rewrite !unpair_app, unpair_metadataOptions, unpair_dispositionOptions.
  rewrite <- !app_assoc. reflexivity.
Qed.

End MkvArguments.

Section MkvMappings.

Variable join : list string -> string.

Lemma optionValues_options (name : string) (options : list (string * string))
    (file : string) :
  optionValues name (unpair options ++ [file])
  = map snd (filter (fun kv => String.eqb (fst kv) name) options).
Proof.
  unfold optionValues. rewrite optionPairs_unpair. simpl.
  now rewrite app_nil_r.
Qed.

Lemma metadataOptions_key spec language codecName originalTitle channelLayout kv :
  In kv (metadataOptions spec language codecName originalTitle channelLayout) ->
  fst kv = ("-metadata:s:" ++ spec)%string.
Proof.
  unfold metadataOptions.
  destruct language; simpl; intros H;
    repeat (destruct H as [<- | H]; [ reflexivity | ]); contradiction.
Qed.

Lemma dispositionOptions_key spec dispositions isDefault kv :
  In kv (dispositionOptions spec dispositions isDefault) ->
  kv = (("-disposition:" ++ spec)%string, getDisposition dispositions isDefault)
  /\ getDisposition dispositions isDefault <> "".
Proof.
  unfold dispositionOptions.
  destruct (String.eqb_spec (getDisposition dispositions isDefault) "")
    as [E | E]; simpl; [ contradiction | ].
  intros [<- | []]. split; [ reflexivity | exact E ].
Qed.

Lemma streamOptions_not_map (conversionInfo : ConversionInfo.t) (o : OutputStream)
    (kv : string * string) :
  In kv (streamOptions conversionInfo o) -> String.eqb (fst kv) "-map" = false.
Proof.
  destruct o; cbn [streamOptions]; rewrite ?in_app_iff; cbn [In];
    intros H;
    repeat match type of H with
      | _ \/ _ => destruct H as [H | H]
      | False => contradiction
      | _ = kv => subst kv; reflexivity
      | In _ (metadataOptions _ _ _ _ _) =>
          apply metadataOptions_key in H; rewrite H; reflexivity
      | In _ (dispositionOptions _ _ _) =>
          apply dispositionOptions_key in H; destruct H as (-> & _); reflexivity
      end.
Qed.

Lemma filter_none {A} (p : A -> bool) (l : list A) :
  (forall x, In x l -> p x = false) -> filter p l = [].
Proof.
  induction l as [| x l IH]; simpl; intros H; [ reflexivity | ].
  rewrite (H x (or_introl eq_refl)). apply IH. auto.
Qed.

Lemma filter_all {A} (p : A -> bool) (l : list A) :
  (forall x, In x l -> p x = true) -> filter p l = l.
Proof.
  induction l as [| x l IH]; simpl; intros H; [ reflexivity | ].
  rewrite (H x (or_introl eq_refl)). f_equal. apply IH. auto.
Qed.

Lemma mappedStreams_mkv (this : Movie) (outputFolderPath : string)
    (conversionInfo : ConversionInfo.t) :
  mappedStreams (getMkvOutputArguments join this outputFolderPath conversionInfo)
  = "0:V"
    :: mapValue (Stream.index (ConversionInfo.selectedAudioStream conversionInfo))
    :: map (fun a : AudioStream.t => mapValue (Stream.index a))
         (ConversionInfo.audioStreams conversionInfo)
    ++ map (fun s : SubtitleStream.t => mapValue (Stream.index s))
         (ConversionInfo.subtitleStreams conversionInfo).
Proof.
  unfold mappedStreams.
  rewrite getMkvOutputArguments_options, optionValues_options.
  unfold mkvOptions.
  rewrite !filter_app, !map_app.
  rewrite (filter_none _ (flat_map _ _)), app_nil_r.
  - rewrite (filter_all _ (map _ (ConversionInfo.audioStreams conversionInfo))).
    + rewrite (filter_all _ (map _ (ConversionInfo.subtitleStreams conversionInfo))).
      * now rewrite !map_map.
      * intros kv H. apply in_map_iff in H. destruct H as (x & <- & _).
        reflexivity.
    + intros kv H. apply in_map_iff in H. destruct H as (x & <- & _).
      reflexivity.
  - intros kv H. apply in_flat_map in H. destruct H as (o & _ & H).
    eapply streamOptions_not_map; eauto.
Qed.

Lemma mapValue_inj (n m : Z) : mapValue n = mapValue m -> n = m.
Proof.
  unfold mapValue. simpl. intros [= H]. now apply numberToString_inj.
Qed.

Lemma mapValue_not_video (n : Z) : "0:V" <> mapValue n.
Proof.
  unfold mapValue. simpl. intros [= H].
  assert (Hin : In "V"%char (chars (JS.numberToString n))).
  { rewrite <- H. left. reflexivity. }
  apply numberToString_chars in Hin. destruct Hin as [Hd | Hm]; discriminate.
Qed.

Lemma count_occ_mapValue (l : list Z) (n : Z) :
  count_occ string_dec (map mapValue l) (mapValue n) = count_occ Z.eq_dec l n.
Proof.
  induction l as [| m l IH]; cbn [map count_occ]; [ reflexivity | ].
  destruct (string_dec (mapValue m) (mapValue n)) as [E | E];
    destruct (Z.eq_dec m n) as [E' | E'].
  - now rewrite IH.
  - apply mapValue_inj in E. contradiction.
  - subst. congruence.
  - exact IH.
Qed.

End MkvMappings.

(** C1. The primary output starts with the options of the copy, then maps the
    video streams, then the selected audio stream, then every cataloged audio
    stream in the order of the catalog, then every cataloged subtitle
    stream in the order of the catalog; no other option of the output maps
    a stream. So the index of the selected audio stream, which is in the
    catalog, is mapped at least twice, and exactly twice when the indices of
    the catalog are distinct. *)
Theorem mkv_stream_mappings (join : list string -> string) (this : Movie)
    (outputFolderPath : string) (conversionInfo : ConversionInfo.t) :
  let selected := ConversionInfo.selectedAudioStream conversionInfo in
  let audioStreams := ConversionInfo.audioStreams conversionInfo in
  let subtitleStreams := ConversionInfo.subtitleStreams conversionInfo in
  let args := getMkvOutputArguments join this outputFolderPath conversionInfo in
  let mapArguments (index : Z) :=
    [ "-map"; ("0:" ++ JS.numberToString index)%string ] in
  (exists rest,
      args
      = [ "-codec"; "copy"; "-map_metadata"; "-1"; "-map_chapters"; "-1" ]
        ++ [ "-map"; "0:V" ]
        ++ mapArguments (Stream.index selected)
        ++ flat_map (fun a : AudioStream.t => mapArguments (Stream.index a))
             audioStreams
        ++ flat_map (fun s : SubtitleStream.t => mapArguments (Stream.index s))
             subtitleStreams
        ++ rest
      /\ mappedStreams rest = [])
  /\ mappedStreams args
     = "0:V"
       :: ("0:" ++ JS.numberToString (Stream.index selected))%string
       :: map (fun a : AudioStream.t =>
                 ("0:" ++ JS.numberToString (Stream.index a))%string)
            audioStreams
       ++ map (fun s : SubtitleStream.t =>
                 ("0:" ++ JS.numberToString (Stream.index s))%string)
            subtitleStreams
  /\ (In selected audioStreams ->
      2 <= count_occ string_dec (mappedStreams args)
             ("0:" ++ JS.numberToString (Stream.index selected))%string)
  /\ (In selected audioStreams ->
      NoDup (map (fun a : AudioStream.t => Stream.index a) audioStreams
             ++ map Stream.index subtitleStreams) ->
      count_occ string_dec (mappedStreams args)
        ("0:" ++ JS.numberToString (Stream.index selected))%string = 2).
Proof.
  intros selected audioStreams subtitleStreams args mapArguments.
  assert (Hcount :
    count_occ string_dec (mappedStreams args) (mapValue (Stream.index selected))
    = S (count_occ Z.eq_dec
           (map (fun a : AudioStream.t => Stream.index a) audioStreams
            ++ map Stream.index subtitleStreams) (Stream.index selected))).
  { subst args. rewrite mappedStreams_mkv.
    fold selected audioStreams subtitleStreams.
    cbn [count_occ].
    destruct (string_dec "0:V" (mapValue (Stream.index selected))) as [E | _];
      [ now apply mapValue_not_video in E | ].
    destruct (string_dec (mapValue (Stream.index selected))
                (mapValue (Stream.index selected))) as [_ | E];
      [ | congruence ].
    f_equal. rewrite <- count_occ_mapValue, map_app, !map_map. reflexivity. }
  assert (Hin : In selected audioStreams ->
                In (Stream.index selected)
                  (map (fun a : AudioStream.t => Stream.index a) audioStreams
                   ++ map Stream.index subtitleStreams)).
  { intros H. apply in_or_app. left.
    apply in_map_iff. exists selected. auto. }
  split; [ | split; [ | split ] ].
  - eexists. split.
    + subst args. rewrite getMkvOutputArguments_options. unfold mkvOptions.
      rewrite !unpair_app.
      rewrite (unpair_mapOption AudioStream.stream).
      rewrite (unpair_mapOption (fun s : SubtitleStream.t => s)).
      rewrite <- !app_assoc. reflexivity.
    + unfold mappedStreams. rewrite optionValues_options.
      rewrite filter_none; [ reflexivity | ].
      intros kv H. apply in_flat_map in H. destruct H as (o & _ & H).
      eapply streamOptions_not_map; eauto.
  - subst args. apply mappedStreams_mkv.
  - intros H. fold (mapValue (Stream.index selected)). rewrite Hcount.
    apply Hin in H. apply (count_occ_In Z.eq_dec) in H. lia.
  - intros H Hnd. fold (mapValue (Stream.index selected)). rewrite Hcount.
    apply Hin in H. f_equal.
    now apply NoDup_count_occ'.
Qed.

(* ================================================================== *)
(** ** The options of one output stream *)
(* ================================================================== *)

Section StreamOptions.

Variable join : list string -> string.

Lemma optionsNamed_app (name : string) (k l : list (string * string)) :
  optionsNamed name (k ++ l) = optionsNamed name k ++ optionsNamed name l.
Proof. unfold optionsNamed. now rewrite filter_app, map_app. Qed.

Lemma optionsNamed_none (name : string) (l : list (string * string)) :
  (forall kv, In kv l -> fst kv <> name) -> optionsNamed name l = [].
Proof.
  intros H. unfold optionsNamed. rewrite filter_none; [ reflexivity | ].
  intros kv Hin. apply String.eqb_neq. auto.
Qed.

Lemma entries_spec {A} (l : list A) (i : Z) (x : A) :
  In (i, x) (JS.entries l) ->
  (0 <= i)%Z /\ nth_error l (Z.to_nat i) = Some x.
Proof.
  unfold JS.entries.
  assert (G : forall start,
    In (i, x) (combine (map Z.of_nat (seq start (List.length l))) l) ->
    (Z.of_nat start <= i)%Z /\ nth_error l (Z.to_nat i - start) = Some x).
  { induction l as [| y l IH]; intros start; simpl; [ contradiction | ].
    intros [[= <- <-] | H].
    - split; [ lia | ]. rewrite Nat2Z.id, Nat.sub_diag. reflexivity.
    - apply IH in H. destruct H as (Hle & Hnth). split; [ lia | ].
      replace (Z.to_nat i - start)%nat with (S (Z.to_nat i - S start)) by lia.
      exact Hnth. }
  intros H. apply G in H. now rewrite Nat.sub_0_r in H.
Qed.

Lemma entries_snd {A} (l : list A) : map snd (JS.entries l) = l.
Proof.
  unfold JS.entries. generalize 0%nat as start.
  induction l as [| y l IH]; intros start; simpl; [ reflexivity | ].
  now rewrite IH.
Qed.

Lemma entries_NoDup {A} (l : list A) : NoDup (map fst (JS.entries l)).
Proof.
  unfold JS.entries.
  assert (E : map fst (combine (map Z.of_nat (seq 0 (List.length l))) l)
              = map Z.of_nat (seq 0 (List.length l))).
  { generalize 0%nat as start.
    induction l as [| y l IH]; intros start; simpl; [ reflexivity | ].
    now rewrite IH. }
  rewrite E. apply NoDup_map_NoDup_ForallPairs; [ | apply seq_NoDup ].
  intros a b _ _. apply Nat2Z.inj.
Qed.

Lemma NoDup_map_of_fst {A} (h : Z -> string) (e : list (Z * A)) :
  (forall i j, h i = h j -> i = j) ->
  NoDup (map fst e) ->
  NoDup (map (fun ix => h (fst ix)) e).
Proof.
  intros Hinj Hnd. rewrite <- (map_map fst h).
  apply NoDup_map_NoDup_ForallPairs; [ | exact Hnd ].
  intros a b _ _. apply Hinj.
Qed.

(** The specifiers of the output streams are distinct. *)
Lemma streamSpecifier_NoDup (conversionInfo : ConversionInfo.t) :
  NoDup (map streamSpecifier (outputStreams conversionInfo)).
Proof.
  unfold outputStreams. cbn [map]. rewrite map_app, !map_map.
  cbn [streamSpecifier fst snd].
  constructor.
  - rewrite in_app_iff, !in_map_iff.
    intros [((i, a) & E & Hin) | ((i, s) & E & Hin)];
      cbn [fst snd] in E; [ | discriminate E ].
    apply entries_spec in Hin. injection E as E.
    apply numberToString_zero in E. lia.
  - apply NoDup_app.
    + apply (NoDup_map_of_fst (fun i => ("a:" ++ JS.numberToString (i + 1))%string));
        [ | apply entries_NoDup ].
      intros i j [= E]. apply numberToString_inj in E. lia.
    + apply (NoDup_map_of_fst (fun i => ("s:" ++ JS.numberToString i)%string));
        [ | apply entries_NoDup ].
      intros i j [= E]. now apply numberToString_inj in E.
    + intros x. rewrite !in_map_iff.
      intros ((i, a) & <- & _) ((j, s) & E & _). discriminate E.
Qed.

Lemma streamOptions_keys (conversionInfo : ConversionInfo.t) (o : OutputStream)
    (kv : string * string) :
  In kv (streamOptions conversionInfo o) ->
  (o = FirstAudio
   /\ In kv [ ("-codec:a:0", "aac"); ("-b:a:0", "128k"); ("-ac:a:0", "2") ])
  \/ fst kv = ("-metadata:s:" ++ streamSpecifier o)%string
  \/ fst kv = ("-disposition:" ++ streamSpecifier o)%string.
Proof.
  destruct o; cbn [streamOptions]; rewrite ?in_app_iff; cbn [In];
    intros H;
    repeat match type of H with
      | _ \/ _ => destruct H as [H | H]
      | False => contradiction
      | _ = kv => subst kv; left; split; [ reflexivity | simpl; tauto ]
      | In _ (metadataOptions _ _ _ _ _) =>
          apply metadataOptions_key in H; right; left; exact H
      | In _ (dispositionOptions _ _ _) =>
          apply dispositionOptions_key in H; destruct H as (-> & _);
          right; right; reflexivity
      end.
Qed.

Lemma optionsNamed_other_stream (conversionInfo : ConversionInfo.t)
    (o o' : OutputStream) (prefix : string) :
  isStreamOption prefix ->
  streamSpecifier o' <> streamSpecifier o ->
  optionsNamed (prefix ++ streamSpecifier o) (streamOptions conversionInfo o') = [].
Proof.
  intros Hp Hne. apply optionsNamed_none. intros kv Hin E.
  apply streamOptions_keys in Hin.
  destruct Hin as [(_ & Hin) | [Hk | Hk]].
  - simpl in Hin.
    destruct Hp as [-> | ->];
      destruct Hin as [<- | [<- | [<- | []]]]; discriminate E.
  - rewrite Hk in E. destruct Hp as [-> | ->]; simpl in E;
      [ injection E as E; contradiction | discriminate E ].
  - rewrite Hk in E. destruct Hp as [-> | ->]; simpl in E;
      [ discriminate E | injection E as E; contradiction ].
Qed.

Lemma optionsNamed_outputStreams (conversionInfo : ConversionInfo.t)
    (prefix : string) (o : OutputStream) (l : list OutputStream) :
  isStreamOption prefix ->
  NoDup (map streamSpecifier l) ->
  In o l ->
  optionsNamed (prefix ++ streamSpecifier o) (flat_map (streamOptions conversionInfo) l)
  = optionsNamed (prefix ++ streamSpecifier o) (streamOptions conversionInfo o).
Proof.
  intros Hp. induction l as [| o' l IH]; cbn [map flat_map In];
    intros Hnd Hin; [ contradiction | ].
  inversion Hnd as [| ? ? Hni Hnd']; subst.
  rewrite optionsNamed_app. destruct Hin as [-> | Hin].
  - rewrite (optionsNamed_none _ (flat_map _ l)); [ apply app_nil_r | ].
    intros kv Hkv E. apply in_flat_map in Hkv. destruct Hkv as (o2 & Ho2 & Hkv).
    assert (Hne : streamSpecifier o2 <> streamSpecifier o).
    { intros Heq. apply Hni. rewrite <- Heq. now apply in_map. }
    pose proof (optionsNamed_other_stream conversionInfo o o2 prefix Hp Hne) as Hnone.
    unfold optionsNamed in Hnone. apply map_eq_nil in Hnone.
    assert (Hf : In kv (filter
                          (fun kv => String.eqb (fst kv) (prefix ++ streamSpecifier o))
                          (streamOptions conversionInfo o2))).
    { apply filter_In. split; [ exact Hkv | now apply String.eqb_eq ]. }
    rewrite Hnone in Hf. exact Hf.
  - rewrite optionsNamed_other_stream; [ now apply IH | exact Hp | ].
    intros Heq. apply Hni. rewrite Heq. now apply in_map.
Qed.

Lemma optionsNamed_copy_and_maps (conversionInfo : ConversionInfo.t)
    (name : string) :
  ~ In name [ "-codec"; "-map_metadata"; "-map_chapters"; "-map" ] ->
  optionsNamed name
    ([ ("-codec", "copy"); ("-map_metadata", "-1"); ("-map_chapters", "-1");
       ("-map", "0:V");
       mapOption (ConversionInfo.selectedAudioStream conversionInfo) ]
     ++ map (fun a : AudioStream.t => mapOption a)
          (ConversionInfo.audioStreams conversionInfo)
     ++ map mapOption (ConversionInfo.subtitleStreams conversionInfo))
  = [].
Proof.
  intros Hname. apply optionsNamed_none. intros kv Hin E.
  apply Hname. rewrite <- E. clear E Hname.
  rewrite !in_app_iff, !in_map_iff in Hin. simpl in Hin. simpl.
  destruct Hin as [[<- | [<- | [<- | [<- | [<- | []]]]]]
                  | [(a & <- & _) | (a & <- & _)]]; simpl; tauto.
Qed.

(** The values that the primary output gives to an option of one of its
    output streams are those of [streamOptions] for that stream. *)
Lemma optionValues_stream (this : Movie) (outputFolderPath : string)
    (conversionInfo : ConversionInfo.t) (o : OutputStream) (prefix : string) :
  isStreamOption prefix ->
  In o (outputStreams conversionInfo) ->
  optionValues (prefix ++ streamSpecifier o)
    (getMkvOutputArguments join this outputFolderPath conversionInfo)
  = optionsNamed (prefix ++ streamSpecifier o) (streamOptions conversionInfo o).
Proof.
  intros Hp Hin.
  rewrite getMkvOutputArguments_options, optionValues_options.
  fold (optionsNamed (prefix ++ streamSpecifier o) (mkvOptions conversionInfo)).
  unfold mkvOptions.
  rewrite !app_assoc, optionsNamed_app, <- !app_assoc.
  rewrite optionsNamed_copy_and_maps.
  - apply optionsNamed_outputStreams; auto using streamSpecifier_NoDup.
  - destruct Hp as [-> | ->]; simpl; intros [E | [E | [E | [E | []]]]];
      discriminate E.
Qed.

Lemma optionsNamed_metadata (streamSpecifier : string) (language : option string)
    (codecName : string) (originalTitle channelLayout : option string)
    (prefix : string) :
  isStreamOption prefix ->
  optionsNamed (prefix ++ streamSpecifier)
    (metadataOptions streamSpecifier language codecName originalTitle channelLayout)
  = if String.eqb prefix "-metadata:s:"
    then map snd (metadataOptions streamSpecifier language codecName
                    originalTitle channelLayout)
    else [].
Proof.
  intros [-> | ->]; unfold metadataOptions, optionsNamed;
    destruct language; cbn [filter fst map snd];
    rewrite ?String.eqb_refl; reflexivity.
Qed.

Lemma optionsNamed_disposition (streamSpecifier : string)
    (dispositions : list string) (isDefault : bool) (prefix : string) :
  isStreamOption prefix ->
  optionsNamed (prefix ++ streamSpecifier)
    (dispositionOptions streamSpecifier dispositions isDefault)
  = if String.eqb prefix "-disposition:"
    then map snd (dispositionOptions streamSpecifier dispositions isDefault)
    else [].
Proof.
  intros [-> | ->]; unfold dispositionOptions, optionsNamed;
    destruct (String.eqb (getDisposition dispositions isDefault) "");
    cbn [filter fst map snd];
    rewrite ?String.eqb_refl; reflexivity.
Qed.

(** What [streamOptions] gives to the options of its stream. *)
Lemma optionsNamed_streamOptions (conversionInfo : ConversionInfo.t)
    (o : OutputStream) :
  optionsNamed ("-metadata:s:" ++ streamSpecifier o) (streamOptions conversionInfo o)
  = match o with
    | FirstAudio =>
        map snd
          (metadataOptions "a:0"
             (Stream.language (ConversionInfo.selectedAudioStream conversionInfo))
             "aac" None (Some "stereo"))
    | CopiedAudio _ a =>
        map snd
          (metadataOptions (streamSpecifier o) (Stream.language a)
             (Stream.codecName a) (Stream.title a)
             (Some (AudioStream.channelLayout a)))
    | CopiedSubtitle _ s =>
        map snd
          (metadataOptions (streamSpecifier o) (Stream.language s)
             (Stream.codecName s) (Stream.title s) None)
    end
  /\ optionsNamed ("-disposition:" ++ streamSpecifier o)
       (streamOptions conversionInfo o)
     = if String.eqb (JS.arrayJoin "+" (dispositionList conversionInfo o)) ""
       then []
       else [ JS.arrayJoin "+" (dispositionList conversionInfo o) ].
Proof.
  assert (Hm : isStreamOption "-metadata:s:") by (left; reflexivity).
  assert (Hd : isStreamOption "-disposition:") by (right; reflexivity).
  destruct o; cbn [streamOptions dispositionList];
    rewrite ?optionsNamed_app;
    try change "a:0" with (streamSpecifier FirstAudio);
    rewrite ?(optionsNamed_metadata _ _ _ _ _ _ Hm),
            ?(optionsNamed_metadata _ _ _ _ _ _ Hd),
            ?(optionsNamed_disposition _ _ _ _ Hm),
            ?(optionsNamed_disposition _ _ _ _ Hd);
    cbn [String.eqb Ascii.eqb Bool.eqb app]; rewrite ?app_nil_r;
    (split; [ reflexivity | ]);
    unfold dispositionOptions, getDisposition;
    match goal with
    | |- context [ String.eqb ?d "" ] => destruct (String.eqb d "")
    end; reflexivity.
Qed.

End StreamOptions.

Section FirstAudioOptions.

Variable join : list string -> string.

Lemma copied_not_first (conversionInfo : ConversionInfo.t) (o : OutputStream) :
  In o (map (fun ix => CopiedAudio (fst ix) (snd ix))
          (JS.entries (ConversionInfo.audioStreams conversionInfo))
        ++ map (fun ix => CopiedSubtitle (fst ix) (snd ix))
             (JS.entries (ConversionInfo.subtitleStreams conversionInfo))) ->
  o <> FirstAudio.
Proof.
  rewrite in_app_iff, !in_map_iff.
  intros [(ix & <- & _) | (ix & <- & _)]; discriminate.
Qed.

(** The three options of the transcoding are given once, to audio stream 0. *)
Lemma optionValues_transcoding (this : Movie) (outputFolderPath : string)
    (conversionInfo : ConversionInfo.t) (name : string) :
  In name [ "-codec:a:0"; "-b:a:0"; "-ac:a:0" ] ->
  optionValues name
    (getMkvOutputArguments join this outputFolderPath conversionInfo)
  = optionsNamed name
      [ ("-codec:a:0", "aac"); ("-b:a:0", "128k"); ("-ac:a:0", "2") ].
Proof.
  intros Hname.
  rewrite getMkvOutputArguments_options, optionValues_options.
  fold (optionsNamed name (mkvOptions conversionInfo)).
  unfold mkvOptions, outputStreams.
  rewrite !app_assoc, optionsNamed_app, <- !app_assoc.
  rewrite optionsNamed_copy_and_maps.
  - cbn [flat_map streamOptions app].
    rewrite !optionsNamed_app.
    rewrite (optionsNamed_none name (metadataOptions _ _ _ _ _)).
    + rewrite (optionsNamed_none name (dispositionOptions _ _ _)).
      * rewrite (optionsNamed_none name (flat_map _ _)); [ now rewrite !app_nil_r | ].
        intros kv Hin E. apply in_flat_map in Hin. destruct Hin as (o & Ho & Hin).
        apply copied_not_first in Ho. apply streamOptions_keys in Hin.
        destruct Hin as [(Hfirst & _) | [Hk | Hk]]; [ contradiction | | ];
          rewrite Hk in E; simpl in Hname;
          destruct Hname as [<- | [<- | [<- | []]]]; discriminate E.
      * intros kv Hin E. apply dispositionOptions_key in Hin.
        destruct Hin as (-> & _). simpl in Hname, E.
        destruct Hname as [<- | [<- | [<- | []]]]; discriminate E.
    + intros kv Hin E. apply metadataOptions_key in Hin.
      rewrite Hin in E. simpl in Hname.
      destruct Hname as [<- | [<- | [<- | []]]]; discriminate E.
  - simpl in Hname. simpl.
    destruct Hname as [<- | [<- | [<- | []]]];
      intros [E | [E | [E | [E | []]]]]; discriminate E.
Qed.

End FirstAudioOptions.

(** C2, as the claim has it, fails: the title of audio stream 0 has no
    segment in brackets when the selected stream has a title of its own. *)
Lemma first_audio_title_drops_original_title :
  let commentary :=
    {| AudioStream.stream :=
         {| Stream.index := 1; Stream.codecName := "ac3";
            Stream.language := Some "eng"; Stream.title := Some "Commentary";
            Stream.dispositionsWithoutDefault := [ "comment" ] |};
       AudioStream.channelLayout := "5.1" |} in
  let plan :=
    {| ConversionInfo.containerDurationSeconds := 100%float;
       ConversionInfo.audioStreams := [ commentary ];
       ConversionInfo.selectedAudioStream := commentary;
       ConversionInfo.subtitleStreams := [];
       ConversionInfo.selectedSubtitleStream := None |} in
  Stream.title (ConversionInfo.selectedAudioStream plan) = Some "Commentary"
  /\ optionValues "-metadata:s:a:0"
       (getMkvOutputArguments Sample.join Sample.theMatrix "out" plan)
     = [ "title=eng aac stereo"; "language=eng" ]
  /\ optionValues "-metadata:s:a:1"
       (getMkvOutputArguments Sample.join Sample.theMatrix "out" plan)
     = [ "title=eng ac3 5.1 [Commentary]"; "language=eng" ].
Proof. vm_compute. repeat split. Qed.

(** C2, amended. Audio stream 0 of the primary output is given the codec
    aac, the bitrate 128k and 2 channels, the title
    ["<language or ???> aac stereo"] with nothing after it, whether the
    selected stream has a title or not, the language of the selected stream
    when it has one, and the disposition made of ["default"] and then the
    dispositions of the selected stream, joined with ["+"]. *)
Theorem first_audio_stream_options (join : list string -> string) (this : Movie)
    (outputFolderPath : string) (conversionInfo : ConversionInfo.t) :
  let selected := ConversionInfo.selectedAudioStream conversionInfo in
  let args := getMkvOutputArguments join this outputFolderPath conversionInfo in
  optionValues "-codec:a:0" args = [ "aac" ]
  /\ optionValues "-b:a:0" args = [ "128k" ]
  /\ optionValues "-ac:a:0" args = [ "2" ]
  /\ optionValues "-metadata:s:a:0" args
     = ("title=" ++ JS.nullish (Stream.language selected) "???" ++ " aac stereo")%string
       :: match Stream.language selected with
          | Some language => [ ("language=" ++ language)%string ]
          | None => []
          end
  /\ optionValues "-disposition:a:0" args
     = [ JS.arrayJoin "+"
           ("default" :: Stream.dispositionsWithoutDefault selected) ].
Proof.
  intros selected args. subst args.
  assert (Hfirst : In FirstAudio (outputStreams conversionInfo))
    by (left; reflexivity).
  pose proof (optionValues_stream join this outputFolderPath conversionInfo
                FirstAudio "-metadata:s:" (or_introl eq_refl) Hfirst) as Hm.
  pose proof (optionValues_stream join this outputFolderPath conversionInfo
                FirstAudio "-disposition:" (or_intror eq_refl) Hfirst) as Hd.
  destruct (optionsNamed_streamOptions conversionInfo FirstAudio) as (Em & Ed).
  rewrite Em in Hm. rewrite Ed in Hd. clear Em Ed.
  repeat split.
  - rewrite optionValues_transcoding; [ reflexivity | simpl; tauto ].
  - rewrite optionValues_transcoding; [ reflexivity | simpl; tauto ].
  - rewrite optionValues_transcoding; [ reflexivity | simpl; tauto ].
  - cbn [streamSpecifier] in Hm. change ("-metadata:s:" ++ "a:0")%string
      with "-metadata:s:a:0" in Hm. rewrite Hm.
    unfold metadataOptions, getStreamTitle. fold selected.
    destruct (Stream.language selected); cbn [map snd];
      rewrite !append_assoc; reflexivity.
  - cbn [streamSpecifier dispositionList] in Hd.
    change ("-disposition:" ++ "a:0")%string with "-disposition:a:0" in Hd.
    rewrite Hd. fold selected.
    destruct (Stream.dispositionsWithoutDefault selected); reflexivity.
Qed.

(* ================================================================== *)
(** ** Dispositions of the output streams *)
(* ================================================================== *)

Section Dispositions.

Variable join : list string -> string.

Lemma splitOn_no_separator (sep : ascii) (s : string) :
  ~ In sep (chars s) -> splitOn sep s = [s].
Proof.
  induction s as [| c s IH]; simpl; intros H; [ reflexivity | ].
  destruct (Ascii.eqb_spec c sep) as [-> | Hne]; [ exfalso; auto | ].
  rewrite IH; auto.
Qed.

Lemma splitOn_append (sep : ascii) (s rest : string) :
  ~ In sep (chars s) ->
  splitOn sep (s ++ String sep rest) = s :: splitOn sep rest.
Proof.
  induction s as [| c s IH]; simpl; intros H.
  - now rewrite Ascii.eqb_refl.
  - destruct (Ascii.eqb_spec c sep) as [-> | Hne]; [ exfalso; auto | ].
    rewrite IH; auto.
Qed.

(** The flags of a disposition value are the list it was joined from. *)
Lemma dispositionFlags_join (l : list string) :
  l <> [] ->
  (forall f, In f l -> ~ In "+"%char (chars f)) ->
  dispositionFlags (JS.arrayJoin "+" l) = l.
Proof.
  unfold dispositionFlags, JS.arrayJoin.
  induction l as [| x l IH]; intros Hne Hplus; [ congruence | ].
  destruct l as [| y l].
  - simpl. apply splitOn_no_separator. apply Hplus. now left.
  - change (String.concat "+" (x :: y :: l))
      with (x ++ String "+" (String.concat "+" (y :: l)))%string.
    rewrite splitOn_append by (apply Hplus; now left).
    f_equal. apply IH; [ discriminate | ].
    intros f Hf. apply Hplus. now right.
Qed.

Lemma join_default_prefix (l : list string) :
  String.prefix "default" (JS.arrayJoin "+" ("default" :: l)) = true.
Proof. destruct l; reflexivity. Qed.

Lemma streamOptions_disposition (conversionInfo : ConversionInfo.t)
    (o : OutputStream) (kv : string * string) :
  In kv (streamOptions conversionInfo o) ->
  String.prefix "-disposition:" (fst kv) = true ->
  kv = (("-disposition:" ++ streamSpecifier o)%string,
        JS.arrayJoin "+" (dispositionList conversionInfo o))
  /\ JS.arrayJoin "+" (dispositionList conversionInfo o) <> "".
Proof.
  destruct o; cbn [streamOptions dispositionList streamSpecifier];
    rewrite ?in_app_iff; cbn [In]; intros H Hp;
    repeat match type of H with
      | _ \/ _ => destruct H as [H | H]
      | False => contradiction
      | _ = kv => subst kv; discriminate Hp
      | In _ (metadataOptions _ _ _ _ _) =>
          apply metadataOptions_key in H; rewrite H in Hp; discriminate Hp
      | In _ (dispositionOptions _ _ _) =>
          apply dispositionOptions_key in H; exact H
      end.
Qed.

Lemma optionPairs_mkv (this : Movie) (outputFolderPath : string)
    (conversionInfo : ConversionInfo.t) :
  optionPairs (getMkvOutputArguments join this outputFolderPath conversionInfo)
  = mkvOptions conversionInfo.
Proof.
  rewrite getMkvOutputArguments_options, optionPairs_unpair.
  apply app_nil_r.
Qed.

Lemma optionPairs_optionValues (args : list string) (k v : string) :
  In (k, v) (optionPairs args) -> In v (optionValues k args).
Proof.
  intros H. unfold optionValues. apply in_map_iff. exists (k, v).
  split; [ reflexivity | ]. apply filter_In.
  split; [ exact H | apply String.eqb_refl ].
Qed.

Lemma selectAudioStream_In (l : list AudioStream.t) (answers rest : list string)
    (a : AudioStream.t) :
  selectAudioStream l answers = Some (a, rest) -> In a l.
Proof.
  induction answers as [| ans answers IH]; cbn [selectAudioStream];
    [ discriminate | ].
  destruct (selectAudioStreamRound l ans) as [a' |] eqn:E; [ | exact IH ].
  intros [= <- <-]. unfold selectAudioStreamRound, JS.find in E.
  apply find_some in E. exact (proj1 E).
Qed.

Lemma selectSubtitleStream_In (l : list SubtitleStream.t)
    (answers rest : list string) (s : SubtitleStream.t) :
  selectSubtitleStream l answers = Some (Some s, rest) -> In s l.
Proof.
  induction answers as [| ans answers IH]; cbn [selectSubtitleStream];
    [ discriminate | ].
  destruct (selectSubtitleStreamRound l ans) as [r |] eqn:E; [ | exact IH ].
  intros [= -> <-]. unfold selectSubtitleStreamRound, JS.find in E.
  destruct (String.eqb ans ""); [ discriminate | ].
  destruct (find _ l) as [s'' |] eqn:Ef; [ | discriminate ].
  injection E as <-. apply find_some in Ef. exact (proj1 Ef).
Qed.

(** What [collectConversionInfo] leaves in [conversionInfo]. *)
Lemma collectConversionInfo_plan (this this' : Movie)
    (ffprobeOutput : Ffprobe.FfProbeOutput) (answers rest : list string)
    (plan : ConversionInfo.t) :
  collectConversionInfo this ffprobeOutput answers = Some (this', rest) ->
  conversionInfo this' = Some plan ->
  ConversionInfo.audioStreams plan
  = ContainerInfo.audioStreams (getInputFileMediaInfo ffprobeOutput)
  /\ ConversionInfo.subtitleStreams plan
     = ContainerInfo.subtitleStreams (getInputFileMediaInfo ffprobeOutput)
  /\ In (ConversionInfo.selectedAudioStream plan) (ConversionInfo.audioStreams plan)
  /\ (forall s, ConversionInfo.selectedSubtitleStream plan = Some s ->
        In s (ConversionInfo.subtitleStreams plan)).
Proof.
  unfold collectConversionInfo.
  destruct (selectAudioStream _ answers) as [[a answers1] |] eqn:Ea;
    [ | discriminate ].
  destruct (selectSubtitleStream _ answers1) as [[s answers2] |] eqn:Es;
    [ | discriminate ].
  intros [= <- <-]. cbn [conversionInfo]. intros [= <-].
  cbn [ConversionInfo.audioStreams ConversionInfo.subtitleStreams
       ConversionInfo.selectedAudioStream ConversionInfo.selectedSubtitleStream].
  repeat split.
  - eapply selectAudioStream_In; eauto.
  - intros s' ->. eapply selectSubtitleStream_In; eauto.
Qed.

(** No cataloged stream has ["default"] among its dispositions. *)
Lemma catalog_without_default (ffprobeOutput : Ffprobe.FfProbeOutput) :
  (forall a : AudioStream.t,
     In a (ContainerInfo.audioStreams (getInputFileMediaInfo ffprobeOutput)) ->
     ~ In "default" (Stream.dispositionsWithoutDefault a))
  /\ (forall s : SubtitleStream.t,
        In s (ContainerInfo.subtitleStreams (getInputFileMediaInfo ffprobeOutput)) ->
        ~ In "default" (Stream.dispositionsWithoutDefault s)).
Proof.
  unfold getInputFileMediaInfo.
  cbn [ContainerInfo.audioStreams ContainerInfo.subtitleStreams].
  split; intros x Hin Hd; apply in_flat_map in Hin;
    destruct Hin as ([s c | s | s] & _ & Hin); simpl in Hin;
    try contradiction; destruct Hin as [<- | []];
    cbn [AudioStream.stream streamOfFfprobe Stream.dispositionsWithoutDefault] in Hd;
    apply disposition_list_In in Hd; destruct Hd as (Hd & _); congruence.
Qed.

Lemma outputStreams_copied (conversionInfo : ConversionInfo.t) (o : OutputStream) :
  In o (outputStreams conversionInfo) ->
  o <> FirstAudio ->
  (exists i a, o = CopiedAudio i a
               /\ In a (ConversionInfo.audioStreams conversionInfo))
  \/ (exists i s, o = CopiedSubtitle i s
                  /\ In s (ConversionInfo.subtitleStreams conversionInfo)).
Proof.
  unfold outputStreams. cbn [In]. rewrite in_app_iff, !in_map_iff.
  intros [<- | [((i, a) & <- & Hin) | ((i, s) & <- & Hin)]] Hne;
    [ congruence | left | right ];
    exists i; eexists; (split; [ reflexivity | ]);
    apply (in_map snd) in Hin; now rewrite entries_snd in Hin.
Qed.

End Dispositions.

(** C3. For a plan made by [collectConversionInfo]: every disposition option
    of the primary output belongs to one output stream and its value, which
    is not empty, is the list of flags of that stream joined with ["+"];
    the value of audio stream 0 starts with ["default"]; the list of no
    other output stream has ["default"] in it, so that its value, read back
    as flags, has no ["default"] either when no flag name has a ["+"] in
    it; and an output stream whose list is empty has no disposition option
    at all. *)
Theorem default_disposition_only_on_first_audio
    (join : list string -> string) (this this' : Movie)
    (ffprobeOutput : Ffprobe.FfProbeOutput) (answers rest : list string)
    (plan : ConversionInfo.t) (outputFolderPath : string) :
  collectConversionInfo this ffprobeOutput answers = Some (this', rest) ->
  conversionInfo this' = Some plan ->
  let args := getMkvOutputArguments join this' outputFolderPath plan in
  (forall k v,
      In (k, v) (optionPairs args) ->
      String.prefix "-disposition:" k = true ->
      exists o,
        In o (outputStreams plan)
        /\ k = ("-disposition:" ++ streamSpecifier o)%string
        /\ v = JS.arrayJoin "+" (dispositionList plan o)
        /\ v <> "")
  /\ (forall o,
        In o (outputStreams plan) ->
        optionValues ("-disposition:" ++ streamSpecifier o) args
        = if String.eqb (JS.arrayJoin "+" (dispositionList plan o)) "" then []
          else [ JS.arrayJoin "+" (dispositionList plan o) ])
  /\ (exists d,
        optionValues "-disposition:a:0" args = [ d ]
        /\ d = JS.arrayJoin "+"
                 ("default"
                  :: Stream.dispositionsWithoutDefault
                       (ConversionInfo.selectedAudioStream plan))
        /\ String.prefix "default" d = true)
  /\ (forall o,
        In o (outputStreams plan) ->
        o <> FirstAudio ->
        ~ In "default" (dispositionList plan o)
        /\ ((forall f, In f (dispositionList plan o) -> ~ In "+"%char (chars f)) ->
            forall d,
              In d (optionValues ("-disposition:" ++ streamSpecifier o) args) ->
              ~ In "default" (dispositionFlags d)))
  /\ (forall o,
        In o (outputStreams plan) ->
        dispositionList plan o = [] ->
        optionValues ("-disposition:" ++ streamSpecifier o) args = []
        /\ forall v,
             ~ In (("-disposition:" ++ streamSpecifier o)%string, v)
                  (optionPairs args)).
Proof.
  intros Hcollect Hplan args.
  destruct (collectConversionInfo_plan this this' ffprobeOutput answers rest
              plan Hcollect Hplan) as (Ha & Hs & _ & _).
  destruct (catalog_without_default ffprobeOutput) as (Hna & Hns).
  rewrite <- Ha in Hna. rewrite <- Hs in Hns.
  assert (Hvalues : forall o,
    In o (outputStreams plan) ->
    optionValues ("-disposition:" ++ streamSpecifier o) args
    = if String.eqb (JS.arrayJoin "+" (dispositionList plan o)) "" then []
      else [ JS.arrayJoin "+" (dispositionList plan o) ]).
  { intros o Ho. subst args.
    rewrite (optionValues_stream join this' outputFolderPath plan o
               "-disposition:" (or_intror eq_refl) Ho).
    apply optionsNamed_streamOptions. }
  assert (Hnodefault : forall o,
    In o (outputStreams plan) -> o <> FirstAudio ->
    ~ In "default" (dispositionList plan o)).
  { intros o Ho Hne.
    destruct (outputStreams_copied plan o Ho Hne)
      as [(i & a & -> & Hin) | (i & s & -> & Hin)];
      cbn [dispositionList]; auto. }
  split; [ | split; [ exact Hvalues | split; [ | split ] ] ].
  - intros k v Hin Hprefix. subst args. rewrite optionPairs_mkv in Hin.
    unfold mkvOptions in Hin. rewrite !in_app_iff, !in_map_iff in Hin.
    destruct Hin as [Hin | [(a & E & _) | [(s & E & _) | Hin]]].
    + simpl in Hin.
      destruct Hin as [E | [E | [E | [E | [E | []]]]]];
        injection E as <- <-; discriminate Hprefix.
    + injection E as <- <-. discriminate Hprefix.
    + injection E as <- <-. discriminate Hprefix.
    + apply in_flat_map in Hin. destruct Hin as (o & Ho & Hin).
      destruct (streamOptions_disposition plan o (k, v) Hin Hprefix)
        as (E & Hne).
      injection E as -> ->. exists o. auto.
  - exists (JS.arrayJoin "+"
              ("default"
               :: Stream.dispositionsWithoutDefault
                    (ConversionInfo.selectedAudioStream plan))).
    split; [ | split; [ reflexivity | apply join_default_prefix ] ].
    change (optionValues "-disposition:a:0" args)
      with (optionValues ("-disposition:" ++ streamSpecifier FirstAudio)%string args).
    rewrite (Hvalues FirstAudio (or_introl eq_refl)).
    cbn [dispositionList].
    destruct (Stream.dispositionsWithoutDefault
                (ConversionInfo.selectedAudioStream plan)); reflexivity.
  - intros o Ho Hne. split; [ now apply Hnodefault | ].
    intros Hplus d Hd. rewrite (Hvalues o Ho) in Hd.
    destruct (String.eqb_spec (JS.arrayJoin "+" (dispositionList plan o)) "")
      as [E | E]; [ contradiction | ].
    destruct Hd as [<- | []].
    rewrite dispositionFlags_join; [ now apply Hnodefault | | exact Hplus ].
    intros Hnil. rewrite Hnil in E. now apply E.
  - intros o Ho Hnil.
    assert (Hnone :
      optionValues ("-disposition:" ++ streamSpecifier o) args = []).
    { rewrite (Hvalues o Ho), Hnil. reflexivity. }
    split; [ exact Hnone | ].
    intros v Hin. apply optionPairs_optionValues in Hin.
    rewrite Hnone in Hin. exact Hin.
Qed.

(** C3 on the sample movie, with its audio stream and its subtitle stream
    selected by the answers ["1"] and ["2"]. *)
Lemma default_disposition_only_on_first_audio_sample :
  collectConversionInfo Sample.theMatrix Sample.probed [ "1"; "2" ]
  = Some (Sample.planned, [])
  /\ conversionInfo Sample.planned = Some Sample.plan
  /\ (exists d,
        optionValues "-disposition:a:0"
          (getMkvOutputArguments Sample.join Sample.planned "out" Sample.plan)
        = [ d ]
        /\ d = JS.arrayJoin "+"
                 ("default"
                  :: Stream.dispositionsWithoutDefault
                       (ConversionInfo.selectedAudioStream Sample.plan))
        /\ String.prefix "default" d = true).
Proof.
  split; [ reflexivity | split; [ reflexivity | ] ].
  exact (proj1 (proj2 (proj2
    (default_disposition_only_on_first_audio Sample.join Sample.theMatrix
       Sample.planned Sample.probed [ "1"; "2" ] [] Sample.plan "out"
       eq_refl eq_refl)))).
Defined.

(* ================================================================== *)
(** ** The destination and the secondary output *)
(* ================================================================== *)

Section Paths.

Lemma concat_snoc (sep : string) (l : list string) (f : string) :
  String.concat sep (l ++ [f])
  = match l with
    | [] => f
    | _ :: _ => (String.concat sep l ++ sep ++ f)%string
    end.
Proof.
  induction l as [| x l IH]; [ reflexivity | ].
  destruct l as [| y l].
  - reflexivity.
  - change (String.concat sep ((x :: y :: l) ++ [f]))
      with (x ++ sep ++ String.concat sep ((y :: l) ++ [f]))%string.
    rewrite IH.
    change (String.concat sep (x :: y :: l))
      with (x ++ sep ++ String.concat sep (y :: l))%string.
    now rewrite !append_assoc.
Qed.

Lemma splitOn_nonempty (sep : ascii) (s : string) : splitOn sep s <> [].
Proof.
  destruct s as [| c s]; simpl; [ discriminate | ].
  destruct (Ascii.eqb c sep); [ discriminate | ].
  destruct (splitOn sep s); discriminate.
Qed.

Lemma splitOn_snoc (sep : ascii) (p f : string) :
  ~ In sep (chars f) ->
  splitOn sep (p ++ String sep f) = splitOn sep p ++ [f].
Proof.
  intros Hf. induction p as [| c p IH]; simpl.
  - rewrite Ascii.eqb_refl. now rewrite splitOn_no_separator.
  - destruct (Ascii.eqb c sep); [ now rewrite IH | ].
    rewrite IH. pose proof (splitOn_nonempty sep p) as Hne.
    destruct (splitOn sep p); [ congruence | reflexivity ].
Qed.

Lemma splitOn_segments (sep : ascii) (s : string) :
  Forall (fun x => ~ In sep (chars x)) (splitOn sep s).
Proof.
  induction s as [| c s IH]; simpl.
  - constructor; [ intros [] | constructor ].
  - destruct (Ascii.eqb_spec c sep) as [-> | Hne].
    + constructor; [ intros [] | exact IH ].
    + pose proof (splitOn_nonempty sep s) as Hnil.
      destruct (splitOn sep s) as [| x xs]; [ congruence | ].
      inversion IH as [| ? ? Hx Hxs]; subst.
      constructor; [ | exact Hxs ].
      simpl. intros [H | H]; [ congruence | auto ].
Qed.

Lemma splitOn_concat (sep : ascii) (l : list string) :
  l <> [] ->
  Forall (fun x => ~ In sep (chars x)) l ->
  splitOn sep (String.concat (String sep "") l) = l.
Proof.
  induction l as [| x l IH]; intros Hne Hall; [ congruence | ].
  inversion Hall as [| ? ? Hx Hl]; subst.
  destruct l as [| y l].
  - simpl. now apply splitOn_no_separator.
  - change (String.concat (String sep "") (x :: y :: l))
      with (x ++ String sep (String.concat (String sep "") (y :: l)))%string.
    rewrite splitOn_append by exact Hx.
    f_equal. apply IH; [ discriminate | exact Hl ].
Qed.

Lemma step_name (allowAboveRoot : bool) (res : list string) (f : string) :
  f <> "" -> f <> "." -> f <> ".." ->
  Posix.step allowAboveRoot res f = f :: res.
Proof.
  intros H1 H2 H3. unfold Posix.step.
  apply String.eqb_neq in H1, H2, H3. now rewrite H1, H2, H3.
Qed.

Lemma step_resolved (allowAboveRoot : bool) (res : list string) (segment : string) :
  resolved allowAboveRoot res ->
  ~ In "/"%char (chars segment) ->
  resolved allowAboveRoot (Posix.step allowAboveRoot res segment).
Proof.
  intros Hres Hseg. unfold Posix.step.
  destruct (String.eqb_spec segment "") as [-> | H1]; [ exact Hres | ].
  destruct (String.eqb_spec segment ".") as [-> | H2]; [ exact Hres | ].
  cbn [orb].
  destruct (String.eqb_spec segment "..") as [-> | H3].
  - destruct res as [| last rest].
    + destruct allowAboveRoot; simpl; [ | exact I ].
      repeat split; try discriminate; auto.
    + destruct (String.eqb_spec last "..") as [-> | Hl].
      * destruct allowAboveRoot eqn:Ea; [ | exact Hres ].
        destruct Hres as (Hok & Hup & Hrest).
        cbn [resolved]. repeat split; try discriminate; auto.
        -- constructor; [ reflexivity | ]. now apply Hup.
        -- now apply Hup.
      * now destruct Hres as (_ & _ & Hrest).
  - cbn [resolved]. repeat split; auto; congruence.
Qed.

Lemma fold_resolved (allowAboveRoot : bool) (segments res : list string) :
  resolved allowAboveRoot res ->
  Forall (fun x => ~ In "/"%char (chars x)) segments ->
  resolved allowAboveRoot (fold_left (Posix.step allowAboveRoot) segments res).
Proof.
  revert res. induction segments as [| x l IH]; intros res Hres Hall;
    [ exact Hres | ].
  inversion Hall; subst. cbn [fold_left]. apply IH; [ | assumption ].
  now apply step_resolved.
Qed.

(** Segments that were kept are kept again as they are. *)
Lemma refold (allowAboveRoot : bool) (res : list string) :
  resolved allowAboveRoot res ->
  fold_left (Posix.step allowAboveRoot) (List.rev res) [] = res.
Proof.
  induction res as [| x r IH]; [ reflexivity | ].
  intros ((H1 & H2 & H3) & Hup & Hr). cbn [List.rev].
  rewrite fold_left_app, IH by exact Hr. cbn [fold_left].
  destruct (String.eqb_spec x "..") as [-> | Hx];
    [ | now apply step_name ].
  destruct (Hup eq_refl) as (-> & Hall). unfold Posix.step. cbn.
  destruct r as [| last rest]; [ reflexivity | ].
  inversion Hall; subst. reflexivity.
Qed.

Lemma kept_resolved (args : list string) :
  resolved (negb (fst (kept args))) (snd (kept args)).
Proof.
  unfold kept.
  destruct (filter _ args) as [| a joined]; [ exact I | ].
  cbn [fst snd]. apply fold_resolved; [ exact I | apply splitOn_segments ].
Qed.

Lemma resolved_segments (allowAboveRoot : bool) (res : list string) :
  resolved allowAboveRoot res ->
  Forall (fun x => ~ In "/"%char (chars x)) res
  /\ Forall (fun x => x <> "") res.
Proof.
  induction res as [| x r IH]; [ intros _; split; constructor | ].
  intros ((H1 & H2 & H3) & _ & Hr). destruct (IH Hr).
  split; constructor; assumption.
Qed.

Lemma isAbsolute_append (p q : string) :
  p <> "" -> Posix.isAbsolute (p ++ q) = Posix.isAbsolute p.
Proof. destruct p; [ congruence | reflexivity ]. Qed.

Lemma endsWithSeparator_append (p f : string) :
  f <> "" -> Posix.endsWithSeparator (p ++ f) = Posix.endsWithSeparator f.
Proof.
  intros Hf. induction p as [| c p IH]; [ reflexivity | ].
  simpl. rewrite IH. destruct (p ++ f)%string eqn:E; [ | reflexivity ].
  destruct p; simpl in E; congruence.
Qed.

Lemma endsWithSeparator_name (f : string) :
  ~ In "/"%char (chars f) -> Posix.endsWithSeparator f = false.
Proof.
  induction f as [| c f IH]; [ reflexivity | ].
  simpl. intros H. destruct f as [| d f].
  - apply Ascii.eqb_neq. intros ->. apply H. now left.
  - apply IH. intros Hin. apply H. now right.
Qed.


Lemma isAbsolute_name (f : string) :
  ~ In "/"%char (chars f) -> Posix.isAbsolute f = false.
Proof.
  destruct f as [| c f]; [ reflexivity | ]. simpl. intros H.
  apply Ascii.eqb_neq. intros ->. apply H. now left.
Qed.

Lemma append_nonempty (p q : string) : q <> "" -> (p ++ q)%string <> "".
Proof. destruct p; simpl; [ auto | discriminate ]. Qed.

Lemma render_cons (isAbsolute : bool) (res : list string) (f : string) :
  render isAbsolute (f :: res)
  = match res with
    | [] => ((if isAbsolute then "/" else "") ++ f)%string
    | _ :: _ => (render isAbsolute res ++ "/" ++ f)%string
    end.
Proof.
  unfold render, JS.arrayJoin. cbn [List.rev]. rewrite concat_snoc.
  destruct res as [| x r]; [ reflexivity | ].
  destruct (List.rev (x :: r)) eqn:E.
  - apply (f_equal (@List.length string)) in E.
    rewrite length_rev in E. discriminate E.
  - now rewrite append_assoc.
Qed.

Lemma render_folderOf (args : list string) (f : string) :
  render (fst (kept args)) (f :: snd (kept args)) = (folderOf args ++ f)%string.
Proof.
  unfold folderOf. rewrite render_cons.
  destruct (kept args) as (isAbsolute, [| x r]); cbn [fst snd];
    [ reflexivity | now rewrite append_assoc ].
Qed.

(** The path normalised of a path that ends with a name. *)
Lemma normalize_name (path f : string) :
  isName f ->
  path = f \/ (exists p, p <> "" /\ path = (p ++ "/" ++ f)%string) ->
  forall res,
    fold_left (Posix.step (negb (Posix.isAbsolute path))) (splitOn "/" path) []
    = f :: res ->
    Posix.normalize path = render (Posix.isAbsolute path) (f :: res).
Proof.
  intros (H1 & H2 & H3 & H4) Hpath res Hfold. unfold Posix.normalize.
  assert (Hne : path <> "").
  { destruct Hpath as [-> | (p & Hp & ->)]; [ exact H1 | ].
    now apply append_nonempty, append_nonempty. }
  assert (Htrail : Posix.endsWithSeparator path = false).
  { destruct Hpath as [-> | (p & Hp & ->)].
    - now apply endsWithSeparator_name.
    - rewrite <- append_assoc, endsWithSeparator_append by exact H1.
      now apply endsWithSeparator_name. }
  apply String.eqb_neq in Hne. rewrite Hne. cbv zeta.
  unfold Posix.normalizeString. rewrite Hfold, Htrail.
  assert (Hjoined : JS.arrayJoin "/" (List.rev (f :: res)) <> "").
  { unfold JS.arrayJoin. cbn [List.rev]. rewrite concat_snoc.
    destruct (List.rev res); [ exact H1 | ].
    now apply append_nonempty, append_nonempty. }
  apply String.eqb_neq in Hjoined. rewrite Hjoined.
  unfold render. now destruct (Posix.isAbsolute path).
Qed.

(** [join] of arguments of which the last one is a name: the name follows
    the folder of the arguments before it. *)
Lemma join_name (args : list string) (f : string) :
  isName f ->
  Posix.join (args ++ [f]) = (folderOf args ++ f)%string
  /\ kept (args ++ [f]) = (fst (kept args), f :: snd (kept args)).
Proof.
  intros Hname. pose proof Hname as (H1 & H2 & H3 & H4).
  rewrite <- render_folderOf.
  unfold Posix.join, kept. rewrite filter_app. cbn [filter].
  assert (Hlen : Nat.ltb 0 (String.length f) = true).
  { destruct f; [ congruence | reflexivity ]. }
  rewrite Hlen.
  destruct (filter _ args) as [| a joined] eqn:Ef.
  - change (@nil string ++ [f]) with [f]. cbv beta iota. cbn [fst snd].
    change (JS.arrayJoin "/" [f]) with f.
    assert (Hfold : fold_left (Posix.step (negb (Posix.isAbsolute f)))
                      (splitOn "/" f) [] = [f]).
    { rewrite splitOn_no_separator by exact H4. cbn [fold_left].
      now apply step_name. }
    rewrite (normalize_name f f Hname (or_introl eq_refl) [] Hfold).
    rewrite Hfold. now rewrite isAbsolute_name.
  - set (p := JS.arrayJoin "/" (a :: joined)).
    assert (Hp : p <> "").
    { assert (Ha : a <> "").
      { assert (Hin : In a (filter (fun arg => Nat.ltb 0 (String.length arg)) args))
          by (rewrite Ef; now left).
        apply filter_In in Hin. destruct Hin as (_ & Hin).
        intros ->. discriminate Hin. }
      subst p. unfold JS.arrayJoin. cbn [String.concat].
      destruct joined; [ exact Ha | ].
      destruct a; [ congruence | discriminate ]. }
    assert (Hjoin : JS.arrayJoin "/" ((a :: joined) ++ [f])
                    = (p ++ "/" ++ f)%string).
    { unfold JS.arrayJoin. rewrite concat_snoc. reflexivity. }
    change ((a :: joined) ++ [f]) with (a :: (joined ++ [f])) in *.
    cbv beta iota. rewrite Hjoin.
    assert (Habs : Posix.isAbsolute (p ++ "/" ++ f) = Posix.isAbsolute p)
      by now apply isAbsolute_append.
    assert (Hfold :
      fold_left (Posix.step (negb (Posix.isAbsolute (p ++ "/" ++ f))))
        (splitOn "/" (p ++ "/" ++ f)) []
      = f :: fold_left (Posix.step (negb (Posix.isAbsolute p)))
               (splitOn "/" p) []).
    { rewrite Habs.
      change (p ++ "/" ++ f)%string with (p ++ String "/" f)%string.
      rewrite splitOn_snoc by exact H4.
      rewrite fold_left_app. cbn [fold_left]. now apply step_name. }
    rewrite (normalize_name _ f Hname
               (or_intror (ex_intro _ p (conj Hp eq_refl))) _ Hfold).
    rewrite Hfold, Habs. cbn [fst snd]. split; reflexivity.
Qed.

Lemma isAbsolute_concat (l : list string) :
  Forall (fun x => ~ In "/"%char (chars x)) l ->
  Forall (fun x => x <> "") l ->
  Posix.isAbsolute (String.concat "/" l) = false.
Proof.
  destruct l as [| x l]; [ reflexivity | ].
  intros Hsep Hne. inversion Hsep; inversion Hne; subst.
  destruct l as [| y l]; simpl; [ now apply isAbsolute_name | ].
  rewrite isAbsolute_append by assumption. now apply isAbsolute_name.
Qed.

(** A path that [join] has made is kept as it is. *)
Lemma kept_rendered (isAbsolute : bool) (res : list string) (f : string) :
  isName f ->
  resolved (negb isAbsolute) res ->
  kept [ render isAbsolute (f :: res) ] = (isAbsolute, f :: res).
Proof.
  intros Hname Hres. pose proof Hname as (H1 & H2 & H3 & H4).
  assert (Hall : resolved (negb isAbsolute) (f :: res)).
  { cbn [resolved]. repeat split; auto; congruence. }
  destruct (resolved_segments _ _ Hall) as (Hsep & Hne).
  apply Forall_rev in Hsep, Hne.
  assert (Hnil : List.rev (f :: res) <> []).
  { cbn [List.rev]. destruct (List.rev res); discriminate. }
  assert (Hjoined : String.concat "/" (List.rev (f :: res)) <> "").
  { cbn [List.rev]. rewrite concat_snoc.
    destruct (List.rev res); [ exact H1 | ].
    now apply append_nonempty, append_nonempty. }
  assert (Hrendered : render isAbsolute (f :: res) <> "").
  { unfold render, JS.arrayJoin. now apply append_nonempty. }
  unfold kept. cbn [filter].
  assert (Hlen : Nat.ltb 0 (String.length (render isAbsolute (f :: res))) = true).
  { destruct (render isAbsolute (f :: res)); [ congruence | reflexivity ]. }
  rewrite Hlen.
  change (JS.arrayJoin "/" [ render isAbsolute (f :: res) ])
    with (render isAbsolute (f :: res)).
  cbv beta iota zeta.
  assert (Habs : Posix.isAbsolute (render isAbsolute (f :: res)) = isAbsolute).
  { unfold render, JS.arrayJoin. destruct isAbsolute; [ reflexivity | ].
    now apply isAbsolute_concat. }
  rewrite Habs. f_equal.
  assert (Hsplit : fold_left (Posix.step (negb isAbsolute))
                     (splitOn "/" (render isAbsolute (f :: res))) []
                   = fold_left (Posix.step (negb isAbsolute))
                       (List.rev (f :: res)) []).
  { unfold render, JS.arrayJoin. destruct isAbsolute.
    - change ("/" ++ String.concat "/" (List.rev (f :: res)))%string
        with (String "/" (String.concat "/" (List.rev (f :: res)))).
      cbn [splitOn]. rewrite Ascii.eqb_refl.
      rewrite (splitOn_concat "/") by assumption. reflexivity.
    - change ("" ++ String.concat "/" (List.rev (f :: res)))%string
        with (String.concat "/" (List.rev (f :: res))).
      now rewrite (splitOn_concat "/") by assumption. }
  rewrite Hsplit. now apply refold.
Qed.

(** A name joined to a path that ends with a name is an entry of that
    folder. *)
Lemma join_entry (args : list string) (f g : string) :
  isName f -> isName g ->
  Posix.join [ Posix.join (args ++ [f]); g ]
  = (Posix.join (args ++ [f]) ++ "/" ++ g)%string
  /\ folderOf (args ++ [f]) = (Posix.join (args ++ [f]) ++ "/")%string.
Proof.
  intros Hf Hg.
  destruct (join_name args f Hf) as (Hjoin & Hkept).
  rewrite <- render_folderOf in Hjoin.
  assert (Hfolder : folderOf (args ++ [f])
                    = (Posix.join (args ++ [f]) ++ "/")%string).
  { unfold folderOf. now rewrite Hkept, Hjoin. }
  split; [ | exact Hfolder ].
  destruct (join_name [ Posix.join (args ++ [f]) ] g Hg) as (Hentry & _).
  change ([ Posix.join (args ++ [f]) ] ++ [g])
    with [ Posix.join (args ++ [f]); g ] in Hentry.
  rewrite Hentry. unfold folderOf at 1. rewrite Hjoin at 1.
  rewrite kept_rendered by (auto using kept_resolved).
  rewrite <- Hjoin. now rewrite append_assoc.
Qed.



Lemma name_with_space (f : string) :
  In " "%char (chars f) -> ~ In "/"%char (chars f) -> isName f.
Proof.
  intros Hspace Hsep. repeat split; try exact Hsep; intros ->; simpl in Hspace.
  - contradiction.
  - destruct Hspace as [H | []]. discriminate H.
  - destruct Hspace as [H | [H | []]]; discriminate H.
Qed.

Lemma safe_name_no_separator (this : Movie) (c : ascii) :
  In c (chars (getFullyQualifiedName this true)) -> c <> "/"%char.
Proof.
  unfold getFullyQualifiedName. rewrite !chars_app, !in_app_iff. simpl.
  intros [H | [[<- | [<- | []]] | [H | [<- | []]]]]; try discriminate.
  - rewrite chars_removeUnsafe in H. apply filter_In in H.
    destruct H as (_ & H). intros ->. discriminate H.
  - apply toString_chars in H. destruct H as [H | [-> | ->]];
      try discriminate. intros ->. discriminate H.
Qed.

Lemma safe_name_space (this : Movie) :
  In " "%char (chars (getFullyQualifiedName this true)).
Proof.
  unfold getFullyQualifiedName. rewrite !chars_app, !in_app_iff. simpl. auto.
Qed.

(** The names of the folder of a movie and of its two files. *)
Lemma output_names (this : Movie) (language : string) :
  let name := getFullyQualifiedName this true in
  isName name
  /\ isName (name ++ ".mkv")
  /\ (~ In "/"%char (chars language) ->
      isName (name ++ "." ++ language ++ ".srt")).
Proof.
  intros name.
  assert (Hsep : ~ In "/"%char (chars name)).
  { intros H. now apply safe_name_no_separator in H. }
  pose proof (safe_name_space this) as Hspace. fold name in Hspace.
  split; [ now apply name_with_space | split ].
  - apply name_with_space; rewrite chars_app, in_app_iff; [ now left | ].
    intros [H | H]; [ auto | ]. simpl in H.
    repeat (destruct H as [H | H]; [ discriminate H | ]). contradiction.
  - intros Hl. apply name_with_space; rewrite !chars_app, !in_app_iff;
      [ now left | ].
    simpl. intros [H | [[H | []] | [H | H]]]; auto; try discriminate H.
    repeat (destruct H as [H | H]; [ discriminate H | ]). contradiction.
Qed.

End Paths.



Example the_matrix_destinations :
  last (getMkvOutputArguments Sample.join Sample.planned "out" Sample.plan) ""
  = "out/ready/The Matrix (1999)/The Matrix (1999).mkv"
  /\ getSrtOutputArguments Sample.join Sample.planned "out" Sample.plan
     = [ "-map"; "0:2"; "out/ready/The Matrix (1999)/The Matrix (1999).eng.srt" ].
Proof. vm_compute. split; reflexivity. Qed.

(* ================================================================== *)
(** ** The progress monitor *)
(* ================================================================== *)


Section MonitorFacts.

Lemma stripPrefix_sound (literal s rest : string) :
  stripPrefix literal s = Some rest -> s = (literal ++ rest)%string.
Proof.
  revert s. induction literal as [| a literal IH]; intros s; simpl.
  - now intros [= ->].
  - destruct s as [| b s]; [ discriminate | ].
    destruct (Ascii.eqb_spec a b) as [-> | _]; [ | discriminate ].
    intros H. now rewrite (IH s H).
Qed.

Lemma stripPrefix_complete (literal rest : string) :
  stripPrefix literal (literal ++ rest) = Some rest.
Proof.
  induction literal as [| a literal IH]; simpl; [ reflexivity | ].
  now rewrite Ascii.eqb_refl.
Qed.

Lemma dotRun_sound (s v rest : string) :
  dotRun s = (v, rest) ->
  s = (v ++ rest)%string
  /\ (forall c, In c (chars v) -> JS.isLineTerminator c = false).
Proof.
  revert v rest. induction s as [| c s IH]; intros v rest; simpl.
  - intros [= <- <-]. split; [ reflexivity | intros c [] ].
  - destruct (JS.isLineTerminator c) eqn:Ec.
    + intros [= <- <-]. split; [ reflexivity | intros c' [] ].
    + destruct (dotRun s) as [v' rest'] eqn:E. intros [= <- <-].
      destruct (IH v' rest' eq_refl) as (-> & Hv). split; [ reflexivity | ].
      simpl. intros c' [<- | H]; auto.
Qed.

Lemma dotRun_complete (v after : string) :
  (forall c, In c (chars v) -> JS.isLineTerminator c = false) ->
  dotRun (v ++ String "010" after) = (v, String "010" after).
Proof.
  induction v as [| c v IH]; simpl; intros H; [ reflexivity | ].
  rewrite (H c (or_introl eq_refl)), IH; auto.
Qed.

Lemma matchAt_sound (literal s v : string) :
  matchAt literal s = Some v ->
  exists after,
    s = (literal ++ v ++ String "010" after)%string
    /\ v <> ""
    /\ (forall c, In c (chars v) -> JS.isLineTerminator c = false).
Proof.
  unfold matchAt.
  destruct (stripPrefix literal s) as [s' |] eqn:Es; [ | discriminate ].
  destruct (dotRun s') as [[| c v'] [| nl after]] eqn:Ed; try discriminate.
  destruct (Ascii.eqb_spec nl "010") as [-> | _]; [ | discriminate ].
  intros [= <-]. apply stripPrefix_sound in Es.
  apply dotRun_sound in Ed. destruct Ed as (-> & Hv).
  exists after. split; [ exact Es | split; [ discriminate | exact Hv ] ].
Qed.

Lemma matchAt_complete (literal v after : string) :
  v <> "" ->
  (forall c, In c (chars v) -> JS.isLineTerminator c = false) ->
  matchAt literal (literal ++ v ++ String "010" after) = Some v.
Proof.
  intros Hne Hv. unfold matchAt.
  rewrite stripPrefix_complete, dotRun_complete by exact Hv.
  destruct v; [ congruence | reflexivity ].
Qed.

(** The regular expression matches exactly the chunks that have the line. *)
Lemma regexMatch_HasLine (literal data : string) :
  (exists v, regexMatch literal data = Some v) <-> HasLine literal data.
Proof.
  split.
  - intros (v & H). induction data as [| c data IH].
    + simpl in H. destruct (matchAt literal "") as [v' |] eqn:E; [ | discriminate ].
      apply matchAt_sound in E. destruct E as (after & E & Hne & Hv).
      exists "", v', after. auto.
    + simpl in H. destruct (matchAt literal (String c data)) as [v' |] eqn:E.
      * apply matchAt_sound in E. destruct E as (after & E & Hne & Hv).
        exists "", v', after. auto.
      * destruct (IH H) as (before & v' & after & E' & Hne & Hv).
        exists (String c before), v', after. split; [ | auto ].
        simpl. now rewrite E'.
  - intros (before & v & after & -> & Hne & Hv).
    induction before as [| c before IH].
    + exists v. simpl append.
      destruct (literal ++ v ++ String "010" after)%string eqn:E;
        simpl; rewrite <- E, matchAt_complete; auto.
    + simpl append. simpl regexMatch.
      destruct (matchAt literal _) as [v' |]; [ now exists v' | exact IH ].
Qed.

Lemma regexMatch_None (literal data : string) :
  regexMatch literal data = None <-> ~ HasLine literal data.
Proof.
  rewrite <- regexMatch_HasLine. split.
  - intros H (v & E). congruence.
  - intros H. destruct (regexMatch literal data) as [v |]; [ | reflexivity ].
    exfalso. apply H. now exists v.
Qed.

End MonitorFacts.

Section MonitorProofs.

Variable stringToNumber : string -> float.
Variable toFixed : float -> Z -> string.

Lemma previouslyLogged_skip (history : list (option string)) :
  previouslyLogged (history ++ [None]) = previouslyLogged history.
Proof.
  unfold previouslyLogged. rewrite flat_map_app. simpl. now rewrite app_nil_r.
Qed.

Lemma previouslyLogged_log (history : list (option string)) (rounded : string) :
  previouslyLogged (history ++ [Some rounded]) = rounded.
Proof.
  unfold previouslyLogged. rewrite flat_map_app. simpl. apply last_last.
Qed.

(** The variable [roundedProgressPercentage] of a run holds the percentage
    logged last, whatever the events. *)
Lemma listen_reads (this : Movie) (currentFileIndex allFilesCount : Z)
    (containerDurationSeconds : float) (events : list ProcessEvent)
    (chunks : list Progress) :
  Reads events chunks ->
  forall (run : Running) (history : list (option string)),
    roundedProgressPercentage run = previouslyLogged history ->
    exists this' run',
      listen stringToNumber toFixed this currentFileIndex allFilesCount
        containerDurationSeconds run events
      = JS.Normal (this', run')
      /\ console run'
         = console run
           ++ logLines this currentFileIndex allFilesCount chunks
                (decisions stringToNumber toFixed containerDurationSeconds
                   history chunks)
      /\ roundedProgressPercentage run'
         = previouslyLogged
             (history
              ++ decisions stringToNumber toFixed containerDurationSeconds
                   history chunks).
Proof.
  induction 1 as [| data p events chunks Hus Hspeed Hreads IH
                  | data events chunks Hreads IH
                  | exitCode events ];
    intros run history Hinv.
  - exists this, run. simpl. now rewrite !app_nil_r.
  - cbn [listen decisions logLines]. unfold onStdoutData.
    rewrite Hus, Hspeed. unfold loggedFor.
    fold (notMeaningful p).
    destruct (notMeaningful p) eqn:Ena.
    + cbn [JS.bind].
      destruct (IH run (history ++ [None])) as (this' & run' & El & Ec & Er).
      { now rewrite previouslyLogged_skip. }
      exists this', run'. rewrite <- app_assoc in Er. auto.
    + unfold getRoundedProgressPercentage.
      fold (percentage stringToNumber toFixed containerDurationSeconds p).
      rewrite Hinv.
      destruct (String.eqb (percentage stringToNumber toFixed
                              containerDurationSeconds p)
                  (previouslyLogged history)) eqn:Eeq; cbn [negb JS.bind].
      * destruct (IH run (history ++ [None])) as (this' & run' & El & Ec & Er).
        { now rewrite previouslyLogged_skip. }
        exists this', run'. rewrite <- app_assoc in Er. auto.
      * match goal with
        | |- context [ listen _ _ _ _ _ _ ?r events ] =>
            destruct (IH r (history
                            ++ [Some (percentage stringToNumber toFixed
                                        containerDurationSeconds p)]))
              as (this' & run' & El & Ec & Er)
        end.
        { cbn [roundedProgressPercentage]. now rewrite previouslyLogged_log. }
        exists this', run'. cbn [console] in Ec.
        rewrite <- app_assoc in Ec, Er. auto.
  - cbn [listen].
    destruct (IH (onStderrData run data) history) as (this' & run' & El & Ec & Er).
    { exact Hinv. }
    exists this', run'. auto.
  - exists (onClose this run exitCode), run. simpl. now rewrite !app_nil_r.
Qed.

Lemma loggedFor_Some (containerDurationSeconds : float)
    (history : list (option string)) (p : Progress) (rounded : string) :
  loggedFor stringToNumber toFixed containerDurationSeconds history p = Some rounded
  <-> (notMeaningful p = false
       /\ rounded = percentage stringToNumber toFixed containerDurationSeconds p
       /\ rounded <> previouslyLogged history).
Proof.
  unfold loggedFor. destruct (notMeaningful p).
  - split; [ discriminate | intros (H & _); discriminate H ].
  - destruct (String.eqb_spec
                (percentage stringToNumber toFixed containerDurationSeconds p)
                (previouslyLogged history)) as [E | E].
    + split; [ discriminate | intros (_ & -> & H); contradiction ].
    + split.
      * intros [= <-]. auto.
      * intros (_ & -> & _). reflexivity.
Qed.

End MonitorProofs.

(** C9. The listener of the progress channel returns on the chunks that have
    both a line [out_time_us=<value>] and a line [speed=<value>], and on no
    other: on a chunk that lacks one of them it throws the error of reading
    a property of [null], and the run of the listeners ends with that error. *)
Theorem progress_listener_needs_both_lines
    (stringToNumber : string -> float) (toFixed : float -> Z -> string)
    (this : Movie) (currentFileIndex allFilesCount : Z)
    (containerDurationSeconds : float) (run : Running) (data : string) :
  ((HasLine "out_time_us=" data /\ HasLine "speed=" data)
   <-> exists run',
         onStdoutData stringToNumber toFixed this currentFileIndex
           allFilesCount containerDurationSeconds run data
         = JS.Normal run')
  /\ (~ (HasLine "out_time_us=" data /\ HasLine "speed=" data)
      <-> onStdoutData stringToNumber toFixed this currentFileIndex
            allFilesCount containerDurationSeconds run data
          = JS.Throw nullMatchError)
  /\ (forall events,
        ~ (HasLine "out_time_us=" data /\ HasLine "speed=" data) ->
        listen stringToNumber toFixed this currentFileIndex allFilesCount
          containerDurationSeconds run (StdoutData data :: events)
        = JS.Throw nullMatchError).
Proof.
  assert (Hcases :
    (HasLine "out_time_us=" data /\ HasLine "speed=" data
     /\ exists run',
          onStdoutData stringToNumber toFixed this currentFileIndex
            allFilesCount containerDurationSeconds run data
          = JS.Normal run')
    \/ (~ (HasLine "out_time_us=" data /\ HasLine "speed=" data)
        /\ onStdoutData stringToNumber toFixed this currentFileIndex
             allFilesCount containerDurationSeconds run data
           = JS.Throw nullMatchError)).
  { unfold onStdoutData.
    destruct (regexMatch "out_time_us=" data) as [us |] eqn:Eus.
    - destruct (regexMatch "speed=" data) as [sp |] eqn:Esp.
      + left. split; [ apply regexMatch_HasLine; eauto | ].
        split; [ apply regexMatch_HasLine; eauto | ].
        destruct (String.eqb us "N/A" || String.eqb sp "N/A")%bool;
          [ eauto | ].
        destruct (negb _); eauto.
      + right. split; [ | reflexivity ].
        apply regexMatch_None in Esp. tauto.
    - right. split; [ | reflexivity ].
      apply regexMatch_None in Eus. tauto. }
  split; [ | split ].
  - destruct Hcases as [(H1 & H2 & Hn) | (Hno & Ht)].
    + tauto.
    + split; [ tauto | ]. intros (run' & E). congruence.
  - destruct Hcases as [(H1 & H2 & (run' & Hn)) | (Hno & Ht)].
    + split; [ tauto | ]. intros E. congruence.
    + tauto.
  - intros events Hno. cbn [listen].
    destruct Hcases as [(H1 & H2 & _) | (_ & ->)]; [ tauto | reflexivity ].
Qed.

(** C7. For a movie with a plan, and a child process whose chunks all have
    both lines: [convert] does not throw, and its console has, in the order
    of the chunks, one line for every chunk that is logged. A chunk of
    which a value is ["N/A"] is not logged; another chunk is logged exactly
    when its percentage, [(out_time_us / 1e6) / duration * 100] rounded to 2
    decimal places, is not the percentage logged last, ["0.00"] before the
    first log. So of two chunks in a row with one rounded percentage the
    second is never logged. *)
Theorem progress_logged_when_percentage_changes
    (join : list string -> string) (stringToNumber : string -> float)
    (toFixed : float -> Z -> string)
    (this : Movie) (outputFolderPath ffmpegBinaryPath : string)
    (currentFileIndex allFilesCount : Z) (plan : ConversionInfo.t)
    (events : list ProcessEvent) (chunks : list Progress) :
  conversionInfo this = Some plan ->
  toFixed 0%float 2%Z = "0.00" ->
  Reads events chunks ->
  let duration := ConversionInfo.containerDurationSeconds plan in
  let logged := decisions stringToNumber toFixed duration [] chunks in
  (exists ffmpeg this' run,
      convert join stringToNumber toFixed this outputFolderPath
        ffmpegBinaryPath currentFileIndex allFilesCount events
      = JS.Normal (ffmpeg, this', run)
      /\ console run = logLines this currentFileIndex allFilesCount chunks logged
      /\ roundedProgressPercentage run = previouslyLogged logged)
  /\ previouslyLogged [] = "0.00"
  /\ (forall history p,
        notMeaningful p = true ->
        loggedFor stringToNumber toFixed duration history p = None)
  /\ (forall history p rounded,
        loggedFor stringToNumber toFixed duration history p = Some rounded
        <-> (notMeaningful p = false
             /\ rounded = percentage stringToNumber toFixed duration p
             /\ rounded <> previouslyLogged history))
  /\ (forall history p p',
        notMeaningful p = false ->
        percentage stringToNumber toFixed duration p'
        = percentage stringToNumber toFixed duration p ->
        loggedFor stringToNumber toFixed duration
          (history ++ [ loggedFor stringToNumber toFixed duration history p ]) p'
        = None).
Proof.
  intros Hplan Hzero Hreads duration logged.
  split; [ | split; [ reflexivity | split; [ | split ] ] ].
  - unfold convert. rewrite Hplan.
    match goal with
    | |- context [ listen _ _ _ _ _ _ ?r events ] =>
        destruct (listen_reads stringToNumber toFixed this currentFileIndex
                    allFilesCount duration events chunks Hreads r [])
          as (this' & run' & El & Ec & Er)
    end.
    { cbn [roundedProgressPercentage]. unfold getRoundedProgressPercentage.
      change (0 * 100)%float with 0%float. exact Hzero. }
    fold duration. rewrite El. cbn [JS.bind].
    eexists. exists this', run'. split; [ reflexivity | ].
    cbn [console app] in Ec. auto.
  - intros history p Hna. unfold loggedFor. now rewrite Hna.
  - intros history p rounded. apply loggedFor_Some.
  - intros history p p' Hna Hsame. unfold loggedFor at 1.
    destruct (notMeaningful p'); [ reflexivity | ].
    rewrite Hsame.
    destruct (loggedFor stringToNumber toFixed duration history p)
      as [rounded |] eqn:E.
    + apply loggedFor_Some in E. destruct E as (_ & -> & _).
      now rewrite previouslyLogged_log, String.eqb_refl.
    + rewrite previouslyLogged_skip. unfold loggedFor in E. rewrite Hna in E.
      destruct (String.eqb (percentage stringToNumber toFixed duration p)
                  (previouslyLogged history)); [ reflexivity | discriminate ].
Qed.

(** C7 on the sample movie and the sample child process. *)
Lemma progress_logged_when_percentage_changes_sample :
  conversionInfo Sample.planned = Some Sample.plan
  /\ Sample.toFixed 0%float 2%Z = "0.00"
  /\ Reads Sample.events Sample.chunks
  /\ exists ffmpeg this' run,
       convert Sample.join Sample.stringToNumber Sample.toFixed Sample.planned
         "out" "/usr/local/bin/ffmpeg" 1 1 Sample.events
       = JS.Normal (ffmpeg, this', run)
       /\ console run
          = logLines Sample.planned 1 1 Sample.chunks
              (decisions Sample.stringToNumber Sample.toFixed
                 (ConversionInfo.containerDurationSeconds Sample.plan) []
                 Sample.chunks)
       /\ roundedProgressPercentage run
          = previouslyLogged
              (decisions Sample.stringToNumber Sample.toFixed
                 (ConversionInfo.containerDurationSeconds Sample.plan) []
                 Sample.chunks).
Proof.
  assert (Hreads : Reads Sample.events Sample.chunks).
  { unfold Sample.events, Sample.chunks.
    apply Reads_stdout; [ reflexivity | reflexivity | ].
    apply Reads_stdout; [ reflexivity | reflexivity | ].
    apply Reads_stderr.
    apply Reads_stdout; [ reflexivity | reflexivity | ].
    apply Reads_stdout; [ reflexivity | reflexivity | ].
    apply Reads_close. }
  split; [ reflexivity | split; [ reflexivity | split; [ exact Hreads | ] ] ].
  exact (proj1
    (progress_logged_when_percentage_changes Sample.join Sample.stringToNumber
       Sample.toFixed Sample.planned "out" "/usr/local/bin/ffmpeg" 1 1
       Sample.plan Sample.events Sample.chunks eq_refl eq_refl Hreads)).
Defined.

Example sample_console :
  convert Sample.join Sample.stringToNumber Sample.toFixed Sample.planned
    "out" "/usr/local/bin/ffmpeg" 1 1 Sample.events
  = JS.Normal
      ({| madeFolder := "out/ready/The Matrix (1999)";
          binary := "/usr/local/bin/ffmpeg";
          arguments :=
            [ "-hide_banner"; "-loglevel"; "warning"; "-nostats";
              "-progress"; "pipe:1"; "-y";
              "-i"; "./downloaded/The Matrix (1999)/The Matrix (1999).mkv" ]
            ++ getMkvOutputArguments Sample.join Sample.planned "out" Sample.plan
            ++ getSrtOutputArguments Sample.join Sample.planned "out" Sample.plan |},
       {| title := "The Matrix";
          year := 1999%float;
          inputFilePath := "./downloaded/The Matrix (1999)/The Matrix (1999).mkv";
          conversionInfo := Some Sample.plan;
          conversionResult :=
            Some {| ConversionResult.successful := true;
                    ConversionResult.stderr := "warning" |} |},
       {| roundedProgressPercentage := "50.00";
          stderr := "warning";
          console :=
            [ "[1 / 1] The Matrix (1999) [5.00% at 1.5x]";
              "[1 / 1] The Matrix (1999) [50.00% at 2x]" ] |}).
Proof. vm_compute. reflexivity. Qed.

(* ================================================================== *)
(** ** Calls out of sequence *)
(* ================================================================== *)

Section Sequence.

Variable stringToNumber : string -> float.
Variable toFixed : float -> Z -> string.

(** Before the child process terminates the listeners leave the instance as
    it is. *)
Lemma listen_running (this this' : Movie) (currentFileIndex allFilesCount : Z)
    (containerDurationSeconds : float) (events : list ProcessEvent) :
  (forall exitCode, ~ In (Close exitCode) events) ->
  forall run run',
    listen stringToNumber toFixed this currentFileIndex allFilesCount
      containerDurationSeconds run events
    = JS.Normal (this', run') ->
    this' = this.
Proof.
  induction events as [| [data | data | exitCode] events IH];
    intros Hrunning run run'; cbn [listen].
  - now intros [= <- _].
  - destruct (onStdoutData _ _ _ _ _ _ run data) as [run1 | message];
      cbn [JS.bind]; [ | discriminate ].
    apply IH. intros exitCode H. apply (Hrunning exitCode). now right.
  - apply IH. intros exitCode H. apply (Hrunning exitCode). now right.
  - exfalso. apply (Hrunning exitCode). now left.
Qed.

(** On its termination the result is set, from the exit code and from what
    was read on the diagnostic channel. *)
Lemma listen_closed (this this' : Movie) (currentFileIndex allFilesCount : Z)
    (containerDurationSeconds : float) (before after : list ProcessEvent)
    (exitCode : option Z) :
  (forall code, ~ In (Close code) before) ->
  forall run run',
    listen stringToNumber toFixed this currentFileIndex allFilesCount
      containerDurationSeconds run (before ++ Close exitCode :: after)
    = JS.Normal (this', run') ->
    this' = onClose this run' exitCode.
Proof.
  induction before as [| [data | data | code] before IH];
    intros Hrunning run run'; rewrite <- ?app_comm_cons; cbn [listen app].
  - now intros [= <- <-].
  - destruct (onStdoutData _ _ _ _ _ _ run data) as [run1 | message];
      cbn [JS.bind]; [ | discriminate ].
    apply IH. intros code H. apply (Hrunning code). now right.
  - apply IH. intros code H. apply (Hrunning code). now right.
  - exfalso. apply (Hrunning code). now left.
Qed.

Lemma collectConversionInfo_result (this this' : Movie)
    (ffprobeOutput : Ffprobe.FfProbeOutput) (answers rest : list string) :
  collectConversionInfo this ffprobeOutput answers = Some (this', rest) ->
  conversionResult this' = conversionResult this
  /\ exists plan, conversionInfo this' = Some plan.
Proof.
  unfold collectConversionInfo.
  destruct (selectAudioStream _ answers) as [[a answers1] |]; [ | discriminate ].
  destruct (selectSubtitleStream _ answers1) as [[s answers2] |];
    [ | discriminate ].
  intros [= <- <-]. cbn [conversionResult conversionInfo]. eauto.
Qed.

End Sequence.

(** C8. [convert] on an instance whose [conversionInfo] is undefined, as it
    is from the construction until [collectConversionInfo] has returned,
    throws its assertion error, whatever the child process would do;
    [getConversionResult] on an instance whose [conversionResult] is
    undefined throws its assertion error, and that is so after the
    construction, after [collectConversionInfo], and all along a run of
    [convert] until the child process terminates. Once it has, the result
    is returned. *)
Theorem calls_out_of_sequence_throw
    (join : list string -> string) (stringToNumber : string -> float)
    (toFixed : float -> Z -> string) :
  (forall this outputFolderPath ffmpegBinaryPath currentFileIndex allFilesCount
          events,
      conversionInfo this = None ->
      convert join stringToNumber toFixed this outputFolderPath
        ffmpegBinaryPath currentFileIndex allFilesCount events
      = JS.Throw
          "AssertError: must call collectConversionInfo() before convert()")
  /\ (forall movie outputFolderPath ffmpegBinaryPath currentFileIndex
             allFilesCount events,
        convert join stringToNumber toFixed (fromIMovie movie) outputFolderPath
          ffmpegBinaryPath currentFileIndex allFilesCount events
        = JS.Throw
            "AssertError: must call collectConversionInfo() before convert()")
  /\ (forall this,
        conversionResult this = None ->
        getConversionResult this
        = JS.Throw "AssertError: conversion did not finish yet")
  /\ (forall movie,
        getConversionResult (fromIMovie movie)
        = JS.Throw "AssertError: conversion did not finish yet")
  /\ (forall movie ffprobeOutput answers this' rest,
        collectConversionInfo (fromIMovie movie) ffprobeOutput answers
        = Some (this', rest) ->
        getConversionResult this'
        = JS.Throw "AssertError: conversion did not finish yet")
  /\ (forall this outputFolderPath ffmpegBinaryPath currentFileIndex
             allFilesCount events ffmpeg this' run,
        conversionResult this = None ->
        (forall exitCode, ~ In (Close exitCode) events) ->
        convert join stringToNumber toFixed this outputFolderPath
          ffmpegBinaryPath currentFileIndex allFilesCount events
        = JS.Normal (ffmpeg, this', run) ->
        getConversionResult this'
        = JS.Throw "AssertError: conversion did not finish yet")
  /\ (forall this outputFolderPath ffmpegBinaryPath currentFileIndex
             allFilesCount before exitCode after ffmpeg this' run,
        (forall code, ~ In (Close code) before) ->
        convert join stringToNumber toFixed this outputFolderPath
          ffmpegBinaryPath currentFileIndex allFilesCount
          (before ++ Close exitCode :: after)
        = JS.Normal (ffmpeg, this', run) ->
        getConversionResult this'
        = JS.Normal
            {| ConversionResult.successful :=
                 match exitCode with
                 | Some code => Z.eqb code 0
                 | None => false
                 end;
               ConversionResult.stderr := stderr run |}).
Proof.
  assert (Hresult : forall this,
            conversionResult this = None ->
            getConversionResult this
            = JS.Throw "AssertError: conversion did not finish yet").
  { intros this H. unfold getConversionResult. now rewrite H. }
  split; [ | split; [ | split; [ | split; [ | split; [ | split ] ] ] ] ].
  - intros this out bin i n events H. unfold convert. now rewrite H.
  - reflexivity.
  - exact Hresult.
  - reflexivity.
  - intros movie ffprobeOutput answers this' rest H.
    apply collectConversionInfo_result in H. destruct H as (H & _).
    apply Hresult. now rewrite H.
  - intros this out bin i n events ffmpeg this' run Hnone Hrunning.
    unfold convert. destruct (conversionInfo this) as [plan |]; [ | discriminate ].
    destruct (listen _ _ _ _ _ _ _ events) as [[this1 run1] | message] eqn:El;
      cbn [JS.bind]; [ | discriminate ].
    intros [= _ <- _]. apply listen_running in El; [ | exact Hrunning ].
    subst this1. now apply Hresult.
  - intros this out bin i n before exitCode after ffmpeg this' run Hrunning.
    unfold convert. destruct (conversionInfo this) as [plan |]; [ | discriminate ].
    destruct (listen _ _ _ _ _ _ _ (before ++ Close exitCode :: after))
      as [[this1 run1] | message] eqn:El; cbn [JS.bind]; [ | discriminate ].
    intros [= _ <- <-]. apply listen_closed in El; [ | exact Hrunning ].
    subst this1. reflexivity.
Qed.

(* ================================================================== *)
(** ** Further properties: the catalog *)
(* ================================================================== *)

Section Catalog.

(** Streams of distinct indices are cataloged with distinct indices. *)
Lemma cataloged_distinct (streams : list Ffprobe.FfprobeAnyStream) :
  NoDup (map probedIndex streams) ->
  NoDup
    (map probedIndex
       (filter (fun s => isAudio s || isSubtitle s)%bool streams)).
Proof.
  intros Hdistinct.
  induction streams as [| stream streams IH]; cbn [filter map];
    [ constructor | ].
  cbn [map] in Hdistinct. apply NoDup_cons_iff in Hdistinct.
  destruct Hdistinct as (Hfresh & Hrest).
  destruct (isAudio stream || isSubtitle stream)%bool; [ | exact (IH Hrest) ].
  cbn [map]. apply NoDup_cons; [ | exact (IH Hrest) ].
  intros Hin. apply Hfresh. apply in_map_iff in Hin.
  destruct Hin as (other & Hsame & Hother). apply filter_In in Hother.
  apply in_map_iff. exists other. split; [ exact Hsame | exact (proj1 Hother) ].
Qed.

Lemma catalog_indices (l : list Ffprobe.FfprobeAnyStream) :
  map (fun a : AudioStream.t => Stream.index a)
    (ContainerInfo.audioStreams
       (getInputFileMediaInfo {| Ffprobe.format := {| Ffprobe.duration := 0 |};
                                 Ffprobe.streams := l |}))
  = map probedIndex (filter isAudio l)
  /\ map Stream.index
       (ContainerInfo.subtitleStreams
          (getInputFileMediaInfo {| Ffprobe.format := {| Ffprobe.duration := 0 |};
                                    Ffprobe.streams := l |}))
     = map probedIndex (filter isSubtitle l).
Proof.
  unfold getInputFileMediaInfo.
  cbn [ContainerInfo.audioStreams ContainerInfo.subtitleStreams Ffprobe.streams].
  split.
  - induction l as [| [s c | s | s] l IH]; simpl;
      [ reflexivity | f_equal; exact IH | exact IH | exact IH ].
  - induction l as [| [s c | s | s] l IH]; simpl;
      [ reflexivity | exact IH | f_equal; exact IH | exact IH ].
Qed.

Lemma cataloged_partition (l : list Ffprobe.FfprobeAnyStream) :
  Permutation
    (map probedIndex (filter isAudio l) ++ map probedIndex (filter isSubtitle l))
    (map probedIndex (filter (fun s => isAudio s || isSubtitle s)%bool l)).
Proof.
  induction l as [| [s c | s | s] l IH]; simpl.
  - constructor.
  - constructor. exact IH.
  - apply Permutation_sym, Permutation_cons_app, Permutation_sym. exact IH.
  - exact IH.
Qed.

End Catalog.

(** X1. The catalog made of the output of the prober has the streams of the
    prober whose kind is audio and those whose kind is subtitle, each kind in
    the order of the prober and with the index of the prober, and no stream
    of another kind (a video stream, an attachment): the indices of the two
    catalogs together are those of the audio and subtitle streams of the
    prober, they are distinct when the prober gave distinct indices, and
    then the index of a stream of another kind is in neither catalog. The
    duration of the container is the one of the prober. *)
Theorem catalog_partitions_probed_streams (ffprobeOutput : Ffprobe.FfProbeOutput) :
  let info := getInputFileMediaInfo ffprobeOutput in
  let audioIndices :=
    map (fun a : AudioStream.t => Stream.index a) (ContainerInfo.audioStreams info) in
  let subtitleIndices := map Stream.index (ContainerInfo.subtitleStreams info) in
  audioIndices
  = map probedIndex (filter isAudio (Ffprobe.streams ffprobeOutput))
  /\ subtitleIndices
     = map probedIndex (filter isSubtitle (Ffprobe.streams ffprobeOutput))
  /\ Permutation (audioIndices ++ subtitleIndices)
       (map probedIndex
          (filter (fun s => isAudio s || isSubtitle s)%bool
             (Ffprobe.streams ffprobeOutput)))
  /\ (NoDup (map probedIndex (Ffprobe.streams ffprobeOutput)) ->
      NoDup (audioIndices ++ subtitleIndices)
      /\ forall s,
           In (Ffprobe.FfprobeOtherStream s) (Ffprobe.streams ffprobeOutput) ->
           ~ In (Ffprobe.index s) (audioIndices ++ subtitleIndices))
  /\ (forall a : AudioStream.t,
        In a (ContainerInfo.audioStreams info) <->
        exists s channel_layout,
          In (Ffprobe.FfprobeAudioStream s channel_layout)
            (Ffprobe.streams ffprobeOutput)
          /\ a = {| AudioStream.stream := streamOfFfprobe s;
                    AudioStream.channelLayout := channel_layout |})
  /\ (forall t : SubtitleStream.t,
        In t (ContainerInfo.subtitleStreams info) <->
        exists s,
          In (Ffprobe.FfprobeSubtitleStream s) (Ffprobe.streams ffprobeOutput)
          /\ t = streamOfFfprobe s)
  /\ ContainerInfo.containerDurationSeconds info
     = Ffprobe.duration (Ffprobe.format ffprobeOutput).
Proof.
  intros info audioIndices subtitleIndices.
  destruct (catalog_indices (Ffprobe.streams ffprobeOutput)) as (Ha & Hs).
  change (audioIndices
          = map probedIndex (filter isAudio (Ffprobe.streams ffprobeOutput)))
    in Ha.
  change (subtitleIndices
          = map probedIndex (filter isSubtitle (Ffprobe.streams ffprobeOutput)))
    in Hs.
  pose proof (cataloged_partition (Ffprobe.streams ffprobeOutput)) as Hperm.
  rewrite <- Ha, <- Hs in Hperm.
  split; [ exact Ha | split; [ exact Hs | split; [ exact Hperm | ] ] ].
  split; [ | split; [ | split ] ].
  - intros Hnd. split.
    + eapply Permutation_NoDup; [ apply Permutation_sym; exact Hperm | ].
      now apply cataloged_distinct.
    + intros s Hin Hidx.
      apply (Permutation_in _ Hperm) in Hidx.
      apply in_map_iff in Hidx. destruct Hidx as (s' & Heq & Hin').
      apply filter_In in Hin'. destruct Hin' as (Hin' & Hkind).
      assert (Hsame : s' = Ffprobe.FfprobeOtherStream s).
      { revert Hnd Hin Hin' Heq. clear.
        generalize (Ffprobe.streams ffprobeOutput) as l.
        induction l as [| x l IH]; simpl; [ contradiction | ].
        intros Hnd. inversion Hnd as [| ? ? Hx Hl]; subst.
        intros [-> | Hin] [-> | Hin'] Heq.
        - reflexivity.
        - exfalso. apply Hx. apply in_map_iff. exists s'. auto.
        - exfalso. apply Hx. apply in_map_iff.
          exists (Ffprobe.FfprobeOtherStream s). auto.
        - now apply IH. }
      subst s'. discriminate Hkind.
  - intros a. subst info. unfold getInputFileMediaInfo.
    cbn [ContainerInfo.audioStreams]. rewrite in_flat_map. split.
    + intros ([s c | s | s] & Hin & Hin'); simpl in Hin'; try contradiction.
      destruct Hin' as [<- | []]. eauto.
    + intros (s & c & Hin & ->). eexists. split; [ exact Hin | ]. now left.
  - intros t. subst info. unfold getInputFileMediaInfo.
    cbn [ContainerInfo.subtitleStreams]. rewrite in_flat_map. split.
    + intros ([s c | s | s] & Hin & Hin'); simpl in Hin'; try contradiction.
      destruct Hin' as [<- | []]. eauto.
    + intros (s & Hin & ->). eexists. split; [ exact Hin | ]. now left.
  - reflexivity.
Qed.

(* ================================================================== *)
(** ** Further properties: the selection loops *)
(* ================================================================== *)

(** X2. The loop of the audio selection returns on the first answer that a
    turn accepts, with the stream of that turn, and leaves the answers after
    it; every answer before it was refused and only asked for the next one.
    It still asks after the last answer exactly when every answer was
    refused, which is so for every answer when the catalog has no audio
    stream. *)
Theorem audio_selection_returns_on_first_accepted_answer
    (audioStreams : list AudioStream.t) (answers : list string) :
  (selectAudioStream audioStreams answers = None
   <-> Forall (fun answer => selectAudioStreamRound audioStreams answer = None)
         answers)
  /\ (forall a rest,
        selectAudioStream audioStreams answers = Some (a, rest)
        <-> exists refused answer,
              answers = refused ++ answer :: rest
              /\ Forall
                   (fun answer => selectAudioStreamRound audioStreams answer = None)
                   refused
              /\ selectAudioStreamRound audioStreams answer = Some a)
  /\ selectAudioStream [] answers = None.
Proof.
  split; [ | split ].
  - induction answers as [| answer answers IH]; cbn [selectAudioStream].
    + split; [ constructor | reflexivity ].
    + destruct (selectAudioStreamRound audioStreams answer) as [a |] eqn:E.
      * split; [ discriminate | ]. intros H. inversion H; congruence.
      * rewrite IH. split; [ now constructor | ]. intros H. now inversion H.
  - induction answers as [| answer answers IH]; intros a rest;
      cbn [selectAudioStream].
    + split; [ discriminate | ].
      intros (refused & ans & E & _). destruct refused; discriminate E.
    + destruct (selectAudioStreamRound audioStreams answer) as [a' |] eqn:E.
      * split.
        -- intros [= <- <-]. exists [], answer. repeat split; auto.
        -- intros ([| r refused] & ans & Eq & Hr & Ha).
           ++ injection Eq as <- <-. congruence.
           ++ injection Eq as <- _. inversion Hr; congruence.
      * rewrite IH. split.
        -- intros (refused & ans & -> & Hr & Ha).
           exists (answer :: refused), ans. repeat split; auto.
        -- intros ([| r refused] & ans & Eq & Hr & Ha).
           ++ injection Eq as <- <-. congruence.
           ++ injection Eq as <- ->. inversion Hr; subst.
              exists refused, ans. auto.
  - induction answers as [| answer answers IH]; [ reflexivity | exact IH ].
Qed.

(** X3. The loop of the subtitle selection returns [null] on the empty
    answer, whatever the catalog. It looks the index up in the whole
    catalog: a stream that its table does not show, its codec not being
    subrip, is selected by its index all the same. With no subtitle stream
    at all only the empty answer makes it return. *)
Theorem subtitle_selection_searches_whole_catalog
    (subtitleStreams : list SubtitleStream.t) (answers : list string) :
  selectSubtitleStream subtitleStreams ("" :: answers) = Some (None, answers)
  /\ (forall s : SubtitleStream.t,
        In s subtitleStreams ->
        Stream.codecName s <> "subrip" ->
        ~ In s (shownSubtitleStreams subtitleStreams)
        /\ exists s',
             selectSubtitleStream subtitleStreams
               (JS.numberToString (Stream.index s) :: answers)
             = Some (Some s', answers)
             /\ In s' subtitleStreams
             /\ Stream.index s' = Stream.index s)
  /\ (forall selected rest,
        selectSubtitleStream [] answers = Some (selected, rest) ->
        selected = None
        /\ exists refused,
             answers = refused ++ "" :: rest /\ ~ In "" refused).
Proof.
  split; [ reflexivity | split ].
  - intros s Hin Hcodec. split.
    + unfold shownSubtitleStreams. rewrite filter_In.
      intros (_ & H). apply String.eqb_eq in H. contradiction.
    + assert (Hp : JS.parseInt (JS.numberToString (Stream.index s))
                   = Some (Stream.index s)).
      { rewrite <- (parseInt_numberToString (Stream.index s) "" eq_refl).
        f_equal. clear. induction (JS.numberToString (Stream.index s));
          simpl; [ reflexivity | now f_equal ]. }
      cbn [selectSubtitleStream]. unfold selectSubtitleStreamRound, JS.find.
      destruct (String.eqb_spec (JS.numberToString (Stream.index s)) "")
        as [E | _]; [ now apply numberToString_nonempty in E | ].
      rewrite Hp.
      destruct (find _ subtitleStreams) as [s' |] eqn:E.
      * apply find_some in E. destruct E as (Hin' & Heq). simpl in Heq.
        apply Z.eqb_eq in Heq. exists s'. auto.
      * pose proof (find_none _ _ E s Hin) as H. simpl in H.
        now rewrite Z.eqb_refl in H.
  - induction answers as [| answer answers IH]; intros selected rest;
      cbn [selectSubtitleStream]; [ discriminate | ].
    unfold selectSubtitleStreamRound at 1.
    destruct (String.eqb_spec answer "") as [-> | Hne].
    + intros [= <- <-]. split; [ reflexivity | ]. exists []. auto.
    + cbn [JS.find find]. intros H. destruct (IH _ _ H) as (-> & refused & -> & Hr).
      split; [ reflexivity | ]. exists (answer :: refused).
      split; [ reflexivity | ]. intros [E | E]; [ congruence | contradiction ].
Qed.

(* ================================================================== *)
(** ** Further properties: planning and conversion of one movie *)
(* ================================================================== *)

(** X4. When [collectConversionInfo] returns, the instance has a plan and is
    otherwise as it was: the plan has the catalog and the duration of the
    prober, its selected audio stream is in its catalog and so is its
    selected subtitle stream when there is one, the audio selection read the
    first answers and the subtitle selection those after them; and
    [convert] no longer throws its assertion error. *)
Theorem planning_establishes_the_plan (this this' : Movie)
    (ffprobeOutput : Ffprobe.FfProbeOutput) (answers rest : list string) :
  collectConversionInfo this ffprobeOutput answers = Some (this', rest) ->
  let info := getInputFileMediaInfo ffprobeOutput in
  title this' = title this
  /\ year this' = year this
  /\ inputFilePath this' = inputFilePath this
  /\ conversionResult this' = conversionResult this
  /\ (exists plan,
        conversionInfo this' = Some plan
        /\ ConversionInfo.audioStreams plan = ContainerInfo.audioStreams info
        /\ ConversionInfo.subtitleStreams plan = ContainerInfo.subtitleStreams info
        /\ ConversionInfo.containerDurationSeconds plan
           = ContainerInfo.containerDurationSeconds info
        /\ In (ConversionInfo.selectedAudioStream plan)
             (ConversionInfo.audioStreams plan)
        /\ (forall s, ConversionInfo.selectedSubtitleStream plan = Some s ->
              In s (ConversionInfo.subtitleStreams plan))
        /\ exists between,
             selectAudioStream (ContainerInfo.audioStreams info) answers
             = Some (ConversionInfo.selectedAudioStream plan, between)
             /\ selectSubtitleStream (ContainerInfo.subtitleStreams info) between
                = Some (ConversionInfo.selectedSubtitleStream plan, rest))
  /\ (forall join stringToNumber toFixed outputFolderPath ffmpegBinaryPath
             currentFileIndex allFilesCount,
        exists ffmpeg run,
          convert join stringToNumber toFixed this' outputFolderPath
            ffmpegBinaryPath currentFileIndex allFilesCount []
          = JS.Normal (ffmpeg, this', run)).
Proof.
  intros Hcollect info. subst info. revert Hcollect.
  unfold collectConversionInfo.
  destruct (selectAudioStream _ answers) as [[a answers1] |] eqn:Ea;
    [ | discriminate ].
  destruct (selectSubtitleStream _ answers1) as [[s answers2] |] eqn:Es;
    [ | discriminate ].
  intros [= <- <-].
  cbn [title year inputFilePath conversionResult conversionInfo].
  split; [ reflexivity | ]. split; [ reflexivity | ].
  split; [ reflexivity | ]. split; [ reflexivity | ]. split.
  - eexists. split; [ reflexivity | ].
    cbn [ConversionInfo.audioStreams ConversionInfo.subtitleStreams
         ConversionInfo.containerDurationSeconds
         ConversionInfo.selectedAudioStream
         ConversionInfo.selectedSubtitleStream].
    split; [ reflexivity | ]. split; [ reflexivity | ].
    split; [ reflexivity | ].
    split; [ eapply selectAudioStream_In; eauto | ].
    split; [ intros s' ->; eapply selectSubtitleStream_In; eauto | ].
    exists answers1. auto.
  - intros. unfold convert. cbn [conversionInfo listen JS.bind]. eauto.
Qed.

(** X4 on the sample movie. *)
Lemma planning_establishes_the_plan_sample :
  collectConversionInfo Sample.theMatrix Sample.probed [ "1"; "2" ]
  = Some (Sample.planned, [])
  /\ conversionResult Sample.planned = conversionResult Sample.theMatrix.
Proof.
  split; [ reflexivity | ].
  exact (proj1 (proj2 (proj2 (proj2
    (planning_establishes_the_plan Sample.theMatrix Sample.planned
       Sample.probed [ "1"; "2" ] [] eq_refl))))).
Defined.

Section OneConversion.

Variable join : list string -> string.
Variable stringToNumber : string -> float.
Variable toFixed : float -> Z -> string.

Lemma append_empty (s : string) : (s ++ "")%string = s.
Proof.
  induction s as [| c s IH]; simpl; [ reflexivity | now rewrite IH ].
Qed.

Lemma onStdoutData_stderr (this : Movie) (currentFileIndex allFilesCount : Z)
    (containerDurationSeconds : float) (run run' : Running) (data : string) :
  onStdoutData stringToNumber toFixed this currentFileIndex allFilesCount
    containerDurationSeconds run data = JS.Normal run' ->
  stderr run' = stderr run.
Proof.
  unfold onStdoutData.
  destruct (regexMatch "out_time_us=" data); [ | discriminate ].
  destruct (regexMatch "speed=" data); [ | discriminate ].
  destruct (_ || _)%bool; [ now intros [= <-] | ].
  destruct (negb _); now intros [= <-].
Qed.

(** The listeners on the events of a well-formed child process: nothing is
    thrown, the diagnostic channel is put together, the result is set on the
    termination and not before. *)
Lemma listen_terminates (this : Movie) (currentFileIndex allFilesCount : Z)
    (containerDurationSeconds : float) (events : list ProcessEvent)
    (chunks : list Progress) :
  Reads events chunks ->
  forall run,
    exists this' run',
      listen stringToNumber toFixed this currentFileIndex allFilesCount
        containerDurationSeconds run events
      = JS.Normal (this', run')
      /\ stderr run' = (stderr run ++ diagnostics events)%string
      /\ this' =
         if closes events then
           {| title := title this;
              year := year this;
              inputFilePath := inputFilePath this;
              conversionInfo := conversionInfo this;
              conversionResult :=
                Some {| ConversionResult.successful :=
                          match exitCodeOf events with
                          | Some code => Z.eqb code 0
                          | None => false
                          end;
                        ConversionResult.stderr := stderr run' |} |}
         else this.
Proof.
  induction 1 as [| data p events chunks Hus Hspeed Hreads IH
                  | data events chunks Hreads IH
                  | exitCode events ];
    intros run.
  - exists this, run. cbn. now rewrite append_empty.
  - cbn [listen diagnostics closes existsb exitCodeOf orb].
    destruct (onStdoutData stringToNumber toFixed this currentFileIndex
                allFilesCount containerDurationSeconds run data)
      as [run1 | message] eqn:E.
    + cbn [JS.bind]. apply onStdoutData_stderr in E.
      destruct (IH run1) as (this' & run' & El & Es & Et).
      exists this', run'. rewrite <- E. auto.
    + exfalso. revert E. unfold onStdoutData. rewrite Hus, Hspeed.
      destruct (_ || _)%bool; [ discriminate | ].
      destruct (negb _); discriminate.
  - cbn [listen diagnostics closes existsb exitCodeOf orb].
    destruct (IH (onStderrData run data)) as (this' & run' & El & Es & Et).
    exists this', run'. cbn [onStderrData stderr] in Es.
    rewrite append_assoc in Es. auto.
  - exists (onClose this run exitCode), run.
    cbn [listen diagnostics closes existsb exitCodeOf orb].
    rewrite append_empty. auto.
Qed.

(** The listeners throw on a chunk of the progress channel only, one that
    lacks a line. *)
Lemma listen_throws (this : Movie) (currentFileIndex allFilesCount : Z)
    (containerDurationSeconds : float) (events : list ProcessEvent) :
  forall (run : Running) (message : string),
    listen stringToNumber toFixed this currentFileIndex allFilesCount
      containerDurationSeconds run events
    = JS.Throw message ->
    message = nullMatchError
    /\ exists data,
         In (StdoutData data) events
         /\ (regexMatch "out_time_us=" data = None
             \/ regexMatch "speed=" data = None).
Proof.
  induction events as [| [data | data | exitCode] events IH];
    intros run message; cbn [listen]; try discriminate.
  - destruct (onStdoutData stringToNumber toFixed this currentFileIndex
                allFilesCount containerDurationSeconds run data)
      as [run1 | message1] eqn:E; cbn [JS.bind].
    + intros H. destruct (IH _ _ H) as (Hm & data' & Hin & Hd).
      split; [ exact Hm | ]. exists data'. split; [ now right | exact Hd ].
    + intros [= <-]. revert E. unfold onStdoutData.
      destruct (regexMatch "out_time_us=" data) eqn:E1.
      * destruct (regexMatch "speed=" data) eqn:E2.
        -- destruct (_ || _)%bool; [ discriminate | ].
           destruct (negb _); discriminate.
        -- intros [= <-]. split; [ reflexivity | ].
           exists data. split; [ now left | now right ].
      * intros [= <-]. split; [ reflexivity | ].
        exists data. split; [ now left | now left ].
  - intros H. destruct (IH _ _ H) as (Hm & data' & Hin & Hd).
    split; [ exact Hm | ]. exists data'. split; [ now right | exact Hd ].
Qed.

End OneConversion.

(** X7. [convert] on a movie with a plan makes a folder and then starts the
    binary it is given with the seven global options, the input file, the
    arguments of the primary output and those of the secondary output, in
    that order. It does so before any listener is called, whatever the
    child process does then: when [convert] returns, that is the process it
    started, and when it throws, a listener has thrown on a chunk of the
    progress channel that lacks a line. With [join] of node:path on POSIX,
    the folder made holds the file of the primary output, and the file of the
    secondary output when the language of the selected subtitle stream has
    no slash. *)
Theorem convert_starts_ffmpeg_in_made_folder
    (join : list string -> string) (stringToNumber : string -> float)
    (toFixed : float -> Z -> string)
    (this : Movie) (outputFolderPath ffmpegBinaryPath : string)
    (plan : ConversionInfo.t) :
  conversionInfo this = Some plan ->
  let name := getFullyQualifiedName this true in
  let folder :=
    getOutputSubfolderPath Posix.join this outputFolderPath
      (ConversionInfo.selectedSubtitleStream plan) in
  start join this outputFolderPath ffmpegBinaryPath
  = JS.Normal
      {| madeFolder :=
           getOutputSubfolderPath join this outputFolderPath
             (ConversionInfo.selectedSubtitleStream plan);
         binary := ffmpegBinaryPath;
         arguments :=
           [ "-hide_banner"; "-loglevel"; "warning"; "-nostats";
             "-progress"; "pipe:1"; "-y" ]
           ++ [ "-i"; inputFilePath this ]
           ++ getMkvOutputArguments join this outputFolderPath plan
           ++ getSrtOutputArguments join this outputFolderPath plan |}
  /\ (forall currentFileIndex allFilesCount events,
        (forall ffmpeg this' run,
           convert join stringToNumber toFixed this outputFolderPath
             ffmpegBinaryPath currentFileIndex allFilesCount events
           = JS.Normal (ffmpeg, this', run) ->
           start join this outputFolderPath ffmpegBinaryPath = JS.Normal ffmpeg)
        /\ (forall message,
              convert join stringToNumber toFixed this outputFolderPath
                ffmpegBinaryPath currentFileIndex allFilesCount events
              = JS.Throw message ->
              message = nullMatchError
              /\ exists data,
                   In (StdoutData data) events
                   /\ (regexMatch "out_time_us=" data = None
                       \/ regexMatch "speed=" data = None)))
  /\ last (getMkvOutputArguments Posix.join this outputFolderPath plan) ""
     = (folder ++ "/" ++ name ++ ".mkv")%string
  /\ (forall selected,
        ConversionInfo.selectedSubtitleStream plan = Some selected ->
        ~ In "/"%char (chars (JS.nullish (Stream.language selected) "???")) ->
        last (getSrtOutputArguments Posix.join this outputFolderPath plan) ""
        = (folder ++ "/" ++ name ++ "."
           ++ JS.nullish (Stream.language selected) "???" ++ ".srt")%string)
  /\ (ConversionInfo.selectedSubtitleStream plan = None ->
      getSrtOutputArguments join this outputFolderPath plan = []).
Proof.
  intros Hplan name folder.
  assert (Hstart :
    start join this outputFolderPath ffmpegBinaryPath
    = JS.Normal
        {| madeFolder :=
             getOutputSubfolderPath join this outputFolderPath
               (ConversionInfo.selectedSubtitleStream plan);
           binary := ffmpegBinaryPath;
           arguments :=
             [ "-hide_banner"; "-loglevel"; "warning"; "-nostats";
               "-progress"; "pipe:1"; "-y" ]
             ++ [ "-i"; inputFilePath this ]
             ++ getMkvOutputArguments join this outputFolderPath plan
             ++ getSrtOutputArguments join this outputFolderPath plan |}).
  { unfold start. rewrite Hplan. cbn [List.concat]. now rewrite app_nil_r. }
  split; [ exact Hstart | ].
  split; [ | split; [ | split ] ].
  - intros currentFileIndex allFilesCount events. unfold convert.
    rewrite Hplan. cbv zeta.
    destruct (listen _ _ _ _ _ _ _ events) as [[this1 run1] | message1] eqn:El;
      cbn [JS.bind]; split; try discriminate.
    + intros ffmpeg this' run [= <- _ _]. rewrite Hstart.
      cbn [List.concat]. now rewrite app_nil_r.
    + intros message [= <-]. eapply listen_throws; eauto.
  - subst folder name. rewrite getMkvOutputArguments_options, last_last.
    unfold getMkvOutputFilePath, getOutputSubfolderPath.
    destruct (output_names this "") as (Hname & Hmkv & _).
    assert (Hsub : isName
              match ConversionInfo.selectedSubtitleStream plan with
              | Some _ => "ready"
              | None => "external_subtitle_needed"
              end).
    { destruct (ConversionInfo.selectedSubtitleStream plan);
        repeat split; try discriminate; simpl; intros H;
        repeat (destruct H as [H | H]; [ discriminate H | ]);
        contradiction. }
    destruct (join_entry [ outputFolderPath;
                           match ConversionInfo.selectedSubtitleStream plan with
                           | Some _ => "ready"
                           | None => "external_subtitle_needed"
                           end ] _ _ Hname Hmkv) as (Hentry & _).
    exact Hentry.
  - intros selected Hselected Hlanguage. subst folder name.
    unfold getSrtOutputArguments, getSrtOutputFilePath, getOutputSubfolderPath.
    rewrite Hselected. cbn [last].
    destruct (output_names this (JS.nullish (Stream.language selected) "???"))
      as (Hname & _ & Hsrt).
    specialize (Hsrt Hlanguage).
    destruct (join_entry [ outputFolderPath; "ready" ] _ _ Hname Hsrt)
      as (Hentry & _).
    exact Hentry.
  - intros Hnone. unfold getSrtOutputArguments. now rewrite Hnone.
Qed.

(** X7 on the sample movie. *)
Lemma convert_starts_ffmpeg_in_made_folder_sample :
  conversionInfo Sample.planned = Some Sample.plan
  /\ start Posix.join Sample.planned "out" "/usr/local/bin/ffmpeg"
     = JS.Normal
         {| madeFolder := "out/ready/The Matrix (1999)";
            binary := "/usr/local/bin/ffmpeg";
            arguments :=
              [ "-hide_banner"; "-loglevel"; "warning"; "-nostats";
                "-progress"; "pipe:1"; "-y";
                "-i"; "./downloaded/The Matrix (1999)/The Matrix (1999).mkv" ]
              ++ getMkvOutputArguments Posix.join Sample.planned "out" Sample.plan
              ++ getSrtOutputArguments Posix.join Sample.planned "out" Sample.plan |}
  /\ last (getMkvOutputArguments Posix.join Sample.planned "out" Sample.plan) ""
     = "out/ready/The Matrix (1999)/The Matrix (1999).mkv"
  /\ last (getSrtOutputArguments Posix.join Sample.planned "out" Sample.plan) ""
     = "out/ready/The Matrix (1999)/The Matrix (1999).eng.srt".
Proof.
  split; [ reflexivity | ].
  destruct (convert_starts_ffmpeg_in_made_folder Posix.join
              Sample.stringToNumber Sample.toFixed Sample.planned "out"
              "/usr/local/bin/ffmpeg" Sample.plan eq_refl)
    as (Hstart & _ & Hmkv & Hsrt & _).
  split; [ exact Hstart | split; [ exact Hmkv | ] ].
  apply (Hsrt Sample.englishSubtitle eq_refl).
  simpl. intros H.
  repeat (destruct H as [H | H]; [ discriminate H | ]). contradiction.
Defined.

(** X8. When the child process terminates, and every chunk of its progress
    channel had both lines, [convert] returns and leaves a result on the
    instance: it is successful exactly when the exit code is 0 (a process
    that ends with no exit code is not), and its diagnostic text is all that
    the process wrote on its diagnostic channel before, put together in
    the order it came, whatever came on the progress channel in between. The
    rest of the instance is as it was. *)
Theorem conversion_result_on_termination
    (join : list string -> string) (stringToNumber : string -> float)
    (toFixed : float -> Z -> string)
    (this : Movie) (outputFolderPath ffmpegBinaryPath : string)
    (currentFileIndex allFilesCount : Z) (events : list ProcessEvent)
    (chunks : list Progress) (plan : ConversionInfo.t) :
  conversionInfo this = Some plan ->
  Reads events chunks ->
  closes events = true ->
  exists ffmpeg this' run,
    convert join stringToNumber toFixed this outputFolderPath ffmpegBinaryPath
      currentFileIndex allFilesCount events
    = JS.Normal (ffmpeg, this', run)
    /\ getConversionResult this'
       = JS.Normal
           {| ConversionResult.successful :=
                match exitCodeOf events with
                | Some code => Z.eqb code 0
                | None => false
                end;
              ConversionResult.stderr := diagnostics events |}
    /\ title this' = title this
    /\ year this' = year this
    /\ inputFilePath this' = inputFilePath this
    /\ conversionInfo this' = Some plan.
Proof.
  intros Hplan Hreads Hcloses. unfold convert. rewrite Hplan.
  match goal with
  | |- context [ listen _ _ _ _ _ ?d ?r events ] =>
      destruct (listen_terminates stringToNumber toFixed this currentFileIndex
                  allFilesCount d events chunks Hreads r)
        as (this' & run' & El & Es & Et)
  end.
  rewrite El. cbn [JS.bind]. rewrite Hcloses in Et. cbn [stderr] in Es.
  simpl append in Es.
  eexists. exists this', run'. split; [ reflexivity | ].
  subst this'. unfold getConversionResult.
  cbn [conversionResult title year inputFilePath conversionInfo].
  rewrite Es. auto.
Qed.

(** X8 on the sample movie and the sample child process. *)
Lemma conversion_result_on_termination_sample :
  conversionInfo Sample.planned = Some Sample.plan
  /\ Reads Sample.events Sample.chunks
  /\ closes Sample.events = true
  /\ exists ffmpeg this' run,
       convert Sample.join Sample.stringToNumber Sample.toFixed Sample.planned
         "out" "/usr/local/bin/ffmpeg" 1 1 Sample.events
       = JS.Normal (ffmpeg, this', run)
       /\ getConversionResult this'
          = JS.Normal
              {| ConversionResult.successful := true;
                 ConversionResult.stderr := "warning" |}.
Proof.
  assert (Hreads : Reads Sample.events Sample.chunks).
  { unfold Sample.events, Sample.chunks.
    apply Reads_stdout; [ reflexivity | reflexivity | ].
    apply Reads_stdout; [ reflexivity | reflexivity | ].
    apply Reads_stderr.
    apply Reads_stdout; [ reflexivity | reflexivity | ].
    apply Reads_stdout; [ reflexivity | reflexivity | ].
    apply Reads_close. }
  split; [ reflexivity | split; [ exact Hreads | split; [ reflexivity | ] ] ].
  destruct (conversion_result_on_termination Sample.join Sample.stringToNumber
              Sample.toFixed Sample.planned "out" "/usr/local/bin/ffmpeg" 1 1
              Sample.events Sample.chunks Sample.plan eq_refl Hreads eq_refl)
    as (ffmpeg & this' & run & Hc & Hr & _).
  exists ffmpeg, this', run. split; [ exact Hc | exact Hr ].
Defined.

(* ================================================================== *)
(** ** Further properties: the copies of the cataloged streams *)
(* ================================================================== *)

Section Copies.

Lemma nth_error_entries {A} (l : list A) (i : nat) (x : A) :
  nth_error l i = Some x -> In (Z.of_nat i, x) (JS.entries l).
Proof.
  unfold JS.entries.
  assert (G : forall start i,
    nth_error l i = Some x ->
    In (Z.of_nat (start + i), x)
      (combine (map Z.of_nat (seq start (List.length l))) l)).
  { induction l as [| y l IH]; intros start j; destruct j as [| j]; simpl;
      try discriminate.
    - intros [= ->]. left. now rewrite Nat.add_0_r.
    - intros H. right. rewrite <- Nat.add_succ_comm. now apply IH. }
  intros H. exact (G 0%nat i H).
Qed.

Lemma copiedAudio_In (conversionInfo : ConversionInfo.t) (i : nat)
    (a : AudioStream.t) :
  nth_error (ConversionInfo.audioStreams conversionInfo) i = Some a ->
  In (CopiedAudio (Z.of_nat i) a) (outputStreams conversionInfo).
Proof.
  intros H. unfold outputStreams. right. apply in_or_app. left.
  apply nth_error_entries in H.
  apply (in_map (fun ix => CopiedAudio (fst ix) (snd ix))) in H. exact H.
Qed.

Lemma copiedSubtitle_In (conversionInfo : ConversionInfo.t) (i : nat)
    (s : SubtitleStream.t) :
  nth_error (ConversionInfo.subtitleStreams conversionInfo) i = Some s ->
  In (CopiedSubtitle (Z.of_nat i) s) (outputStreams conversionInfo).
Proof.
  intros H. unfold outputStreams. right. apply in_or_app. right.
  apply nth_error_entries in H.
  apply (in_map (fun ix => CopiedSubtitle (fst ix) (snd ix))) in H. exact H.
Qed.

End Copies.

(** X5. The cataloged audio stream at position [i] of the catalog, from 0,
    is described under the specifier [a:(i+1)] of the primary output, and
    the cataloged subtitle stream at position [i] under [s:i]: a title made
    of the language (["???"] without one), the codec, the channel layout for
    an audio stream, and the title of the stream in brackets when it has
    one; its language when it has one; and its dispositions joined with
    ["+"], with no option at all when that is empty. *)
Theorem copied_streams_keep_their_description
    (join : list string -> string) (this : Movie) (outputFolderPath : string)
    (conversionInfo : ConversionInfo.t) :
  let args := getMkvOutputArguments join this outputFolderPath conversionInfo in
  let languageValue (s : Stream.t) :=
    match Stream.language s with
    | Some language => [ ("language=" ++ language)%string ]
    | None => []
    end in
  let dispositionValue (s : Stream.t) :=
    if String.eqb (JS.arrayJoin "+" (Stream.dispositionsWithoutDefault s)) ""
    then []
    else [ JS.arrayJoin "+" (Stream.dispositionsWithoutDefault s) ] in
  (forall i (a : AudioStream.t),
      nth_error (ConversionInfo.audioStreams conversionInfo) i = Some a ->
      let specifier := ("a:" ++ JS.numberToString (Z.of_nat i + 1))%string in
      optionValues ("-metadata:s:" ++ specifier) args
      = ("title=" ++ JS.nullish (Stream.language a) "???" ++ " "
         ++ Stream.codecName a ++ " " ++ AudioStream.channelLayout a
         ++ match Stream.title a with
            | Some title => (" [" ++ title ++ "]")%string
            | None => EmptyString
            end)%string
        :: languageValue a
      /\ optionValues ("-disposition:" ++ specifier) args = dispositionValue a)
  /\ (forall i (s : SubtitleStream.t),
        nth_error (ConversionInfo.subtitleStreams conversionInfo) i = Some s ->
        let specifier := ("s:" ++ JS.numberToString (Z.of_nat i))%string in
        optionValues ("-metadata:s:" ++ specifier) args
        = ("title=" ++ JS.nullish (Stream.language s) "???" ++ " "
           ++ Stream.codecName s
           ++ match Stream.title s with
              | Some title => (" [" ++ title ++ "]")%string
              | None => EmptyString
              end)%string
          :: languageValue s
        /\ optionValues ("-disposition:" ++ specifier) args = dispositionValue s).
Proof.
  intros args languageValue dispositionValue. subst args. split.
  - intros i a Hnth specifier. apply copiedAudio_In in Hnth.
    pose proof (optionValues_stream join this outputFolderPath conversionInfo
                  _ "-metadata:s:" (or_introl eq_refl) Hnth) as Hm.
    pose proof (optionValues_stream join this outputFolderPath conversionInfo
                  _ "-disposition:" (or_intror eq_refl) Hnth) as Hd.
    destruct (optionsNamed_streamOptions conversionInfo
                (CopiedAudio (Z.of_nat i) a)) as (Em & Ed).
    rewrite Em in Hm. rewrite Ed in Hd. cbn [streamSpecifier dispositionList] in Hm, Hd.
    fold specifier in Hm, Hd. split; [ | exact Hd ].
    rewrite Hm. unfold metadataOptions, getStreamTitle. subst languageValue.
    cbv beta.
    destruct (Stream.language a), (Stream.title a); cbn [map snd];
      rewrite ?append_assoc, ?append_empty; reflexivity.
  - intros i s Hnth specifier. apply copiedSubtitle_In in Hnth.
    pose proof (optionValues_stream join this outputFolderPath conversionInfo
                  _ "-metadata:s:" (or_introl eq_refl) Hnth) as Hm.
    pose proof (optionValues_stream join this outputFolderPath conversionInfo
                  _ "-disposition:" (or_intror eq_refl) Hnth) as Hd.
    destruct (optionsNamed_streamOptions conversionInfo
                (CopiedSubtitle (Z.of_nat i) s)) as (Em & Ed).
    rewrite Em in Hm. rewrite Ed in Hd. cbn [streamSpecifier dispositionList] in Hm, Hd.
    fold specifier in Hm, Hd. split; [ | exact Hd ].
    rewrite Hm. unfold metadataOptions, getStreamTitle. subst languageValue.
    cbv beta.
    destruct (Stream.language s), (Stream.title s); cbn [map snd];
      rewrite ?append_assoc, ?append_empty; reflexivity.
Qed.

(** X6. The arguments of the primary output are options, each with its
    value, and then the output file. Every option is one of: the copy of
    every stream, which is the first one; the two options that leave out the
    metadata and the chapters of the container; a ["-map"]; the codec, the
    bitrate and the number of channels of audio stream 0; the metadata or
    the disposition of one output stream. So no option gives a codec, a
    bitrate, a number of channels or a filter to an output stream other than
    audio stream 0, and each of these four options is given once. *)
Theorem only_first_audio_is_transcoded
    (join : list string -> string) (this : Movie) (outputFolderPath : string)
    (conversionInfo : ConversionInfo.t) :
  let args := getMkvOutputArguments join this outputFolderPath conversionInfo in
  args
  = unpair (optionPairs args)
    ++ [ getMkvOutputFilePath join this outputFolderPath
           (ConversionInfo.selectedSubtitleStream conversionInfo) ]
  /\ hd_error (optionPairs args) = Some ("-codec", "copy")
  /\ (forall option value,
        In (option, value) (optionPairs args) ->
        In (option, value)
          [ ("-codec", "copy"); ("-map_metadata", "-1"); ("-map_chapters", "-1");
            ("-codec:a:0", "aac"); ("-b:a:0", "128k"); ("-ac:a:0", "2") ]
        \/ option = "-map"
        \/ exists o,
             In o (outputStreams conversionInfo)
             /\ (option = ("-metadata:s:" ++ streamSpecifier o)%string
                 \/ option = ("-disposition:" ++ streamSpecifier o)%string))
  /\ optionValues "-codec" args = [ "copy" ]
  /\ optionValues "-codec:a:0" args = [ "aac" ]
  /\ optionValues "-b:a:0" args = [ "128k" ]
  /\ optionValues "-ac:a:0" args = [ "2" ].
Proof.
  intros args. subst args.
  rewrite optionPairs_mkv.
  split; [ apply getMkvOutputArguments_options | ].
  split; [ reflexivity | ].
  split; [ | split; [ | split; [ | split ] ] ].
  - intros option value. unfold mkvOptions.
    rewrite !in_app_iff, !in_map_iff.
    intros [Hin | [(a & E & _) | [(s & E & _) | Hin]]].
    + simpl in Hin.
      destruct Hin as [E | [E | [E | [E | [E | []]]]]]; injection E as <- <-;
        simpl; auto 10.
    + injection E as <- <-. auto.
    + injection E as <- <-. auto.
    + apply in_flat_map in Hin. destruct Hin as (o & Ho & Hin).
      apply streamOptions_keys in Hin. cbn [fst] in Hin.
      destruct Hin as [(_ & Hin) | [Hk | Hk]].
      * left. simpl in Hin. simpl. tauto.
      * right. right. exists o. auto.
      * right. right. exists o. auto.
  - rewrite getMkvOutputArguments_options, optionValues_options.
    fold (optionsNamed "-codec" (mkvOptions conversionInfo)).
    unfold mkvOptions. rewrite !optionsNamed_app.
    rewrite (optionsNamed_none "-codec" (map _ _)).
    + rewrite (optionsNamed_none "-codec" (map _ _)).
      * rewrite (optionsNamed_none "-codec" (flat_map _ _)); [ reflexivity | ].
        intros kv Hin E. apply in_flat_map in Hin. destruct Hin as (o & _ & Hin).
        apply streamOptions_keys in Hin.
        destruct Hin as [(_ & Hin) | [Hk | Hk]].
        -- simpl in Hin.
           destruct Hin as [<- | [<- | [<- | []]]]; discriminate E.
        -- rewrite Hk in E. discriminate E.
        -- rewrite Hk in E. discriminate E.
      * intros kv Hin E. apply in_map_iff in Hin.
        destruct Hin as (a & <- & _). discriminate E.
    + intros kv Hin E. apply in_map_iff in Hin.
      destruct Hin as (a & <- & _). discriminate E.
  - rewrite (optionValues_transcoding join); [ reflexivity | simpl; auto ].
  - rewrite (optionValues_transcoding join); [ reflexivity | simpl; auto ].
  - rewrite (optionValues_transcoding join); [ reflexivity | simpl; auto ].
Qed.

(** X10. The disposition value that [getDisposition] joins reads back, split
    at ["+"], as the flags it was made of, ["default"] first when the
    stream is the default one, as long as no flag has a ["+"] in it and
    there is a flag at all. *)
Theorem disposition_flags_round_trip
    (dispositionsWithoutDefault : list string) (isDefault : bool) :
  (forall f, In f dispositionsWithoutDefault -> ~ In "+"%char (chars f)) ->
  isDefault = true \/ dispositionsWithoutDefault <> [] ->
  dispositionFlags (getDisposition dispositionsWithoutDefault isDefault)
  = if isDefault then "default" :: dispositionsWithoutDefault
    else dispositionsWithoutDefault.
Proof.
  intros Hplus Hsome. unfold getDisposition. destruct isDefault.
  - apply dispositionFlags_join; [ discriminate | ].
    intros f [<- | Hf]; [ | now apply Hplus ].
    simpl. intros H.
    repeat (destruct H as [H | H]; [ discriminate H | ]). exact H.
  - apply dispositionFlags_join; [ | exact Hplus ].
    destruct Hsome as [H | H]; [ discriminate H | exact H ].
Qed.

(** X10 on two flags. *)
Lemma disposition_flags_round_trip_sample :
  getDisposition [ "forced"; "hearing_impaired" ] true
  = "default+forced+hearing_impaired"
  /\ dispositionFlags (getDisposition [ "forced"; "hearing_impaired" ] true)
     = [ "default"; "forced"; "hearing_impaired" ].
Proof.
  split; [ reflexivity | ].
  apply (disposition_flags_round_trip [ "forced"; "hearing_impaired" ] true).
  - intros f [<- | [<- | []]]; simpl; intros H;
      repeat (destruct H as [H | H]; [ discriminate H | ]); exact H.
  - left. reflexivity.
Defined.

(* ================================================================== *)
(** ** Further properties: the lines of the progress monitor *)
(* ================================================================== *)

Section ConsoleLines.

Variable stringToNumber : string -> float.
Variable toFixed : float -> Z -> string.

Lemma last_of_some {A} (x : A) (l : list A) (d d' : A) :
  last (x :: l) d = last (x :: l) d'.
Proof.
  revert x. induction l as [| y l IH]; intros x; [ reflexivity | ].
  change (last (y :: l) d = last (y :: l) d'). apply IH.
Qed.

(** The lines for a list of decisions are those of the chunks that were
    logged, which are some of the meaningful chunks in their order, and of
    their percentages each differs from the one before. *)
Lemma logLines_changing (this : Movie) (currentFileIndex allFilesCount : Z)
    (containerDurationSeconds : float) (chunks : list Progress) :
  forall history,
    exists logged : list Progress,
      Subsequence logged (filter (fun p => negb (notMeaningful p)) chunks)
      /\ logLines this currentFileIndex allFilesCount chunks
           (decisions stringToNumber toFixed containerDurationSeconds history
              chunks)
         = map (fun p =>
                  logProgress this currentFileIndex allFilesCount
                    (percentage stringToNumber toFixed containerDurationSeconds p)
                    (speed p))
             logged
      /\ Changing (previouslyLogged history)
           (map (percentage stringToNumber toFixed containerDurationSeconds)
              logged)
      /\ previouslyLogged
           (history
            ++ decisions stringToNumber toFixed containerDurationSeconds
                 history chunks)
         = last (map (percentage stringToNumber toFixed containerDurationSeconds)
                   logged)
             (previouslyLogged history).
Proof.
  induction chunks as [| p chunks IH]; intros history.
  - exists []. cbn. rewrite app_nil_r.
    repeat split; constructor.
  - cbn [decisions logLines filter].
    destruct (loggedFor stringToNumber toFixed containerDurationSeconds
                history p) as [rounded |] eqn:E.
    + destruct (IH (history ++ [Some rounded]))
        as (logged & Hsub & El & Hc & Hlast).
      rewrite previouslyLogged_log in Hc, Hlast.
      apply loggedFor_Some in E. destruct E as (Hna & Hr & Hne).
      exists (p :: logged). rewrite Hna. cbn [negb map].
      rewrite <- Hr.
      split; [ now constructor | ].
      split; [ now rewrite El | ]. split; [ now constructor | ].
      replace (history ++ Some rounded
                 :: decisions stringToNumber toFixed containerDurationSeconds
                      (history ++ [Some rounded]) chunks)
        with ((history ++ [Some rounded])
              ++ decisions stringToNumber toFixed containerDurationSeconds
                   (history ++ [Some rounded]) chunks)
        by (now rewrite <- app_assoc).
      rewrite Hlast.
      destruct (map (percentage stringToNumber toFixed containerDurationSeconds)
                  logged) as [| q later]; [ reflexivity | ].
      change (last (rounded :: q :: later) (previouslyLogged history))
        with (last (q :: later) (previouslyLogged history)).
      apply last_of_some.
    + destruct (IH (history ++ [None])) as (logged & Hsub & El & Hc & Hlast).
      rewrite previouslyLogged_skip in Hc, Hlast.
      exists logged.
      split; [ destruct (negb (notMeaningful p)); [ now constructor | exact Hsub ] | ].
      split; [ exact El | ]. split; [ exact Hc | ].
      replace (history ++ None
                 :: decisions stringToNumber toFixed containerDurationSeconds
                      (history ++ [None]) chunks)
        with ((history ++ [None])
              ++ decisions stringToNumber toFixed containerDurationSeconds
                   (history ++ [None]) chunks)
        by (now rewrite <- app_assoc).
      exact Hlast.
Qed.

End ConsoleLines.

(** X9. For a child process whose chunks all have both lines, the lines
    that [convert] writes to the console are one line for each of some of
    the meaningful chunks, in the order of the chunks; the line is
    ["[i / n] title (year) [p% at s]"] with the file counter, the number of
    files, the name of the movie as it is, and the rounded percentage and
    the speed of its chunk. The percentage of each line differs from the one
    of the line before it, and the one of the first line from 0.00, so that
    no percentage is shown twice in a row. The percentage kept for the
    comparison is the one of the last line. *)
Theorem console_shows_each_change_once
    (join : list string -> string) (stringToNumber : string -> float)
    (toFixed : float -> Z -> string)
    (this : Movie) (outputFolderPath ffmpegBinaryPath : string)
    (currentFileIndex allFilesCount : Z) (plan : ConversionInfo.t)
    (events : list ProcessEvent) (chunks : list Progress) :
  conversionInfo this = Some plan ->
  toFixed 0%float 2%Z = "0.00" ->
  Reads events chunks ->
  let rounded :=
    percentage stringToNumber toFixed
      (ConversionInfo.containerDurationSeconds plan) in
  exists ffmpeg this' run (logged : list Progress),
    convert join stringToNumber toFixed this outputFolderPath ffmpegBinaryPath
      currentFileIndex allFilesCount events
    = JS.Normal (ffmpeg, this', run)
    /\ Subsequence logged (filter (fun p => negb (notMeaningful p)) chunks)
    /\ console run
       = map (fun p =>
                ("[" ++ JS.numberToString currentFileIndex ++ " / "
                 ++ JS.numberToString allFilesCount ++ "] "
                 ++ title this ++ " (" ++ JS.toString (year this) ++ ")"
                 ++ " [" ++ rounded p ++ "% at " ++ speed p ++ "]")%string)
           logged
    /\ Changing "0.00" (map rounded logged)
    /\ roundedProgressPercentage run = last (map rounded logged) "0.00".
Proof.
  intros Hplan Hzero Hreads rounded. unfold convert. rewrite Hplan.
  match goal with
  | |- context [ listen _ _ _ _ _ ?d ?r events ] =>
      destruct (listen_reads stringToNumber toFixed this currentFileIndex
                  allFilesCount d events chunks Hreads r [])
        as (this' & run' & El & Ec & Er)
  end.
  { cbn [roundedProgressPercentage]. unfold getRoundedProgressPercentage.
    change (0 * 100)%float with 0%float. exact Hzero. }
  rewrite El. cbn [JS.bind].
  destruct (logLines_changing stringToNumber toFixed this currentFileIndex
              allFilesCount (ConversionInfo.containerDurationSeconds plan)
              chunks []) as (logged & Hsub & Hl & Hc & Hlast).
  eexists. exists this', run', logged. split; [ reflexivity | ].
  cbn [console app] in Ec. rewrite Ec, Er, Hl.
  split; [ exact Hsub | ]. split; [ | split; [ exact Hc | exact Hlast ] ].
  apply map_ext. intros p. unfold logProgress, getFullyQualifiedName.
  now rewrite !append_assoc.
Qed.

(** X9 on the sample movie and the sample child process. *)
Lemma console_shows_each_change_once_sample :
  conversionInfo Sample.planned = Some Sample.plan
  /\ Sample.toFixed 0%float 2%Z = "0.00"
  /\ Reads Sample.events Sample.chunks
  /\ exists ffmpeg this' run (logged : list Progress),
       convert Sample.join Sample.stringToNumber Sample.toFixed Sample.planned
         "out" "/usr/local/bin/ffmpeg" 1 1 Sample.events
       = JS.Normal (ffmpeg, this', run)
       /\ Subsequence logged
            (filter (fun p => negb (notMeaningful p)) Sample.chunks)
       /\ Changing "0.00"
            (map (percentage Sample.stringToNumber Sample.toFixed 100) logged).
Proof.
  assert (Hreads : Reads Sample.events Sample.chunks).
  { unfold Sample.events, Sample.chunks.
    apply Reads_stdout; [ reflexivity | reflexivity | ].
    apply Reads_stdout; [ reflexivity | reflexivity | ].
    apply Reads_stderr.
    apply Reads_stdout; [ reflexivity | reflexivity | ].
    apply Reads_stdout; [ reflexivity | reflexivity | ].
    apply Reads_close. }
  split; [ reflexivity | split; [ reflexivity | split; [ exact Hreads | ] ] ].
  destruct (console_shows_each_change_once Sample.join Sample.stringToNumber
              Sample.toFixed Sample.planned "out" "/usr/local/bin/ffmpeg" 1 1
              Sample.plan Sample.events Sample.chunks eq_refl eq_refl Hreads)
    as (ffmpeg & this' & run & logged & Hc & Hsub & _ & Hch & _).
  exists ffmpeg, this', run, logged. auto.
Defined.

(* ================================================================== *)
(** ** Further properties: the name of the output files *)
(* ================================================================== *)

Section SafeName.

Lemma append_cancel_tail (s t u : string) :
  (s ++ u)%string = (t ++ u)%string -> s = t.
Proof.
  intros H. apply (f_equal chars) in H. rewrite !chars_app in H.
  apply app_inv_tail in H. unfold chars in H.
  rewrite <- (string_of_list_ascii_of_string s),
          <- (string_of_list_ascii_of_string t).
  now rewrite H.
Qed.

Lemma removeUnsafe_fixed (s : string) :
  removeUnsafe s = s <-> forall c, In c (chars s) -> isFileNameSafe c = true.
Proof.
  induction s as [| c s IH]; simpl.
  - split; [ intros _ c [] | reflexivity ].
  - destruct IH as [IH1 IH2]. destruct (isFileNameSafe c) eqn:Ec.
    + split.
      * intros [= H]. intros c' [<- | Hc]; auto.
      * intros H. f_equal. apply IH2. auto.
    + split.
      * intros H. exfalso.
        assert (Hin : In c (chars (removeUnsafe s))).
        { rewrite H. now left. }
        rewrite chars_removeUnsafe in Hin. apply filter_In in Hin.
        destruct Hin as (_ & Hsafe). congruence.
      * intros H. specialize (H c (or_introl eq_refl)). congruence.
Qed.

End SafeName.

(** X11. The name that is safe for a file name is one segment of a path:
    it is not empty, it is neither ["."] nor [".."], and none of its
    characters is a slash, a backslash or a colon, whatever the title and
    the year. The part made of the title has no point either, and the whole
    name has none when the year is an integer below 2^53 in absolute value.
    Filtering the title again changes nothing, and for a title that has only
    characters of the class, and for no other, the safe name is the name
    itself. *)
Theorem safe_name_is_one_path_segment (this : Movie) :
  getFullyQualifiedName this true <> ""
  /\ getFullyQualifiedName this true <> "."
  /\ getFullyQualifiedName this true <> ".."
  /\ (forall c, In c (chars (getFullyQualifiedName this true)) ->
        c <> "/"%char /\ c <> "\"%char /\ c <> ":"%char)
  /\ (forall c, In c (chars (removeUnsafe (title this))) -> c <> "."%char)
  /\ (forall n,
        JS.integerValue (year this) = Some n ->
        forall c, In c (chars (getFullyQualifiedName this true)) ->
          c <> "."%char)
  /\ removeUnsafe (removeUnsafe (title this)) = removeUnsafe (title this)
  /\ (getFullyQualifiedName this true = getFullyQualifiedName this false
      <-> forall c, In c (chars (title this)) -> isFileNameSafe c = true).
Proof.
  assert (Hspace : In " "%char (chars (getFullyQualifiedName this true))).
  { unfold getFullyQualifiedName. rewrite !chars_app, !in_app_iff. simpl. auto. }
  assert (Hsafe : forall c, isFileNameSafe c = true ->
                    c <> "/"%char /\ c <> "\"%char /\ c <> "."%char
                    /\ c <> ":"%char).
  { intros c H. repeat split; intros ->; discriminate H. }
  assert (Htitle : forall c, In c (chars (removeUnsafe (title this))) ->
                             isFileNameSafe c = true).
  { intros c. rewrite chars_removeUnsafe, filter_In. tauto. }
  split; [ | split; [ | split; [ | split; [ | split; [ | split; [ | split ] ] ] ] ] ].
  - intros E. rewrite E in Hspace. destruct Hspace.
  - intros E. rewrite E in Hspace. simpl in Hspace.
    destruct Hspace as [H | []]. discriminate H.
  - intros E. rewrite E in Hspace. simpl in Hspace.
    destruct Hspace as [H | [H | []]]; discriminate H.
  - intros c. unfold getFullyQualifiedName.
    rewrite !chars_app, !in_app_iff. simpl.
    intros [H | [[<- | [<- | []]] | [H | [<- | []]]]].
    + apply Htitle, Hsafe in H. tauto.
    + repeat split; discriminate.
    + repeat split; discriminate.
    + apply toString_chars in H. destruct H as [H | [-> | ->]].
      * apply Hsafe in H. tauto.
      * repeat split; discriminate.
      * repeat split; discriminate.
    + repeat split; discriminate.
  - intros c H. apply Htitle, Hsafe in H. tauto.
  - intros n Hn c. unfold getFullyQualifiedName.
    rewrite (toString_integer _ _ Hn).
    rewrite !chars_app, !in_app_iff. simpl.
    intros [H | [[<- | [<- | []]] | [H | [<- | []]]]]; try discriminate.
    + apply Htitle, Hsafe in H. tauto.
    + apply numberToString_chars in H.
      destruct H as [H | ->]; [ | discriminate ].
      apply digit_isFileNameSafe, Hsafe in H. tauto.
  - apply removeUnsafe_fixed. exact Htitle.
  - unfold getFullyQualifiedName. rewrite <- removeUnsafe_fixed. split.
    + apply append_cancel_tail.
    + now intros ->.
Qed.

(* ================================================================== *)
(** ** Further properties: the configuration *)
(* ================================================================== *)

Section ConfigFacts.

Lemma none_invalid {A} (valid : A -> bool) (l : list A) :
  Nat.ltb 0 (List.length (filter (fun x => negb (valid x)) l)) = false
  <-> Forall (fun x => valid x = true) l.
Proof.
  induction l as [| x l IH]; simpl.
  - split; [ constructor | reflexivity ].
  - destruct (valid x) eqn:E; simpl.
    + rewrite IH. split; [ now constructor | intros H; now inversion H ].
    + split; [ discriminate | intros H; inversion H; congruence ].
Qed.

Lemma some_invalid {A} (valid : A -> bool) (l : list A) :
  filter (fun x => negb (valid x)) l <> [] ->
  Nat.ltb 0 (List.length (filter (fun x => negb (valid x)) l)) = true.
Proof.
  destruct (filter _ l); [ congruence | reflexivity ].
Qed.

Lemma filter_fromIMovie (valid : Movie -> bool) (l : list IMovie.t) :
  filter valid (map fromIMovie l)
  = map fromIMovie (filter (fun m => valid (fromIMovie m)) l).
Proof.
  induction l as [| m l IH]; simpl; [ reflexivity | ].
  destruct (valid (fromIMovie m)); simpl; now rewrite IH.
Qed.

Lemma existingPath_Some (w : World.t) (path : option string) (p : string) :
  existingPath w path = Some p <-> path = Some p /\ World.existsSync w p = true.
Proof.
  unfold existingPath. destruct path as [q |].
  - destruct (World.existsSync w q) eqn:E.
    + split; [ intros [= <-]; auto | intros ([= <-] & _); reflexivity ].
    + split; [ discriminate | intros ([= <-] & H); congruence ].
  - split; [ discriminate | intros (H & _); discriminate H ].
Qed.

End ConfigFacts.

(** X12. [Config.parse] returns a configuration exactly when the text is
    parsed, its three paths are strings that name something that exists, its
    movies are an array and every movie has an input file that exists, a
    title that is not empty and a year from 1888 to the current year, as
    numbers compare; it then returns those paths and those movies. *)
Theorem config_is_accepted_when_all_is_valid (w : World.t)
    (configString : string) (config : Config.t) :
  parse w configString = JS.Normal config
  <-> exists raw,
        World.jsonParse w configString = JS.Normal raw
        /\ RawConfig.ffmpegBinaryPath raw = Some (Config.ffmpegBinaryPath config)
        /\ World.existsSync w (Config.ffmpegBinaryPath config) = true
        /\ RawConfig.ffprobeBinaryPath raw = Some (Config.ffprobeBinaryPath config)
        /\ World.existsSync w (Config.ffprobeBinaryPath config) = true
        /\ RawConfig.outputFolderPath raw = Some (Config.outputFolderPath config)
        /\ World.existsSync w (Config.outputFolderPath config) = true
        /\ RawConfig.movies raw = Some (Config.movies config)
        /\ Forall
             (fun movie =>
                World.existsSync w (IMovie.inputFilePath movie) = true
                /\ IMovie.title movie <> ""
                /\ (1888 <=? IMovie.year movie)%float = true
                /\ (IMovie.year movie <=? World.currentYear w)%float = true)
             (Config.movies config).
Proof.
  assert (Hvalid : forall l : list IMovie.t,
    (Forall (fun m => hasValidInputFilePath w m = true) (map fromIMovie l)
     /\ Forall (fun m => hasValidTitle m = true) (map fromIMovie l)
     /\ Forall (fun m => hasValidYear w m = true) (map fromIMovie l))
    <-> Forall
          (fun movie =>
             World.existsSync w (IMovie.inputFilePath movie) = true
             /\ IMovie.title movie <> ""
             /\ (1888 <=? IMovie.year movie)%float = true
             /\ (IMovie.year movie <=? World.currentYear w)%float = true) l).
  { assert (Hone : forall m : IMovie.t,
      (hasValidInputFilePath w (fromIMovie m) = true
       /\ hasValidTitle (fromIMovie m) = true
       /\ hasValidYear w (fromIMovie m) = true)
      <-> (World.existsSync w (IMovie.inputFilePath m) = true
           /\ IMovie.title m <> ""
           /\ (1888 <=? IMovie.year m)%float = true
           /\ (IMovie.year m <=? World.currentYear w)%float = true)).
    { intros m.
      unfold hasValidInputFilePath, hasValidTitle, hasValidYear, fromIMovie.
      cbn [inputFilePath title year].
      rewrite andb_true_iff.
      destruct (IMovie.title m) as [| c t]; simpl.
      - split; [ intros (_ & H & _); discriminate
               | intros (_ & H & _); congruence ].
      - split; intros (H1 & _ & H3); repeat split; try tauto;
          discriminate. }
    induction l as [| m l IH]; simpl.
    - split; [ constructor | repeat constructor ].
    - split.
      + intros (F1 & F2 & F3). inversion F1; inversion F2; inversion F3; subst.
        constructor; [ apply Hone; auto | apply IH; auto ].
      + intros F. inversion F as [| ? ? Hm Hl]; subst.
        apply Hone in Hm. apply IH in Hl.
        destruct Hm as (? & ? & ?), Hl as (? & ? & ?).
        repeat split; constructor; assumption. }
  unfold parse. split.
  - destruct (World.jsonParse w configString) as [raw | message] eqn:Ep;
      cbn [JS.bind]; [ | discriminate ].
    destruct (existingPath w (RawConfig.ffmpegBinaryPath raw)) as [p1 |] eqn:E1;
      [ | discriminate ].
    destruct (existingPath w (RawConfig.ffprobeBinaryPath raw)) as [p2 |] eqn:E2;
      [ | discriminate ].
    destruct (existingPath w (RawConfig.outputFolderPath raw)) as [p3 |] eqn:E3;
      [ | discriminate ].
    destruct (RawConfig.movies raw) as [ms |] eqn:Em; [ | discriminate ].
    destruct (Nat.ltb 0 (List.length (filter (fun movie =>
                negb (hasValidInputFilePath w movie)) (map fromIMovie ms))))
      eqn:F1; [ discriminate | ].
    destruct (Nat.ltb 0 (List.length (filter (fun movie =>
                negb (hasValidTitle movie)) (map fromIMovie ms))))
      eqn:F2; [ discriminate | ].
    destruct (Nat.ltb 0 (List.length (filter (fun movie =>
                negb (hasValidYear w movie)) (map fromIMovie ms))))
      eqn:F3; [ discriminate | ].
    intros [= <-]. cbn.
    apply existingPath_Some in E1, E2, E3.
    apply none_invalid in F1, F2, F3.
    exists raw. rewrite Em. repeat split; try tauto.
    apply Hvalid. auto.
  - intros (raw & Ep & E1 & X1 & E2 & X2 & E3 & X3 & Em & Hall).
    rewrite Ep. cbn [JS.bind].
    rewrite (proj2 (existingPath_Some w _ _) (conj E1 X1)).
    rewrite (proj2 (existingPath_Some w _ _) (conj E2 X2)).
    rewrite (proj2 (existingPath_Some w _ _) (conj E3 X3)).
    rewrite Em. apply Hvalid in Hall. destruct Hall as (F1 & F2 & F3).
    rewrite (proj2 (none_invalid _ _) F1).
    rewrite (proj2 (none_invalid _ _) F2).
    rewrite (proj2 (none_invalid _ _) F3).
    destruct config; reflexivity.
Qed.

(** X13. [Config.parse] reports the first check that fails and no other:
    the path of ffmpeg, then the path of ffprobe, then the output folder,
    each with its own message when it is not a string or does not exist,
    then the movies that are not an array, then the input files that do not
    exist, then the titles, then the years. The message on the input files
    lists the paths that do not exist, in the order of the configuration;
    the message on the years lists the titles of the movies whose year is
    out of range; the message on the titles has one line for each movie with
    an empty title, which is an empty line. *)
Theorem config_reports_first_failed_check (w : World.t) (configString : string)
    (raw : RawConfig.t) :
  World.jsonParse w configString = JS.Normal raw ->
  let paths :=
    existingPath w (RawConfig.ffmpegBinaryPath raw) <> None
    /\ existingPath w (RawConfig.ffprobeBinaryPath raw) <> None
    /\ existingPath w (RawConfig.outputFolderPath raw) <> None in
  let missing (movie : IMovie.t) :=
    negb (World.existsSync w (IMovie.inputFilePath movie)) in
  let untitled (movie : IMovie.t) := String.eqb (IMovie.title movie) "" in
  let outOfRange (movie : IMovie.t) :=
    negb ((1888 <=? IMovie.year movie)%float
          && (IMovie.year movie <=? World.currentYear w)%float) in
  (existingPath w (RawConfig.ffmpegBinaryPath raw) = None ->
   parse w configString = JS.Throw "config.ffmpegBinaryPath does not exist")
  /\ (existingPath w (RawConfig.ffmpegBinaryPath raw) <> None ->
      existingPath w (RawConfig.ffprobeBinaryPath raw) = None ->
      parse w configString = JS.Throw "config.ffprobeBinaryPath does not exist")
  /\ (existingPath w (RawConfig.ffmpegBinaryPath raw) <> None ->
      existingPath w (RawConfig.ffprobeBinaryPath raw) <> None ->
      existingPath w (RawConfig.outputFolderPath raw) = None ->
      parse w configString = JS.Throw "config.outputFolderPath does not exist")
  /\ (paths -> RawConfig.movies raw = None ->
      parse w configString = JS.Throw "config.movies is not an array")
  /\ (forall movies,
        paths -> RawConfig.movies raw = Some movies ->
        filter missing movies <> [] ->
        parse w configString
        = JS.Throw
            ("The following input files do not exist:" ++ newline
             ++ JS.arrayJoin newline
                  (map IMovie.inputFilePath (filter missing movies)))%string)
  /\ (forall movies,
        paths -> RawConfig.movies raw = Some movies ->
        filter missing movies = [] ->
        filter untitled movies <> [] ->
        parse w configString
        = JS.Throw
            ("The following movie titles are invalid:" ++ newline
             ++ JS.arrayJoin newline
                  (repeat EmptyString (List.length (filter untitled movies))))%string)
  /\ (forall movies,
        paths -> RawConfig.movies raw = Some movies ->
        filter missing movies = [] ->
        filter untitled movies = [] ->
        filter outOfRange movies <> [] ->
        parse w configString
        = JS.Throw
            ("The following movies' years are invalid:" ++ newline
             ++ JS.arrayJoin newline
                  (map IMovie.title (filter outOfRange movies)))%string).
Proof.
  intros Hparse paths missing untitled outOfRange. unfold parse.
  rewrite Hparse. cbn [JS.bind].
  assert (Hmissing : forall movies,
    filter (fun movie => negb (hasValidInputFilePath w movie))
      (map fromIMovie movies)
    = map fromIMovie (filter missing movies)).
  { intros movies. now rewrite filter_fromIMovie. }
  assert (Huntitled : forall movies,
    filter (fun movie => negb (hasValidTitle movie)) (map fromIMovie movies)
    = map fromIMovie (filter untitled movies)).
  { intros movies. rewrite filter_fromIMovie. f_equal.
    apply filter_ext. intros m. unfold hasValidTitle, untitled, fromIMovie.
    cbn [title]. destruct (IMovie.title m); reflexivity. }
  assert (Hrange : forall movies,
    filter (fun movie => negb (hasValidYear w movie)) (map fromIMovie movies)
    = map fromIMovie (filter outOfRange movies)).
  { intros movies. now rewrite filter_fromIMovie. }
  assert (Hempty : forall (l : list IMovie.t),
    l = [] -> Nat.ltb 0 (List.length (map fromIMovie l)) = false).
  { intros l ->. reflexivity. }
  assert (Hsome : forall (l : list IMovie.t),
    l <> [] -> Nat.ltb 0 (List.length (map fromIMovie l)) = true).
  { intros [| m l] H; [ congruence | reflexivity ]. }
  split; [ | split; [ | split; [ | split; [ | split; [ | split ] ] ] ] ].
  - intros ->. reflexivity.
  - intros P1 ->.
    destruct (existingPath w (RawConfig.ffmpegBinaryPath raw)); [ | congruence ].
    reflexivity.
  - intros P1 P2 ->.
    destruct (existingPath w (RawConfig.ffmpegBinaryPath raw)); [ | congruence ].
    destruct (existingPath w (RawConfig.ffprobeBinaryPath raw)); [ | congruence ].
    reflexivity.
  - intros (P1 & P2 & P3) Em.
    destruct (existingPath w (RawConfig.ffmpegBinaryPath raw)); [ | congruence ].
    destruct (existingPath w (RawConfig.ffprobeBinaryPath raw)); [ | congruence ].
    destruct (existingPath w (RawConfig.outputFolderPath raw)); [ | congruence ].
    now rewrite Em.
  - intros movies (P1 & P2 & P3) Em Hm.
    destruct (existingPath w (RawConfig.ffmpegBinaryPath raw)); [ | congruence ].
    destruct (existingPath w (RawConfig.ffprobeBinaryPath raw)); [ | congruence ].
    destruct (existingPath w (RawConfig.outputFolderPath raw)); [ | congruence ].
    rewrite Em, Hmissing, (Hsome _ Hm), map_map. reflexivity.
  - intros movies (P1 & P2 & P3) Em Hm Hu.
    destruct (existingPath w (RawConfig.ffmpegBinaryPath raw)); [ | congruence ].
    destruct (existingPath w (RawConfig.ffprobeBinaryPath raw)); [ | congruence ].
    destruct (existingPath w (RawConfig.outputFolderPath raw)); [ | congruence ].
    rewrite Em, Hmissing, (Hempty _ Hm), Huntitled, (Hsome _ Hu), map_map.
    replace (map (fun x => title (fromIMovie x)) (filter untitled movies))
      with (repeat EmptyString (List.length (filter untitled movies)));
      [ reflexivity | ].
    clear. induction movies as [| m movies IH]; [ reflexivity | ].
    cbn [filter]. destruct (untitled m) eqn:E;
      cbn [List.length repeat map]; [ | exact IH ].
    f_equal; [ | exact IH ].
    unfold untitled in E. apply String.eqb_eq in E. now symmetry.
  - intros movies (P1 & P2 & P3) Em Hm Hu Hr.
    destruct (existingPath w (RawConfig.ffmpegBinaryPath raw)); [ | congruence ].
    destruct (existingPath w (RawConfig.ffprobeBinaryPath raw)); [ | congruence ].
    destruct (existingPath w (RawConfig.outputFolderPath raw)); [ | congruence ].
    rewrite Em, Hmissing, (Hempty _ Hm), Huntitled, (Hempty _ Hu),
      Hrange, (Hsome _ Hr), map_map. reflexivity.
Qed.

(** X13 in a world with no file at all: the path of ffmpeg is reported, and
    nothing on the other paths or on the input file, which do not exist
    either. *)
Lemma config_reports_first_failed_check_sample :
  World.jsonParse Sample.emptyWorld "{}" = JS.Normal Sample.rawConfig
  /\ parse Sample.emptyWorld "{}"
     = JS.Throw "config.ffmpegBinaryPath does not exist".
Proof.
  split; [ reflexivity | ].
  exact (proj1
    (config_reports_first_failed_check Sample.emptyWorld "{}" Sample.rawConfig
       eq_refl) eq_refl).
Defined.

(* ================================================================== *)
(** ** Further properties: the run of the program *)
(* ================================================================== *)

Section Batch.

Variable w : World.t.

Lemma selectAudioStream_reads (l : list AudioStream.t)
    (answers rest : list string) (a : AudioStream.t) :
  selectAudioStream l answers = Some (a, rest) ->
  exists used, answers = used ++ rest /\ (1 <= List.length used)%nat.
Proof.
  induction answers as [| ans answers IH]; cbn [selectAudioStream];
    [ discriminate | ].
  destruct (selectAudioStreamRound l ans) as [a' |].
  - intros [= <- <-]. exists [ ans ]. split; [ reflexivity | simpl; lia ].
  - intros H. destruct (IH H) as (used & -> & Hlen).
    exists (ans :: used). split; [ reflexivity | simpl; lia ].
Qed.

Lemma selectSubtitleStream_reads (l : list SubtitleStream.t)
    (answers rest : list string) (s : option SubtitleStream.t) :
  selectSubtitleStream l answers = Some (s, rest) ->
  exists used, answers = used ++ rest /\ (1 <= List.length used)%nat.
Proof.
  induction answers as [| ans answers IH]; cbn [selectSubtitleStream];
    [ discriminate | ].
  destruct (selectSubtitleStreamRound l ans) as [s' |].
  - intros [= <- <-]. exists [ ans ]. split; [ reflexivity | simpl; lia ].
  - intros H. destruct (IH H) as (used & -> & Hlen).
    exists (ans :: used). split; [ reflexivity | simpl; lia ].
Qed.

Lemma collectConversionInfo_reads (this this' : Movie)
    (ffprobeOutput : Ffprobe.FfProbeOutput) (answers rest : list string) :
  collectConversionInfo this ffprobeOutput answers = Some (this', rest) ->
  exists used, answers = used ++ rest /\ (2 <= List.length used)%nat.
Proof.
  unfold collectConversionInfo.
  destruct (selectAudioStream _ answers) as [[a answers1] |] eqn:Ea;
    [ | discriminate ].
  destruct (selectSubtitleStream _ answers1) as [[s answers2] |] eqn:Es;
    [ | discriminate ].
  intros [= <- <-].
  apply selectAudioStream_reads in Ea. destruct Ea as (u1 & -> & H1).
  apply selectSubtitleStream_reads in Es. destruct Es as (u2 & -> & H2).
  exists (u1 ++ u2). rewrite <- app_assoc. split; [ reflexivity | ].
  rewrite length_app. lia.
Qed.

Lemma collectConversionInfo_keeps (this this' : Movie)
    (ffprobeOutput : Ffprobe.FfProbeOutput) (answers rest : list string) :
  collectConversionInfo this ffprobeOutput answers = Some (this', rest) ->
  title this' = title this
  /\ year this' = year this
  /\ inputFilePath this' = inputFilePath this.
Proof.
  unfold collectConversionInfo.
  destruct (selectAudioStream _ answers) as [[a answers1] |]; [ | discriminate ].
  destruct (selectSubtitleStream _ answers1) as [[s answers2] |];
    [ | discriminate ].
  intros [= <- <-]. auto.
Qed.

Lemma collectAll_planned (ffprobeBinaryPath : string) (movies : list Movie) :
  forall (answers : list string) (planned : list Movie) (rest : list string),
    collectAll w ffprobeBinaryPath movies answers = Planned planned rest ->
    Forall2 (PlannedFrom w ffprobeBinaryPath) movies planned
    /\ exists used,
         answers = used ++ rest
         /\ (2 * List.length movies <= List.length used)%nat.
Proof.
  induction movies as [| movie movies IH]; intros answers planned rest;
    cbn [collectAll].
  - intros [= <- <-]. split; [ constructor | ].
    exists []. split; [ reflexivity | simpl; lia ].
  - destruct (World.ffprobe w ffprobeBinaryPath (inputFilePath movie))
      as [ffprobeOutput | message] eqn:Ep; [ | discriminate ].
    destruct (collectConversionInfo movie ffprobeOutput answers)
      as [[movie' answers1] |] eqn:Ec; [ | discriminate ].
    destruct (collectAll w ffprobeBinaryPath movies answers1)
      as [planned1 rest1 | message | ] eqn:Ea; [ | discriminate | discriminate ].
    intros [= <- <-]. destruct (IH _ _ _ Ea) as (Hall & used1 & -> & Hlen1).
    destruct (collectConversionInfo_reads _ _ _ _ _ Ec) as (used & -> & Hlen).
    destruct (collectConversionInfo_keeps _ _ _ _ _ Ec) as (Ht & Hy & Hi).
    destruct (collectConversionInfo_result _ _ _ _ _ Ec) as (Hr & plan & Hplan).
    destruct (collectConversionInfo_plan _ _ _ _ _ plan Ec Hplan)
      as (Haudio & Hsub & Hina & Hins).
    split.
    + constructor; [ | exact Hall ].
      unfold PlannedFrom. repeat (split; [ assumption | ]).
      exists ffprobeOutput, plan. auto 10.
    + exists (used ++ used1). rewrite <- app_assoc. split; [ reflexivity | ].
      rewrite length_app. simpl. lia.
Qed.

Lemma collectAll_threw (ffprobeBinaryPath : string) (movies : list Movie) :
  forall (answers : list string) (message : string),
    collectAll w ffprobeBinaryPath movies answers = PlanningThrew message ->
    exists movie,
      In movie movies
      /\ World.ffprobe w ffprobeBinaryPath (inputFilePath movie)
         = JS.Throw message.
Proof.
  induction movies as [| movie movies IH]; intros answers message;
    cbn [collectAll]; [ discriminate | ].
  destruct (World.ffprobe w ffprobeBinaryPath (inputFilePath movie))
    as [ffprobeOutput | message'] eqn:Ep.
  - destruct (collectConversionInfo movie ffprobeOutput answers)
      as [[movie' answers1] |]; [ | discriminate ].
    destruct (collectAll w ffprobeBinaryPath movies answers1)
      as [planned1 rest1 | message1 | ] eqn:Ea; [ discriminate | | discriminate ].
    intros [= <-]. destruct (IH _ _ Ea) as (m & Hin & Hm).
    exists m. split; [ now right | exact Hm ].
  - intros [= <-]. exists movie. split; [ now left | exact Ep ].
Qed.

Variable outputFolderPath ffmpegBinaryPath : string.

(** [convert] on a movie with its plan: the child process it starts, and the
    instance when the promise is resolved or left pending. *)
Lemma convert_settles (movie : Movie) (currentFileIndex allFilesCount : Z) :
  Convertible w outputFolderPath ffmpegBinaryPath movie ->
  exists run,
    convert (World.join w) (World.stringToNumber w) (World.toFixed w) movie
      outputFolderPath ffmpegBinaryPath currentFileIndex allFilesCount
      (processOf w outputFolderPath ffmpegBinaryPath movie)
    = JS.Normal
        (spawnedFor w outputFolderPath ffmpegBinaryPath movie,
         (if closes (processOf w outputFolderPath ffmpegBinaryPath movie)
          then finished w outputFolderPath ffmpegBinaryPath movie
          else movie),
         run).
Proof.
  intros ((plan & Hplan) & chunks & Hreads). unfold convert.
  rewrite Hplan.
  match goal with
  | |- context [ listen _ _ _ _ _ ?d ?r ?e ] =>
      destruct (listen_terminates (World.stringToNumber w) (World.toFixed w)
                  movie currentFileIndex allFilesCount d e chunks Hreads r)
        as (this' & run' & El & Es & Et)
  end.
  rewrite El. cbn [JS.bind]. exists run'.
  cbn [stderr] in Es. simpl append in Es.
  rewrite Et, Es.
  unfold spawnedFor, finished, resultOf, succeeds, ffmpegArguments.
  rewrite Hplan.
  cbn [List.concat]. rewrite app_nil_r. reflexivity.
Qed.

(** The second loop of [main] on movies with their plans: a conversion is
    started when the one before it has terminated; when the last one has,
    every instance has its result. *)
Lemma convertAll_sequential (allFilesCount : Z) (movies : list Movie) :
  Forall (Convertible w outputFolderPath ffmpegBinaryPath) movies ->
  forall currentFileIndex,
    exists printed,
      convertAll w outputFolderPath ffmpegBinaryPath allFilesCount
        currentFileIndex movies
      = if forallb
             (fun movie =>
                closes (processOf w outputFolderPath ffmpegBinaryPath movie))
             movies
        then
          Encoded (map (finished w outputFolderPath ffmpegBinaryPath) movies)
            printed
            (map (spawnedFor w outputFolderPath ffmpegBinaryPath) movies)
        else
          EncodingWaits
            (map (spawnedFor w outputFolderPath ffmpegBinaryPath)
               (started w outputFolderPath ffmpegBinaryPath movies)).
Proof.
  induction 1 as [| movie movies Hmovie Hmovies IH]; intros currentFileIndex.
  - exists []. reflexivity.
  - cbn [convertAll forallb started map].
    destruct (convert_settles movie (currentFileIndex + 1) allFilesCount Hmovie)
      as (run & ->).
    destruct (closes (processOf w outputFolderPath ffmpegBinaryPath movie)).
    + destruct (IH (currentFileIndex + 1)%Z) as (printed & IHeq).
      cbn [andb]. cbv beta iota zeta.
      exists (console run ++ printed). rewrite IHeq.
      destruct (forallb _ movies); reflexivity.
    + exists []. reflexivity.
Qed.

Lemma conversionResults_finished (movies : list Movie) :
  conversionResults (map (finished w outputFolderPath ffmpegBinaryPath) movies)
  = JS.Normal
      (map (fun movie =>
              (finished w outputFolderPath ffmpegBinaryPath movie,
               resultOf w outputFolderPath ffmpegBinaryPath movie))
         movies).
Proof.
  induction movies as [| movie movies IH]; [ reflexivity | ].
  cbn [map conversionResults]. rewrite IH. reflexivity.
Qed.

Lemma started_prefix (movies : list Movie) :
  forallb
    (fun movie => closes (processOf w outputFolderPath ffmpegBinaryPath movie))
    movies = false ->
  exists before movie after,
    movies = before ++ movie :: after
    /\ started w outputFolderPath ffmpegBinaryPath movies = before ++ [ movie ]
    /\ Forall
         (fun movie =>
            closes (processOf w outputFolderPath ffmpegBinaryPath movie) = true)
         before
    /\ closes (processOf w outputFolderPath ffmpegBinaryPath movie) = false.
Proof.
  induction movies as [| movie movies IH]; cbn [forallb started];
    [ discriminate | ].
  destruct (closes (processOf w outputFolderPath ffmpegBinaryPath movie)) eqn:E.
  - cbn [andb]. intros H.
    destruct (IH H) as (before & m & after & -> & -> & Hall & Hm).
    exists (movie :: before), m, after.
    repeat split; auto.
  - intros _. exists [], movie, movies. repeat split; auto.
Qed.

(** The end of [main] once every conversion has terminated. *)
Lemma report_finished (movies : list Movie) (printed : list string)
    (spawned : list Spawned) :
  let failed :=
    filter
      (fun movie =>
         negb (succeeds (processOf w outputFolderPath ffmpegBinaryPath movie)))
      movies in
  report (map (finished w outputFolderPath ffmpegBinaryPath) movies) printed
    spawned
  = match failed with
    | [] => Exited 0 (printed ++ [ (newline ++ "SUCCESS")%string ]) [] [] spawned
    | _ :: _ =>
        Exited 1
          (printed
           ++ map (fun movie =>
                     (newline ++ getFullyQualifiedName movie false ++ newline
                      ++ diagnostics
                           (processOf w outputFolderPath ffmpegBinaryPath movie))%string)
                failed
           ++ [ (newline ++ "FINISHED WITH "
                 ++ JS.numberToString (Z.of_nat (List.length failed))
                 ++ " ERRORS")%string ])
          [] [] spawned
    end.
Proof.
  intros failed. unfold report. rewrite conversionResults_finished.
  rewrite filter_map_swap. cbn [snd resultOf ConversionResult.successful].
  fold failed. rewrite length_map, map_map.
  destruct failed as [| movie failed']; reflexivity.
Qed.

End Batch.

Section Modes.

Lemma mode_config (mode : string) :
  mode = "-c" \/ mode = "--config" ->
  existsb (fun m => String.eqb m mode) [ "-c"; "--config"; "-p"; "--print-config" ]
  = true
  /\ existsb (fun m => String.eqb m mode) [ "-p"; "--print-config" ] = false.
Proof.
  intros [-> | ->]; split; reflexivity.
Qed.

Lemma mode_cases (mode : string) :
  existsb (fun m => String.eqb m mode) [ "-c"; "--config"; "-p"; "--print-config" ]
  = true ->
  if existsb (fun m => String.eqb m mode) [ "-p"; "--print-config" ]
  then mode = "-p" \/ mode = "--print-config"
  else mode = "-c" \/ mode = "--config".
Proof.
  cbn [existsb].
  destruct (String.eqb_spec "-c" mode) as [<- | ?]; [ now left | ].
  destruct (String.eqb_spec "--config" mode) as [<- | ?]; [ now right | ].
  destruct (String.eqb_spec "-p" mode) as [<- | ?]; [ now left | ].
  destruct (String.eqb_spec "--print-config" mode) as [<- | ?]; [ now right | ].
  discriminate.
Qed.

End Modes.

(** X14. The first loop of [main] plans all the movies or none: when it
    ends, every movie has a plan made from the probe of its own input file,
    with its title, year and input file unchanged, and the operator was read
    from the first answer on, at least two answers for each movie; when it
    throws, the prober has thrown that on one of the movies. *)
Theorem batch_is_planned_movie_by_movie (w : World.t)
    (ffprobeBinaryPath : string) (movies : list Movie) (answers : list string) :
  (forall planned rest,
     collectAll w ffprobeBinaryPath movies answers = Planned planned rest ->
     Forall2 (PlannedFrom w ffprobeBinaryPath) movies planned
     /\ List.length planned = List.length movies
     /\ exists used,
          answers = used ++ rest
          /\ (2 * List.length movies <= List.length used)%nat)
  /\ (forall message,
        collectAll w ffprobeBinaryPath movies answers = PlanningThrew message ->
        exists movie,
          In movie movies
          /\ World.ffprobe w ffprobeBinaryPath (inputFilePath movie)
             = JS.Throw message)
  /\ ((List.length answers < 2 * List.length movies)%nat ->
      forall planned rest,
        collectAll w ffprobeBinaryPath movies answers <> Planned planned rest).
Proof.
  split; [ | split ].
  - intros planned rest H.
    destruct (collectAll_planned w ffprobeBinaryPath movies answers planned
                rest H) as (Hall & Hused).
    split; [ exact Hall | split; [ | exact Hused ] ].
    symmetry. eapply Forall2_length; eauto.
  - apply collectAll_threw.
  - intros Hlen planned rest H.
    destruct (collectAll_planned w ffprobeBinaryPath movies answers planned
                rest H) as (_ & used & -> & Hused).
    rewrite length_app in Hlen. lia.
Qed.

(** X15. A run of [main] that exits or waits having started a child process
    was given two arguments, the first of them [-c] or [--config], has read
    a configuration that [Config.parse] accepts and has planned every movie
    of it. A run that has written a file was given [-p] or [--print-config],
    has written the skeleton to the path given and nothing else, and has
    started no child process. With another number of arguments the help is
    printed and the exit code is 1. *)
Theorem processes_start_only_after_complete_planning (w : World.t)
    (argv : list string) :
  (forall spawned,
     (main w argv = Waiting spawned
      \/ exists code printed errors written,
           main w argv = Exited code printed errors written spawned) ->
     spawned <> [] ->
     exists node script mode configFilePath config planned rest,
       argv = [ node; script; mode; configFilePath ]
       /\ (mode = "-c" \/ mode = "--config")
       /\ parseFromFile w configFilePath = JS.Normal config
       /\ collectAll w (Config.ffprobeBinaryPath config)
            (map fromIMovie (Config.movies config)) (World.answers w)
          = Planned planned rest
       /\ Forall2 (PlannedFrom w (Config.ffprobeBinaryPath config))
            (map fromIMovie (Config.movies config)) planned)
  /\ (forall code printed errors written spawned,
        main w argv = Exited code printed errors written spawned ->
        written <> [] ->
        exists node script mode configFilePath,
          argv = [ node; script; mode; configFilePath ]
          /\ (mode = "-p" \/ mode = "--print-config")
          /\ written
             = [ (configFilePath,
                  (World.jsonStringify w EXAMPLE_CONFIG ++ newline)%string) ]
          /\ code = 0%Z /\ printed = [] /\ errors = [] /\ spawned = [])
  /\ (List.length argv <> 4%nat -> main w argv = Exited 1 printHelp [] [] []).
Proof.
  assert (Hreport : forall movies printed spawned,
    (forall message, report movies printed spawned <> Waiting message)
    /\ forall code printed' errors written spawned',
         report movies printed spawned
         = Exited code printed' errors written spawned' ->
         written = [] /\ spawned' = spawned).
  { intros movies printed spawned. unfold report.
    destruct (conversionResults movies); [ | split; discriminate ].
    destruct (Nat.ltb 0 _); split; try discriminate;
      intros ? ? ? ? ? [= <- <- <- <- <-]; auto. }
  destruct argv as [| node [| script [| mode [| configFilePath [| extra argv ]]]]];
    try (split; [ | split ];
         [ intros spawned [H | (? & ? & ? & ? & H)] Hs;
           cbn in H; try discriminate; injection H as <-; congruence
         | intros ? ? ? ? ? H Hw; cbn in H; injection H as <- <- <- <- <-;
           congruence
         | reflexivity ]).
  unfold main. cbn [skipn].
  destruct (existsb (fun m => String.eqb m mode)
              [ "-c"; "--config"; "-p"; "--print-config" ]) eqn:Eknown;
    cbn [negb].
  2: { split; [ | split ].
       - intros spawned [H | (? & ? & ? & ? & H)] Hs;
           try discriminate; injection H as <-; congruence.
       - intros ? ? ? ? ? [= <- <- <- <- <-]; congruence.
       - simpl. congruence. }
  pose proof (mode_cases mode Eknown) as Hmode.
  destruct (existsb (fun m => String.eqb m mode) [ "-p"; "--print-config" ]).
  { split; [ | split ].
    - intros spawned [H | (? & ? & ? & ? & H)] Hs;
        try discriminate; injection H as <-; congruence.
    - intros ? ? ? ? ? [= <- <- <- <- <-] _.
      exists node, script, mode, configFilePath. repeat split; auto.
    - simpl. congruence. }
  destruct (parseFromFile w configFilePath) as [config | message] eqn:Eparse.
  2: { split; [ | split ].
       - intros spawned [H | (? & ? & ? & ? & H)] Hs;
           try discriminate; injection H as <-; congruence.
       - intros ? ? ? ? ? [= <- <- <- <- <-]; congruence.
       - simpl. congruence. }
  destruct (collectAll w (Config.ffprobeBinaryPath config)
              (map fromIMovie (Config.movies config)) (World.answers w))
    as [planned rest | message | ] eqn:Eplan.
  2: { split; [ | split ].
       - intros spawned [H | (? & ? & ? & ? & H)]; discriminate.
       - discriminate.
       - simpl. congruence. }
  2: { split; [ | split ].
       - intros spawned [H | (? & ? & ? & ? & H)] Hs;
           try discriminate; injection H as <-; congruence.
       - discriminate.
       - simpl. congruence. }
  assert (Hgood : exists node' script' mode' configFilePath' config planned rest,
    [ node; script; mode; configFilePath ]
    = [ node'; script'; mode'; configFilePath' ]
    /\ (mode' = "-c" \/ mode' = "--config")
    /\ parseFromFile w configFilePath' = JS.Normal config
    /\ collectAll w (Config.ffprobeBinaryPath config)
         (map fromIMovie (Config.movies config)) (World.answers w)
       = Planned planned rest
    /\ Forall2 (PlannedFrom w (Config.ffprobeBinaryPath config))
         (map fromIMovie (Config.movies config)) planned).
  { exists node, script, mode, configFilePath, config, planned, rest.
    repeat split; auto.
    exact (proj1 (collectAll_planned w _ _ _ _ _ Eplan)). }
  destruct (convertAll w (Config.outputFolderPath config)
              (Config.ffmpegBinaryPath config)
              (Z.of_nat (List.length planned)) 0 planned)
    as [movies printed spawned | message | spawned] eqn:Econv.
  - destruct (Hreport movies printed spawned) as (Hnw & Hex).
    split; [ | split ].
    + intros spawned' [H | (? & ? & ? & ? & H)] Hs; [ now apply Hnw in H | ].
      exact Hgood.
    + intros ? ? ? ? ? H Hw. apply Hex in H. destruct H; congruence.
    + simpl. congruence.
  - split; [ | split ].
    + intros spawned [H | (? & ? & ? & ? & H)]; discriminate.
    + discriminate.
    + simpl. congruence.
  - split; [ | split ].
    + intros spawned' [H | (? & ? & ? & ? & H)] Hs; [ | discriminate ].
      exact Hgood.
    + discriminate.
    + simpl. congruence.
Qed.

(** X16. With a configuration accepted and every movie planned, when every
    child process writes chunks that can be read and terminates, [main]
    starts one child process for each movie, in the order of the
    configuration, whether or not an earlier one has failed, and exits with
    0 when every exit code is 0 and with 1 otherwise. Its last line is the
    success notice or the number of the movies that failed, and each movie
    that failed has a line with its name and what its process wrote on the
    diagnostic channel. *)
Theorem batch_exit_status (w : World.t) (node script mode configFilePath : string)
    (config : Config.t) (planned : list Movie) (rest : list string) :
  mode = "-c" \/ mode = "--config" ->
  parseFromFile w configFilePath = JS.Normal config ->
  collectAll w (Config.ffprobeBinaryPath config)
    (map fromIMovie (Config.movies config)) (World.answers w)
  = Planned planned rest ->
  let processOf :=
    processOf w (Config.outputFolderPath config) (Config.ffmpegBinaryPath config) in
  Forall (fun movie => exists chunks, Reads (processOf movie) chunks) planned ->
  Forall (fun movie => closes (processOf movie) = true) planned ->
  let failed := filter (fun movie => negb (succeeds (processOf movie))) planned in
  exists printed,
    main w [ node; script; mode; configFilePath ]
    = Exited (match failed with [] => 0 | _ :: _ => 1 end) printed [] []
        (map (spawnedFor w (Config.outputFolderPath config)
                (Config.ffmpegBinaryPath config)) planned)
    /\ List.length planned = List.length (Config.movies config)
    /\ last printed EmptyString
       = match failed with
         | [] => (newline ++ "SUCCESS")%string
         | _ :: _ =>
             (newline ++ "FINISHED WITH "
              ++ JS.numberToString (Z.of_nat (List.length failed))
              ++ " ERRORS")%string
         end
    /\ (forall movie,
          In movie failed ->
          In (newline ++ getFullyQualifiedName movie false ++ newline
              ++ diagnostics (processOf movie))%string printed)
    /\ (failed = []
        <-> Forall (fun movie => exitCodeOf (processOf movie) = Some 0%Z) planned).
Proof.
  intros Hmode Hparse Hplan processOf' Hreads Hcloses failed.
  destruct (collectAll_planned w _ _ _ _ _ Hplan) as (Hall & _).
  assert (Hconv : Forall (Convertible w (Config.outputFolderPath config)
                            (Config.ffmpegBinaryPath config)) planned).
  { clear - Hall Hreads. revert Hreads.
    induction Hall as [| m m' ms ms' Hm Hms IH]; intros Hreads;
      [ constructor | ].
    inversion Hreads as [| ? ? Hr Hrs]; subst.
    constructor; [ | exact (IH Hrs) ].
    destruct Hm as (_ & _ & _ & _ & probe & plan & _ & Hp & _).
    split; [ now exists plan | exact Hr ]. }
  destruct (convertAll_sequential w (Config.outputFolderPath config)
              (Config.ffmpegBinaryPath config)
              (Z.of_nat (List.length planned)) planned Hconv 0%Z)
    as (printed & Hconvert).
  rewrite (proj2 (forallb_forall _ planned)) in Hconvert
    by (intros m Hm; exact (proj1 (Forall_forall _ planned) Hcloses m Hm)).
  assert (Hmain : main w [ node; script; mode; configFilePath ]
                  = report
                      (map (finished w (Config.outputFolderPath config)
                              (Config.ffmpegBinaryPath config)) planned)
                      printed
                      (map (spawnedFor w (Config.outputFolderPath config)
                              (Config.ffmpegBinaryPath config)) planned)).
  { unfold main. cbn [skipn].
    destruct (mode_config mode Hmode) as (-> & ->). cbn [negb].
    rewrite Hparse, Hplan, Hconvert. reflexivity. }
  rewrite Hmain, report_finished. fold processOf'. fold failed.
  assert (Hfailed : failed = []
    <-> Forall (fun movie => exitCodeOf (processOf' movie) = Some 0%Z) planned).
  { subst failed. clear. induction planned as [| m ms IH]; cbn [filter].
    - split; [ constructor | reflexivity ].
    - unfold succeeds at 1.
      destruct (exitCodeOf (processOf' m)) as [code |] eqn:E.
      + destruct (Z.eqb_spec code 0) as [-> | Hne]; cbn [negb].
        * rewrite IH. split; [ now constructor | intros H; now inversion H ].
        * split; [ discriminate | intros H; inversion H; congruence ].
      + cbn [negb].
        split; [ discriminate | intros H; inversion H; congruence ]. }
  assert (Hlen : List.length planned = List.length (Config.movies config)).
  { apply Forall2_length in Hall. rewrite length_map in Hall. now symmetry. }
  destruct failed as [| movie failed'] eqn:Ef.
  - eexists. split; [ reflexivity | ].
    split; [ exact Hlen | ].
    split; [ apply last_last | ].
    split; [ intros m [] | exact Hfailed ].
  - eexists. split; [ reflexivity | ].
    split; [ exact Hlen | ].
    split; [ rewrite !app_assoc; apply last_last | ].
    split; [ | exact Hfailed ].
    intros m Hm. apply in_or_app. right. apply in_or_app. left.
    exact (in_map
             (fun movie0 =>
                (newline ++ getFullyQualifiedName movie0 false ++ newline
                 ++ diagnostics (processOf' movie0))%string)
             _ m Hm).
Qed.

(** X16 on the sample world: one movie, converted without an error. *)
Lemma batch_exit_status_sample :
  parseFromFile Sample.world "config.json" = JS.Normal Sample.config
  /\ collectAll Sample.world "/usr/local/bin/ffprobe"
       [ Sample.theMatrix ] [ "1"; "2" ]
     = Planned [ Sample.planned ] []
  /\ exists printed,
       main Sample.world [ "node"; "tvconvert.js"; "-c"; "config.json" ]
       = Exited 0 printed [] []
           [ spawnedFor Sample.world "out" "/usr/local/bin/ffmpeg"
               Sample.planned ]
       /\ last printed EmptyString = (newline ++ "SUCCESS")%string.
Proof.
  assert (Hreads : Reads Sample.events Sample.chunks).
  { unfold Sample.events, Sample.chunks.
    apply Reads_stdout; [ reflexivity | reflexivity | ].
    apply Reads_stdout; [ reflexivity | reflexivity | ].
    apply Reads_stderr.
    apply Reads_stdout; [ reflexivity | reflexivity | ].
    apply Reads_stdout; [ reflexivity | reflexivity | ].
    apply Reads_close. }
  assert (Hall : Forall
            (fun movie =>
               exists chunks,
                 Reads (processOf Sample.world "out" "/usr/local/bin/ffmpeg" movie)
                   chunks)
            [ Sample.planned ]).
  { constructor; [ exists Sample.chunks; exact Hreads | constructor ]. }
  assert (Hcloses : Forall
            (fun movie =>
               closes (processOf Sample.world "out" "/usr/local/bin/ffmpeg" movie)
               = true)
            [ Sample.planned ]).
  { constructor; [ reflexivity | constructor ]. }
  split; [ reflexivity | split; [ reflexivity | ] ].
  destruct (batch_exit_status Sample.world "node" "tvconvert.js" "-c"
              "config.json" Sample.config [ Sample.planned ] []
              (or_introl eq_refl) eq_refl eq_refl Hall Hcloses)
    as (printed & Hmain & _ & Hlast & _).
  exists printed. split; [ exact Hmain | exact Hlast ].
Defined.

(** X17. With a configuration accepted and every movie planned, when every
    child process writes chunks that can be read and one of them does not
    terminate, [main] waits without end: it has started the child processes
    of the movies up to the first one whose process does not terminate, in
    their order, and none for a movie after it. *)
Theorem conversions_run_one_after_the_other (w : World.t)
    (node script mode configFilePath : string)
    (config : Config.t) (planned : list Movie) (rest : list string) :
  mode = "-c" \/ mode = "--config" ->
  parseFromFile w configFilePath = JS.Normal config ->
  collectAll w (Config.ffprobeBinaryPath config)
    (map fromIMovie (Config.movies config)) (World.answers w)
  = Planned planned rest ->
  let processOf :=
    processOf w (Config.outputFolderPath config) (Config.ffmpegBinaryPath config) in
  Forall (fun movie => exists chunks, Reads (processOf movie) chunks) planned ->
  Exists (fun movie => closes (processOf movie) = false) planned ->
  exists before movie after,
    planned = before ++ movie :: after
    /\ Forall (fun movie => closes (processOf movie) = true) before
    /\ closes (processOf movie) = false
    /\ main w [ node; script; mode; configFilePath ]
       = Waiting
           (map (spawnedFor w (Config.outputFolderPath config)
                   (Config.ffmpegBinaryPath config))
              (before ++ [ movie ])).
Proof.
  intros Hmode Hparse Hplan processOf' Hreads Hstalls.
  destruct (collectAll_planned w _ _ _ _ _ Hplan) as (Hall & _).
  assert (Hconv : Forall (Convertible w (Config.outputFolderPath config)
                            (Config.ffmpegBinaryPath config)) planned).
  { clear - Hall Hreads. revert Hreads.
    induction Hall as [| m m' ms ms' Hm Hms IH]; intros Hreads;
      [ constructor | ].
    inversion Hreads as [| ? ? Hr Hrs]; subst.
    constructor; [ | exact (IH Hrs) ].
    destruct Hm as (_ & _ & _ & _ & probe & plan & _ & Hp & _).
    split; [ now exists plan | exact Hr ]. }
  destruct (convertAll_sequential w (Config.outputFolderPath config)
              (Config.ffmpegBinaryPath config)
              (Z.of_nat (List.length planned)) planned Hconv 0%Z)
    as (printed & Hconvert).
  assert (Hsome : forallb (fun movie => closes (processOf' movie)) planned
                  = false).
  { apply Exists_exists in Hstalls. destruct Hstalls as (m & Hin & Hm).
    destruct (forallb _ planned) eqn:E; [ | reflexivity ].
    rewrite forallb_forall in E. specialize (E m Hin). cbv beta in E.
    unfold processOf' in Hm. congruence. }
  unfold processOf' in Hsome. rewrite Hsome in Hconvert.
  destruct (started_prefix w _ _ planned Hsome)
    as (before & movie & after & Hsplit & Hstarted & Hbefore & Hmovie).
  exists before, movie, after.
  split; [ exact Hsplit | split; [ exact Hbefore | split; [ exact Hmovie | ] ] ].
  unfold main. cbn [skipn].
  destruct (mode_config mode Hmode) as (-> & ->). cbn [negb].
  rewrite Hparse, Hplan, Hconvert, Hstarted. reflexivity.
Qed.

(** X17 on the sample world with a child process that does not terminate. *)
Lemma conversions_run_one_after_the_other_sample :
  closes (World.spawn Sample.stalledWorld "/usr/local/bin/ffmpeg" []) = false
  /\ exists before movie after,
       [ Sample.planned ] = before ++ movie :: after
       /\ main Sample.stalledWorld [ "node"; "tvconvert.js"; "-c"; "config.json" ]
          = Waiting
              (map (spawnedFor Sample.stalledWorld "out" "/usr/local/bin/ffmpeg")
                 (before ++ [ movie ])).
Proof.
  assert (Hall : Forall
            (fun movie =>
               exists chunks,
                 Reads
                   (processOf Sample.stalledWorld "out" "/usr/local/bin/ffmpeg"
                      movie)
                   chunks)
            [ Sample.planned ]).
  { constructor; [ exists []; exact Reads_nil | constructor ]. }
  assert (Hstalls : Exists
            (fun movie =>
               closes
                 (processOf Sample.stalledWorld "out" "/usr/local/bin/ffmpeg"
                    movie)
               = false)
            [ Sample.planned ]).
  { constructor. reflexivity. }
  split; [ reflexivity | ].
  destruct (conversions_run_one_after_the_other Sample.stalledWorld "node"
              "tvconvert.js" "-c" "config.json" Sample.config
              [ Sample.planned ] []
              (or_introl eq_refl) eq_refl eq_refl Hall Hstalls)
    as (before & movie & after & Hsplit & _ & _ & Hmain).
  exists before, movie, after. split; [ exact Hsplit | exact Hmain ].
Defined.
